(** * llmcommit: the result cache and the model daemon

    A shallow embedding of [src/llmcommit/model_cache.py] and
    [src/llmcommit/model_server.py], with the command [clear] of
    [src/llmcommit/cache_cli.py].

    Conventions of the embedding.
    - A Python [str] is the list of its code points ([str]); [bytes] is a
      list of octets.  [diff[:500]] is [firstn 500].
    - [time.time()] and [st_mtime] are read as integers (seconds, exact
      arithmetic).  The clock readings are arguments of the functions:
      [save_message] has the time the file system stamps on the blob and the
      time it records, the daemon's handler has the two readings around the
      generation; the readings of one call of [CachedLLMClient] are taken
      at one instant.
    - The file system is a finite map from file names to the bytes of the
      files.  Text files are written and read as [pathlib] does on POSIX
      with a UTF-8 locale: [write_text] encodes strictly, [read_text]
      decodes strictly and reads every line end as a line feed.
    - Library code the program calls ([hashlib.sha256], the UTF-8 codec,
      [json.dumps] / [json.loads], [str.strip], [int], [str], [os.kill]) is
      written out so that every operation can be run on concrete inputs.
    - The classes [ModelServer] and [ModelClient] are first written for a
      stream socket that delivers what is sent ([send] and [recv] do not
      fail, the peer closes after its message); [Lossy] is the daemon on a
      connection where [recv] and [send] can raise and the peer can stay
      silent, and agrees with the first where the connection does not fail.
    - A clock reading is a whole number of seconds below [2^53], which a
      double holds exactly; [days] is an [int] of any size, and its
      arithmetic with the clock goes through [Float].
    - The interpreter's limit on the digits of an [int] converted from or
      to text has its default, 4300: [int] refuses a longer numeral; the
      integers of the JSON values are taken to be within it.
    - The exceptions raised are of classes derived from [Exception], which
      [except Exception] catches.
    - A raised exception is a value of [exn]; fallible code returns
      [result]. *)

From Stdlib Require Import NArith ZArith List Ascii String Lia DecimalN DecimalFacts.
From stdpp Require Import gmap list finite.

Set Warnings "-register-all".

(** ** Strings and bytes *)

Definition str := list N.
Definition bytes := list N.

(** [lit "abc"] is the Python literal ["abc"] (ASCII literals only). *)
Definition lit (s : string) : str := map N_of_ascii (list_ascii_of_string s).

Fixpoint str_eqb (a b : str) : bool :=
  match a, b with
  | [], [] => true
  | x :: a', y :: b' => N.eqb x y && str_eqb a' b'
  | _, _ => false
  end.

(** [needle in hay] for [str] and [bytes]. *)
Fixpoint starts_with (needle hay : list N) : bool :=
  match needle, hay with
  | [], _ => true
  | x :: n', y :: h' => N.eqb x y && starts_with n' h'
  | _ :: _, [] => false
  end.

Fixpoint contains (needle hay : list N) : bool :=
  starts_with needle hay ||
  match hay with
  | [] => false
  | _ :: h' => contains needle h'
  end.

Definition ends_with (suffix s : list N) : bool :=
  starts_with (rev suffix) (rev s).

Fixpoint drop_while (p : N -> bool) (s : list N) : list N :=
  match s with
  | [] => []
  | c :: r => if p c then drop_while p r else s
  end.

(** [str.join]. *)
Fixpoint join (sep : str) (l : list str) : str :=
  match l with
  | [] => []
  | [x] => x
  | x :: r => x ++ sep ++ join sep r
  end.

(** [str.replace(old, new)], leftmost non-overlapping occurrences, for a
    one-character [old]. *)
Definition replace_char (old : N) (new : str) (s : str) : str :=
  flat_map (fun c => if N.eqb c old then new else [c]) s.

(** [str.isspace] on one character, and [str.strip()]. *)
Definition py_isspace (c : N) : bool :=
  ((9 <=? c) && (c <=? 13) || (28 <=? c) && (c <=? 32) || (c =? 0x85) || (c =? 0xA0)
   || (c =? 0x1680) || (0x2000 <=? c) && (c <=? 0x200A) || (c =? 0x2028) || (c =? 0x2029)
   || (c =? 0x202F) || (c =? 0x205F) || (c =? 0x3000))%N.

Definition strip (s : str) : str :=
  rev (drop_while py_isspace (rev (drop_while py_isspace s))).

(** ** Decimal integers: [str(n)] and [int(s)] *)

Fixpoint uint_chars (d : Decimal.uint) : str :=
  match d with
  | Decimal.Nil => []
  | Decimal.D0 r => 48%N :: uint_chars r
  | Decimal.D1 r => 49%N :: uint_chars r
  | Decimal.D2 r => 50%N :: uint_chars r
  | Decimal.D3 r => 51%N :: uint_chars r
  | Decimal.D4 r => 52%N :: uint_chars r
  | Decimal.D5 r => 53%N :: uint_chars r
  | Decimal.D6 r => 54%N :: uint_chars r
  | Decimal.D7 r => 55%N :: uint_chars r
  | Decimal.D8 r => 56%N :: uint_chars r
  | Decimal.D9 r => 57%N :: uint_chars r
  end.

Definition is_digit (c : N) : bool := ((48 <=? c) && (c <=? 57))%N.

Definition digit_cons (c : N) (d : Decimal.uint) : Decimal.uint :=
  match (c - 48)%N with
  | 0 => Decimal.D0 d | 1 => Decimal.D1 d | 2 => Decimal.D2 d | 3 => Decimal.D3 d
  | 4 => Decimal.D4 d | 5 => Decimal.D5 d | 6 => Decimal.D6 d | 7 => Decimal.D7 d
  | 8 => Decimal.D8 d | _ => Decimal.D9 d
  end%N.

(** The digits of [s] as a decimal numeral; [None] when [s] has a character
    that is not an ASCII digit. *)
Fixpoint chars_uint (s : str) : option Decimal.uint :=
  match s with
  | [] => Some Decimal.Nil
  | c :: r =>
      if is_digit c then
        match chars_uint r with
        | Some d => Some (digit_cons c d)
        | None => None
        end
      else None
  end.

Definition nat_repr (n : N) : str := uint_chars (N.to_uint n).

(** [str(z)] for a Python [int]. *)
Definition int_repr (z : Z) : str :=
  if (z <? 0)%Z then 45%N :: nat_repr (Z.abs_N z) else nat_repr (Z.abs_N z).

(** [repr] of a float holding the whole number [z], as [json.dumps] and
    [str] print it: ["12.0"].  (From [1e16] on Python prints an exponent; the
    clock readings are below.) *)
Definition float_repr (z : Z) : str := int_repr z ++ lit ".0".

(** Underscores between digits are accepted by [int]: ["1_000"]. *)
Fixpoint drop_underscores (prev_digit : bool) (s : str) : option str :=
  match s with
  | [] => if prev_digit then Some [] else None
  | c :: r =>
      if (c =? 95)%N then
        if prev_digit then drop_underscores false r else None
      else
        match drop_underscores true r with
        | Some r' => Some (c :: r')
        | None => None
        end
  end.

(** The digit zero of every decimal system of Unicode 14.0, the version of
    Python 3.11: ASCII, Arabic-Indic, ..., fullwidth, ...  The nine code
    points after a zero are the other digits of its system. *)
Definition decimal_zeros : list N :=
  [0x30; 0x660; 0x6F0; 0x7C0; 0x966; 0x9E6; 0xA66; 0xAE6; 0xB66; 0xBE6; 0xC66; 0xCE6;
   0xD66; 0xDE6; 0xE50; 0xED0; 0xF20; 0x1040; 0x1090; 0x17E0; 0x1810; 0x1946; 0x19D0;
   0x1A80; 0x1A90; 0x1B50; 0x1BB0; 0x1C40; 0x1C50; 0xA620; 0xA8D0; 0xA900; 0xA9D0;
   0xA9F0; 0xAA50; 0xABF0; 0xFF10; 0x104A0; 0x10D30; 0x11066; 0x110F0; 0x11136;
   0x111D0; 0x112F0; 0x11450; 0x114D0; 0x11650; 0x116C0; 0x11730; 0x118E0; 0x11950;
   0x11C50; 0x11D50; 0x11DA0; 0x16A60; 0x16AC0; 0x16B50; 0x1D7CE; 0x1D7D8; 0x1D7E2;
   0x1D7EC; 0x1D7F6; 0x1E140; 0x1E2F0; 0x1E950; 0x1FBF0]%N.

(** [unicodedata.decimal(c)]: the value of a decimal digit. *)
Definition to_decimal (c : N) : option N :=
  match List.find (fun z => (z <=? c) && (c <=? z + 9))%N decimal_zeros with
  | Some z => Some (c - z)%N
  | None => None
  end.

(** The white space [int] skips around a numeral: the white space of C among
    the ASCII characters, that of Unicode from U+0080 on. *)
Definition int_space (c : N) : bool :=
  ((9 <=? c) && (c <=? 13) || (c =? 32) || (127 <=? c) && py_isspace c)%N.

(** The digits of [s], each as the ASCII digit of its value; [None] when a
    character is not a decimal digit. *)
Fixpoint ascii_digits (s : str) : option str :=
  match s with
  | [] => Some []
  | c :: r =>
      match to_decimal c, ascii_digits r with
      | Some d, Some r' => Some ((48 + d)%N :: r')
      | _, _ => None
      end
  end.

(** [int(s)]: white space around the numeral, an optional ASCII sign,
    decimal digits of any script with single underscores between them, and
    no more than 4300 digits, the interpreter's default limit.  [None]
    stands for [ValueError]. *)
Definition py_int (s : str) : option Z :=
  let t : str := rev (drop_while int_space (rev (drop_while int_space s))) in
  let '(neg, body) :=
    match t with
    | 45%N :: r => (true, r)
    | 43%N :: r => (false, r)
    | _ => (false, t)
    end in
  match body with
  | [] => None
  | _ =>
      match drop_underscores false body with
      | Some ds =>
          match ascii_digits ds with
          | Some a =>
              if (4300 <? N.of_nat (length a))%N then None
              else
                match chars_uint a with
                | Some d => let n := Z.of_N (N.of_uint d) in Some (if neg then (- n)%Z else n)
                | None => None
                end
          | None => None
          end
      | None => None
      end
  end.

(** ** [hashlib.sha256] (FIPS 180-4) *)

Module Sha256.
Local Open Scope N_scope.

Definition w32 (x : N) : N := x mod 4294967296.
Definition add32 (x y : N) : N := w32 (x + y).
Definition rotr (n x : N) : N := N.lor (N.shiftr x n) (w32 (N.shiftl x (32 - n))).
Definition shr (n x : N) : N := N.shiftr x n.
Definition not32 (x : N) : N := N.lxor x 0xffffffff.
Definition Ch (x y z : N) : N := N.lxor (N.land x y) (N.land (not32 x) z).
Definition Maj (x y z : N) : N := N.lxor (N.lxor (N.land x y) (N.land x z)) (N.land y z).
Definition bsig0 (x : N) : N := N.lxor (N.lxor (rotr 2 x) (rotr 13 x)) (rotr 22 x).
Definition bsig1 (x : N) : N := N.lxor (N.lxor (rotr 6 x) (rotr 11 x)) (rotr 25 x).
Definition ssig0 (x : N) : N := N.lxor (N.lxor (rotr 7 x) (rotr 18 x)) (shr 3 x).
Definition ssig1 (x : N) : N := N.lxor (N.lxor (rotr 17 x) (rotr 19 x)) (shr 10 x).

(** The first sixty-four primes. *)
Definition primes : list N :=
  [2; 3; 5; 7; 11; 13; 17; 19; 23; 29; 31; 37; 41; 43; 47; 53; 59; 61; 67; 71; 73; 79; 83; 89;
   97; 101; 103; 107; 109; 113; 127; 131; 137; 139; 149; 151; 157; 163; 167; 173; 179; 181;
   191; 193; 197; 199; 211; 223; 227; 229; 233; 239; 241; 251; 257; 263; 269; 271; 277; 281;
   283; 293; 307; 311].

(** Integer cube root of a number below [2^108], bit by bit. *)
Definition icbrt (n : N) : N :=
  fold_left
    (fun r i => let r' := r + 2 ^ i in if r' * r' * r' <=? n then r' else r)
    (rev (map N.of_nat (seq 0 36))) 0.

(** The round constants: the first 32 bits of the fractional parts of the
    cube roots of the primes. *)
Definition K : list N := map (fun p => w32 (icbrt (p * 2 ^ 96))) primes.

(** The eight working registers, also used for the chaining value. *)
Record regs := Regs { ra : N; rb : N; rc : N; rd : N; re : N; rf : N; rg : N; rh : N }.

(** The initial chaining value: the first 32 bits of the fractional parts of
    the square roots of the first eight primes. *)
Definition H0 : regs :=
  let h (p : N) := w32 (N.sqrt (p * 2 ^ 64)) in
  Regs (h 2) (h 3) (h 5) (h 7) (h 11) (h 13) (h 17) (h 19).

(** Padding: a one bit, zeros up to 56 mod 64, the bit length on 64 bits. *)
Definition pad (msg : bytes) : bytes :=
  let len := N.of_nat (length msg) in
  let k := (64 - (len + 9) mod 64) mod 64 in
  let bits := 8 * len in
  msg ++ [0x80] ++ repeat 0 (N.to_nat k)
      ++ map (fun i => (N.shiftr bits (8 * i)) mod 256) [7; 6; 5; 4; 3; 2; 1; 0].

Fixpoint blocks (fuel : nat) (l : bytes) : list bytes :=
  match fuel, l with
  | S fuel', _ :: _ => firstn 64 l :: blocks fuel' (skipn 64 l)
  | _, _ => []
  end.

(** Big-endian 32-bit words of a block. *)
Fixpoint words (l : bytes) : list N :=
  match l with
  | b3 :: b2 :: b1 :: b0 :: r =>
      N.lor (N.lor (N.shiftl b3 24) (N.shiftl b2 16)) (N.lor (N.shiftl b1 8) b0) :: words r
  | _ => []
  end.

(** Message schedule: [w] is the window of the last sixteen words. *)
Fixpoint extend (n : nat) (w : list N) : list N :=
  match n with
  | O => []
  | S n' =>
      let x := add32 (add32 (ssig1 (nth 14 w 0)) (nth 9 w 0))
                     (add32 (ssig0 (nth 1 w 0)) (nth 0 w 0)) in
      x :: extend n' (tl w ++ [x])
  end.

Definition schedule (w : list N) : list N := w ++ extend 48 w.

Definition round (s : regs) (kw : N * N) : regs :=
  let t1 := add32 (add32 (add32 (rh s) (bsig1 (re s)))
                         (add32 (Ch (re s) (rf s) (rg s)) (fst kw))) (snd kw) in
  let t2 := add32 (bsig0 (ra s)) (Maj (ra s) (rb s) (rc s)) in
  Regs (add32 t1 t2) (ra s) (rb s) (rc s) (add32 (rd s) t1) (re s) (rf s) (rg s).

Definition compress (h : regs) (block : bytes) : regs :=
  let s := fold_left round (combine K (schedule (words block))) h in
  Regs (add32 (ra h) (ra s)) (add32 (rb h) (rb s)) (add32 (rc h) (rc s)) (add32 (rd h) (rd s))
       (add32 (re h) (re s)) (add32 (rf h) (rf s)) (add32 (rg h) (rg s)) (add32 (rh h) (rh s)).

Definition word_bytes (w : N) : bytes :=
  [(N.shiftr w 24) mod 256; (N.shiftr w 16) mod 256; (N.shiftr w 8) mod 256; w mod 256].

Definition final (msg : bytes) : regs :=
  let p := pad msg in fold_left compress (blocks (length p) p) H0.

Definition digest (msg : bytes) : bytes :=
  let s := final msg in
  word_bytes (ra s) ++ word_bytes (rb s) ++ word_bytes (rc s) ++ word_bytes (rd s) ++
  word_bytes (re s) ++ word_bytes (rf s) ++ word_bytes (rg s) ++ word_bytes (rh s).

Definition hexdigit (d : N) : N := if d <? 10 then 48 + d else 87 + d.
Definition hex2 (b : N) : str := [hexdigit (b / 16); hexdigit (b mod 16)].

(** [hashlib.sha256(msg).hexdigest()]: 64 lower-case hexadecimal digits. *)
Definition hexdigest (msg : bytes) : str := flat_map hex2 (digest msg).

End Sha256.

(** ** The UTF-8 codec: [str.encode()] and [bytes.decode()] *)

Module Utf8.
Local Open Scope N_scope.

Definition is_surrogate (c : N) : bool := (0xD800 <=? c) && (c <=? 0xDFFF).

(** The characters [str.encode()] accepts: Unicode scalar values. *)
Definition scalar (c : N) : bool := (c <? 0x110000) && negb (is_surrogate c).

Definition encode_char (c : N) : bytes :=
  if c <? 0x80 then [c]
  else if c <? 0x800 then [0xC0 + c / 64; 0x80 + c mod 64]
  else if c <? 0x10000 then [0xE0 + c / 4096; 0x80 + (c / 64) mod 64; 0x80 + c mod 64]
  else [0xF0 + (c / 262144) mod 8; 0x80 + (c / 4096) mod 64; 0x80 + (c / 64) mod 64;
        0x80 + c mod 64].

(** [s.encode()] for a [str] of scalar values. *)
Definition encode (s : str) : bytes := flat_map encode_char s.

Definition is_cont (b : N) : bool := (0x80 <=? b) && (b <? 0xC0).

(** [b.decode()]: strict UTF-8; [None] stands for [UnicodeDecodeError]. *)
Fixpoint decode (b : bytes) : option str :=
  match b with
  | [] => Some []
  | b0 :: r =>
      if b0 <? 0x80 then
        match decode r with Some s => Some (b0 :: s) | None => None end
      else if b0 <? 0xC2 then None
      else if b0 <? 0xE0 then
        match r with
        | b1 :: r1 =>
            if is_cont b1 then
              match decode r1 with
              | Some s => Some ((b0 - 0xC0) * 64 + (b1 - 0x80) :: s)
              | None => None
              end
            else None
        | _ => None
        end
      else if b0 <? 0xF0 then
        match r with
        | b1 :: b2 :: r2 =>
            let c := (b0 - 0xE0) * 4096 + (b1 - 0x80) * 64 + (b2 - 0x80) in
            if is_cont b1 && is_cont b2 && (0x800 <=? c) && negb (is_surrogate c) then
              match decode r2 with Some s => Some (c :: s) | None => None end
            else None
        | _ => None
        end
      else if b0 <? 0xF5 then
        match r with
        | b1 :: b2 :: b3 :: r3 =>
            let c := (b0 - 0xF0) * 262144 + (b1 - 0x80) * 4096 + (b2 - 0x80) * 64 + (b3 - 0x80) in
            if is_cont b1 && is_cont b2 && is_cont b3 && (0x10000 <=? c) && (c <? 0x110000) then
              match decode r3 with Some s => Some (c :: s) | None => None end
            else None
        | _ => None
        end
      else None
  end.

End Utf8.

(** ** Python values, exceptions and results *)

(** The values [json.loads] can return.  A number keeps its literal (Python
    converts it to [int] or [float]: [Json.lit_value] gives the exact decimal
    value of the literal, [Float.of_decimal] the double of a float).  A
    [dict] is the list of its items in insertion order, with distinct keys. *)
Inductive json : Type :=
| JNull
| JBool (b : bool)
| JNum (l : str)
| JStr (s : str)
| JArr (items : list json)
| JObj (d : list (str * json)).

(** An exception object: its class and its argument; [str(e)] of an
    exception built from a [str] is that [str].  The objects are instances
    of [Exception], which is what [except Exception] catches. *)
Inductive exn : Type := Exn (cls : string) (arg : json).

Inductive result (A : Type) : Type :=
| Ok (a : A)
| Raise (e : exn).
Arguments Ok {A} a.
Arguments Raise {A} e.

Definition raise {A} (cls msg : string) : result A := Raise (Exn cls (JStr (lit msg))).

Definition rbind {A B} (r : result A) (k : A -> result B) : result B :=
  match r with
  | Ok a => k a
  | Raise e => Raise e
  end.

Declare Scope result_scope.
Delimit Scope result_scope with result.
Notation "x <- r ;; k" := (rbind r (fun x => k))
  (at level 100, r at next level, right associativity) : result_scope.

(** [d.get(k)], [k in d] and [d[k] = v] on the items of a [dict]. *)
Fixpoint dict_get (d : list (str * json)) (k : str) : option json :=
  match d with
  | [] => None
  | (k', v) :: r => if str_eqb k k' then Some v else dict_get r k
  end.

Definition dict_has (d : list (str * json)) (k : str) : bool :=
  match dict_get d k with Some _ => true | None => false end.

Fixpoint dict_set (d : list (str * json)) (k : str) (v : json) : list (str * json) :=
  match d with
  | [] => [(k, v)]
  | (k', v') :: r => if str_eqb k k' then (k', v) :: r else (k', v') :: dict_set r k v
  end.

(** ** [json.dumps] and [json.loads] *)

Module Json.
Local Open Scope N_scope.

Definition hex4 (n : N) : str :=
  [Sha256.hexdigit ((n / 4096) mod 16); Sha256.hexdigit ((n / 256) mod 16);
   Sha256.hexdigit ((n / 16) mod 16); Sha256.hexdigit (n mod 16)].

(** [ensure_ascii=True]: everything outside [' '..'~'] is escaped, characters
    beyond the basic plane as a surrogate pair. *)
Definition escape_char (c : N) : str :=
  if c =? 34 then [92; 34]
  else if c =? 92 then [92; 92]
  else if c =? 10 then [92; 110]
  else if c =? 13 then [92; 114]
  else if c =? 9 then [92; 116]
  else if c =? 8 then [92; 98]
  else if c =? 12 then [92; 102]
  else if (32 <=? c) && (c <=? 126) then [c]
  else if c <? 0x10000 then [92; 117] ++ hex4 c
  else
    let v := c - 0x10000 in
    [92; 117] ++ hex4 (0xD800 + (v / 1024) mod 1024) ++ [92; 117] ++ hex4 (0xDC00 + v mod 1024).

Definition dumps_str (s : str) : str := 34 :: flat_map escape_char s ++ [34].

(** [json.dumps(v)]: separators [", "] and [": "].  A number is printed
    as its literal, the way Python prints the numbers it wrote. *)
Fixpoint dumps (v : json) : str :=
  match v with
  | JNull => lit "null"
  | JBool true => lit "true"
  | JBool false => lit "false"
  | JNum l => l
  | JStr s => dumps_str s
  | JArr items => [91] ++ join (lit ", ") (map dumps items) ++ [93]
  | JObj d =>
      [123] ++ join (lit ", ") (map (fun kv => dumps_str (fst kv) ++ lit ": " ++ dumps (snd kv)) d)
            ++ [125]
  end.

(** [json.dumps(v, indent=2)], at nesting depth [level]. *)
Fixpoint dumps_indent (level : nat) (v : json) : str :=
  let nl (n : nat) := 10 :: repeat 32 (2 * n) in
  match v with
  | JArr ((_ :: _) as items) =>
      [91] ++ nl (S level)
           ++ join (44 :: nl (S level)) (map (dumps_indent (S level)) items)
           ++ nl level ++ [93]
  | JObj ((_ :: _) as d) =>
      [123] ++ nl (S level)
            ++ join (44 :: nl (S level))
                 (map (fun kv => dumps_str (fst kv) ++ lit ": " ++ dumps_indent (S level) (snd kv)) d)
            ++ nl level ++ [125]
  | _ => dumps v
  end.

Definition is_ws (c : N) : bool := (c =? 32) || (c =? 9) || (c =? 10) || (c =? 13).
Definition skip_ws (s : str) : str := drop_while is_ws s.

Definition hex_val (c : N) : option N :=
  if (48 <=? c) && (c <=? 57) then Some (c - 48)
  else if (97 <=? c) && (c <=? 102) then Some (c - 87)
  else if (65 <=? c) && (c <=? 70) then Some (c - 55)
  else None.

Definition hex4_val (c1 c2 c3 c4 : N) : option N :=
  match hex_val c1, hex_val c2, hex_val c3, hex_val c4 with
  | Some a, Some b, Some c, Some d => Some (((a * 16 + b) * 16 + c) * 16 + d)
  | _, _, _, _ => None
  end.

Definition unescape (e : N) : option N :=
  if e =? 34 then Some 34 else if e =? 92 then Some 92 else if e =? 47 then Some 47
  else if e =? 98 then Some 8 else if e =? 102 then Some 12 else if e =? 110 then Some 10
  else if e =? 114 then Some 13 else if e =? 116 then Some 9 else None.

Definition cons_fst (c : N) (r : option (str * str)) : option (str * str) :=
  match r with
  | Some (x, rest) => Some (c :: x, rest)
  | None => None
  end.

(** The body of a string, after its opening quote, up to the closing quote
    (strict mode: no raw control character). *)
Fixpoint scan_string (s : str) : option (str * str) :=
  match s with
  | [] => None
  | c :: r =>
      if c =? 34 then Some ([], r)
      else if c =? 92 then
        match r with
        | [] => None
        | e :: r1 =>
            if e =? 117 then
              match r1 with
              | h1 :: h2 :: h3 :: h4 :: r2 =>
                  match hex4_val h1 h2 h3 h4 with
                  | None => None
                  | Some u =>
                      if (0xD800 <=? u) && (u <=? 0xDBFF) then
                        match r2 with
                        | b :: r3 =>
                            match r3 with
                            | u' :: r4 =>
                                if (b =? 92) && (u' =? 117) then
                                  match r4 with
                                  | g1 :: g2 :: g3 :: g4 :: r5 =>
                                      match hex4_val g1 g2 g3 g4 with
                                      | None => None
                                      | Some u2 =>
                                          if (0xDC00 <=? u2) && (u2 <=? 0xDFFF) then
                                            cons_fst (0x10000 + (u - 0xD800) * 1024 + (u2 - 0xDC00))
                                                     (scan_string r5)
                                          else cons_fst u (scan_string r2)
                                      end
                                  | _ => None
                                  end
                                else cons_fst u (scan_string r2)
                            | [] => cons_fst u (scan_string r2)
                            end
                        | [] => cons_fst u (scan_string r2)
                        end
                      else cons_fst u (scan_string r2)
                  end
              | _ => None
              end
            else
              match unescape e with
              | Some c' => cons_fst c' (scan_string r1)
              | None => None
              end
        end
      else if c <? 32 then None
      else cons_fst c (scan_string r)
  end.

Fixpoint span_digits (s : str) : str * str :=
  match s with
  | [] => ([], [])
  | c :: r => if is_digit c then let '(d, r') := span_digits r in (c :: d, r') else ([], s)
  end.

(** The parts of a number literal: an optional minus sign; an integer part,
    ["0"] or a non-zero digit and more digits; an optional fraction, a point
    and digits; an optional exponent, [e] or [E], a sign and digits. *)
Record num_parts := NumParts {
  p_neg : bool;
  p_int : str;
  p_frac : str;      (* the digits after the point; empty when there is none *)
  p_exp : str        (* the exponent part with its letter and sign; empty when there is none *)
}.

Definition scan_frac (s : str) : str * str :=
  match s with
  | c :: r =>
      if c =? 46 then
        match span_digits r with
        | ([], _) => ([], s)
        | (ds, r') => (ds, r')
        end
      else ([], s)
  | [] => ([], s)
  end.

Definition scan_exp (s : str) : str * str :=
  match s with
  | c :: r =>
      if (c =? 101) || (c =? 69) then
        let '(sg, r1) :=
          match r with
          | c' :: r' => if (c' =? 43) || (c' =? 45) then ([c'], r') else ([], r)
          | [] => ([], r)
          end in
        match span_digits r1 with
        | ([], _) => ([], s)
        | (ds, r2) => (c :: sg ++ ds, r2)
        end
      else ([], s)
  | [] => ([], s)
  end.

Definition scan_number_parts (s : str) : option (num_parts * str) :=
  let '(neg, s1) :=
    match s with
    | c :: r => if c =? 45 then (true, r) else (false, s)
    | [] => (false, s)
    end in
  match s1 with
  | c :: r =>
      let int_rest :=
        if c =? 48 then Some ([c], r)
        else if is_digit c then let '(ds, r') := span_digits r in Some (c :: ds, r')
        else None in
      match int_rest with
      | Some (i, r1) =>
          let '(fr, r2) := scan_frac r1 in
          let '(ex, r3) := scan_exp r2 in
          Some (NumParts neg i fr ex, r3)
      | None => None
      end
  | [] => None
  end.

Definition parts_text (p : num_parts) : str :=
  (if p_neg p then [45] else []) ++ p_int p
    ++ (match p_frac p with [] => [] | ds => 46 :: ds end) ++ p_exp p.

Definition scan_number (s : str) : option (str * str) :=
  match scan_number_parts s with
  | Some (p, r) => Some (parts_text p, r)
  | None => None
  end.

Definition digits_val (s : str) : Z :=
  match chars_uint s with
  | Some d => Z.of_N (N.of_uint d)
  | None => 0%Z
  end.

(** The exact value [m * 10^e] of a number literal, as the pair [(m, e)]. *)
Definition lit_value (l : str) : option (Z * Z) :=
  match scan_number_parts l with
  | Some (p, []) =>
      let m := digits_val (p_int p ++ p_frac p) in
      let e :=
        match p_exp p with
        | _ :: c :: r =>
            if c =? 45 then (- digits_val r)%Z
            else if c =? 43 then digits_val r
            else digits_val (c :: r)
        | _ => 0%Z
        end in
      Some (if p_neg p then (- m)%Z else m, (e - Z.of_nat (length (p_frac p)))%Z)
  | _ => None
  end.

Fixpoint parse_value (fuel : nat) (s : str) : option (json * str) :=
  match fuel with
  | O => None
  | S f =>
      match s with
      | [] => None
      | c :: r =>
          if c =? 34 then
            match scan_string r with
            | Some (x, r') => Some (JStr x, r')
            | None => None
            end
          else if c =? 123 then
            match skip_ws r with
            | c' :: r' => if c' =? 125 then Some (JObj [], r') else parse_members f [] (c' :: r')
            | [] => None
            end
          else if c =? 91 then
            match skip_ws r with
            | c' :: r' => if c' =? 93 then Some (JArr [], r') else parse_elements f [] (c' :: r')
            | [] => None
            end
          else if starts_with (lit "null") s then Some (JNull, skipn 4 s)
          else if starts_with (lit "true") s then Some (JBool true, skipn 4 s)
          else if starts_with (lit "false") s then Some (JBool false, skipn 5 s)
          else
            match scan_number s with
            | Some (l, r') => Some (JNum l, r')
            | None =>
                if starts_with (lit "NaN") s then Some (JNum (lit "NaN"), skipn 3 s)
                else if starts_with (lit "Infinity") s then Some (JNum (lit "Infinity"), skipn 8 s)
                else if starts_with (lit "-Infinity") s then Some (JNum (lit "-Infinity"), skipn 9 s)
                else None
            end
      end
  end

with parse_elements (fuel : nat) (acc : list json) (s : str) : option (json * str) :=
  match fuel with
  | O => None
  | S f =>
      match parse_value f s with
      | Some (v, r1) =>
          match skip_ws r1 with
          | c :: r2 =>
              if c =? 93 then Some (JArr (rev (v :: acc)), r2)
              else if c =? 44 then parse_elements f (v :: acc) (skip_ws r2)
              else None
          | [] => None
          end
      | None => None
      end
  end

with parse_members (fuel : nat) (acc : list (str * json)) (s : str) : option (json * str) :=
  match fuel with
  | O => None
  | S f =>
      match s with
      | q :: r =>
          if q =? 34 then
            match scan_string r with
            | Some (k, r1) =>
                match skip_ws r1 with
                | c1 :: r2 =>
                    if c1 =? 58 then
                      match parse_value f (skip_ws r2) with
                      | Some (v, r3) =>
                          match skip_ws r3 with
                          | c2 :: r4 =>
                              if c2 =? 125 then Some (JObj (dict_set acc k v), r4)
                              else if c2 =? 44 then parse_members f (dict_set acc k v) (skip_ws r4)
                              else None
                          | [] => None
                          end
                      | None => None
                      end
                    else None
                | [] => None
                end
            | None => None
            end
          else None
      | [] => None
      end
  end.

(** [json.loads(s)].  The message of [JSONDecodeError] is abbreviated (Python
    also names the position); the interpreter's limit on the depth of
    nesting is left out. *)
Definition loads (s : str) : result json :=
  match parse_value (2 * length s + 2) (skip_ws s) with
  | Some (v, r) =>
      match skip_ws r with
      | [] => Ok v
      | _ => raise "JSONDecodeError" "Extra data"
      end
  | None => raise "JSONDecodeError" "Expecting value"
  end.

End Json.

(** ** [float]: the doubles *)

Module Float.
Local Open Scope Z_scope.

(** A double: a finite value [m * 2^e], an infinity, or a NaN.  A whole
    number is held with the exponent 0; the sign of a zero is not kept. *)
Inductive t : Type :=
| Fin (m e : Z)
| Inf (negative : bool)
| Nan.

(** The double of a whole number that is one: a clock reading, a file time. *)
Definition of_Z (z : Z) : t := Fin z 0.

Definition compare_fin (m1 e1 m2 e2 : Z) : comparison :=
  let e := Z.min e1 e2 in
  (m1 * 2 ^ (e1 - e) ?= m2 * 2 ^ (e2 - e)).

(** [a < b] and [a <= b]; a comparison with a NaN is false.  Python compares
    an [int] with a [float] by their exact values: the [int] [z] is then
    [of_Z z]. *)
Definition ltb (a b : t) : bool :=
  match a, b with
  | Fin m1 e1, Fin m2 e2 => match compare_fin m1 e1 m2 e2 with Lt => true | _ => false end
  | Fin _ _, Inf negative => negb negative
  | Inf negative, Fin _ _ => negative
  | Inf n1, Inf n2 => n1 && negb n2
  | _, _ => false
  end.

Definition leb (a b : t) : bool :=
  match a, b with
  | Fin m1 e1, Fin m2 e2 => match compare_fin m1 e1 m2 e2 with Gt => false | _ => true end
  | Fin _ _, Inf negative => negb negative
  | Inf negative, Fin _ _ => negative
  | Inf n1, Inf n2 => n1 || negb n2
  | _, _ => false
  end.

Definition is_zero (a : t) : bool :=
  match a with
  | Fin m _ => m =? 0
  | _ => false
  end.

Definition opp (a : t) : t :=
  match a with
  | Fin m e => Fin (- m) e
  | Inf negative => Inf (negb negative)
  | Nan => Nan
  end.

(** [floor (log2 (n / d))] for positive [n] and [d]. *)
Definition log2_quotient (n d : Z) : Z :=
  let k := Z.log2 n - Z.log2 d in
  let reached := if 0 <=? k then d * 2 ^ k <=? n else d <=? n * 2 ^ (- k) in
  if reached then k else k - 1.

(** The double nearest to [n / d] for positive [n] and [d]: a mantissa of 53
    bits, exponents from -1074, a tie goes to the even mantissa; from
    [2^1024] on, an infinity. *)
Definition round_pos (n d : Z) : t :=
  let e := Z.max (log2_quotient n d - 52) (-1074) in
  let num := if 0 <=? e then n else n * 2 ^ (- e) in
  let den := if 0 <=? e then d * 2 ^ e else d in
  let q := num / den in
  let r := num mod den in
  let m := match 2 * r ?= den with
           | Lt => q
           | Gt => q + 1
           | Eq => if Z.even q then q else q + 1
           end in
  if 0 <=? e then
    if 2 ^ 1024 <=? m * 2 ^ e then Inf false else Fin (m * 2 ^ e) 0
  else if m mod 2 ^ (- e) =? 0 then Fin (m / 2 ^ (- e)) 0
  else Fin m e.

(** The double nearest to [n / d], for a positive [d]. *)
Definition round (n d : Z) : t :=
  match n ?= 0 with
  | Eq => Fin 0 0
  | Gt => round_pos n d
  | Lt => opp (round_pos (- n) d)
  end.

(** [float(z)] for an [int], as the arithmetic of an [int] with a [float]
    converts it. *)
Definition of_int (z : Z) : result t :=
  match round z 1 with
  | Inf _ => raise "OverflowError" "int too large to convert to float"
  | f => Ok f
  end.

(** [a - b]. *)
Definition sub (a b : t) : t :=
  match a, b with
  | Fin m1 e1, Fin m2 e2 =>
      let e := Z.min e1 e2 in
      let m := m1 * 2 ^ (e1 - e) - m2 * 2 ^ (e2 - e) in
      if 0 <=? e then round (m * 2 ^ e) 1 else round m (2 ^ (- e))
  | Fin _ _, Inf negative => Inf (negb negative)
  | Inf negative, Fin _ _ => Inf negative
  | Inf n1, Inf n2 => if Bool.eqb n1 n2 then Nan else Inf n1
  | _, _ => Nan
  end.

(** [float(l)] for a literal of value [m * 10^e]. *)
Definition of_decimal (m e : Z) : t :=
  if 0 <=? e then round (m * 10 ^ e) 1 else round m (10 ^ (- e)).

End Float.

(** ** Operations of Python objects the program uses *)

Definition is_float_lit (l : str) : bool :=
  existsb (fun c => negb (is_digit c || (c =? 45)%N)) l.

Definition type_name (v : json) : string :=
  match v with
  | JNull => "NoneType"
  | JBool _ => "bool"
  | JNum l => if is_float_lit l then "float" else "int"
  | JStr _ => "str"
  | JArr _ => "list"
  | JObj _ => "dict"
  end.

Definition no_attribute {A} (v : json) (attr : string) : result A :=
  raise "AttributeError" ("'" ++ type_name v ++ "' object has no attribute '" ++ attr ++ "'").

(** [v.get(k, default)]. *)
Definition py_get (v : json) (k : str) (default : json) : result json :=
  match v with
  | JObj d => Ok (match dict_get d k with Some x => x | None => default end)
  | _ => no_attribute v "get"
  end.

(** [v.items()]. *)
Definition py_items (v : json) : result (list (str * json)) :=
  match v with
  | JObj d => Ok d
  | _ => no_attribute v "items"
  end.

(** [v[k] = x] for a [str] key. *)
Definition py_setitem (v : json) (k : str) (x : json) : result json :=
  match v with
  | JObj d => Ok (JObj (dict_set d k x))
  | JArr _ => raise "TypeError" "list indices must be integers or slices, not str"
  | _ => raise "TypeError" ("'" ++ type_name v ++ "' object does not support item assignment")
  end.

(** [v[k]] for a [str] key. *)
Definition py_getitem (v : json) (k : str) : result json :=
  match v with
  | JObj d => match dict_get d k with Some x => Ok x | None => Raise (Exn "KeyError" (JStr k)) end
  | JArr _ => raise "TypeError" "list indices must be integers or slices, not str"
  | JStr _ => raise "TypeError" "string indices must be integers, not 'str'"
  | _ => raise "TypeError" ("'" ++ type_name v ++ "' object is not subscriptable")
  end.

(** [k in v] for a [str] [k]: a key of a [dict], an item of a [list], a
    substring of a [str]. *)
Definition py_contains (k : str) (v : json) : result bool :=
  match v with
  | JObj d => Ok (dict_has d k)
  | JArr items => Ok (existsb (fun x => match x with JStr s => str_eqb s k | _ => false end) items)
  | JStr s => Ok (contains k s)
  | _ => raise "TypeError" ("argument of type '" ++ type_name v ++ "' is not iterable")
  end.

(** The number [json.loads] makes of a literal: an [int], held exactly, or
    the double nearest to the literal. *)
Definition number (l : str) : option Float.t :=
  if str_eqb l (lit "NaN") then Some Float.Nan
  else if str_eqb l (lit "Infinity") then Some (Float.Inf false)
  else if str_eqb l (lit "-Infinity") then Some (Float.Inf true)
  else
    match Json.lit_value l with
    | Some (m, e) => Some (if is_float_lit l then Float.of_decimal m e else Float.of_Z m)
    | None => None
    end.

(** [v >= c] for a [float] [c]. *)
Definition py_ge (v : json) (c : Float.t) : result bool :=
  match v with
  | JBool b => Ok (Float.leb c (Float.of_Z (if b then 1 else 0)))
  | JNum l =>
      match number l with
      | Some x => Ok (Float.leb c x)
      | None => raise "TypeError" "'>=' not supported"
      end
  | _ => raise "TypeError" ("'>=' not supported between instances of '" ++ type_name v
                              ++ "' and 'float'")
  end.

(** Truth value of an object, as [if v:] tests it. *)
Definition truthy (v : json) : bool :=
  match v with
  | JNull => false
  | JBool b => b
  | JNum l => match number l with Some x => negb (Float.is_zero x) | None => true end
  | JStr s => match s with [] => false | _ => true end
  | JArr items => match items with [] => false | _ => true end
  | JObj d => match d with [] => false | _ => true end
  end.

(** [str(v)].  For a value that is not a [str] Python prints its [repr]; it
    is rendered here as JSON text. *)
Definition py_str (v : json) : str :=
  match v with
  | JStr s => s
  | _ => Json.dumps v
  end.

(** [str(e)] for an exception. *)
Definition exn_str (e : exn) : str :=
  match e with
  | Exn _ v => py_str v
  end.

Definition decode_utf8 (b : bytes) : result str :=
  match Utf8.decode b with
  | Some s => Ok s
  | None => raise "UnicodeDecodeError" "'utf-8' codec can't decode bytes"
  end.

(** [s.encode()]: strict UTF-8. *)
Definition py_encode (s : str) : result bytes :=
  if forallb Utf8.scalar s then Ok (Utf8.encode s)
  else raise "UnicodeEncodeError" "'utf-8' codec can't encode character: surrogates not allowed".

(** ** Text files *)

(** What reading in text mode returns for the decoded text: with the default
    [newline=None] the line ends ["\r\n"] and ["\r"] are read as ["\n"]. *)
Fixpoint universal_newlines (s : str) : str :=
  match s with
  | [] => []
  | c :: r =>
      if N.eqb c 13 then
        10%N :: match r with
                | c' :: r' => if N.eqb c' 10 then universal_newlines r' else universal_newlines r
                | [] => []
                end
      else c :: universal_newlines r
  end.

(** [Path.read_text()] on a file that holds [b]. *)
Definition read_text (b : bytes) : result str :=
  (s <- decode_utf8 b;; Ok (universal_newlines s))%result.

(** [Path.write_text(text)]: the outcome of the call and what the file then
    holds.  The file is opened, and so emptied, before the text is encoded;
    on POSIX the text is written with its line ends as they are. *)
Definition write_text (text : str) : result unit * bytes :=
  match py_encode text with
  | Ok b => (Ok tt, b)
  | Raise e => (Raise e, [])
  end.

(** ** [model_cache.py]: class [ModelCache] *)

(** A file of [outputs/]: its bytes and its modification time. *)
Record file := File { content : bytes; mtime : Z }.

(** The cache directory: [outputs/] and [models/] by file name, and
    [cache_metadata.json]. *)
Record cache_fs := CacheFs {
  outputs : gmap str file;
  models : gmap str bytes;
  metadata_file : option bytes
}.

Module ModelCache.

(** The attribute [self.metadata]; it is whatever [json.loads] returned. *)
Record t := Make { metadata : json }.

Definition _load_metadata (fs : cache_fs) : json :=
  match metadata_file fs with
  | Some b =>
      match (text <- read_text b;; Json.loads text)%result with
      | Ok v => v
      | Raise _ => JObj []
      end
  | None => JObj []
  end.

Definition __init__ (fs : cache_fs) : t := Make (_load_metadata fs).

(** [json.dumps] writes ASCII only, which always encodes. *)
Definition _save_metadata (self : t) (fs : cache_fs) : cache_fs :=
  CacheFs (outputs fs) (models fs) (Some (Utf8.encode (Json.dumps_indent 0 (metadata self)))).

Definition get_cache_key (diff model : str) : result str :=
  let content := model ++ lit ":" ++ firstn 500 diff in
  (b <- py_encode content;;
   Ok (firstn 16 (Sha256.hexdigest b)))%result.

(** [outputs_dir / f"{key}.txt"]. *)
Definition cache_file (key : str) : str := key ++ lit ".txt".

Definition get_cached_message (fs : cache_fs) (now : Z) (diff model : str)
  : result (option str) :=
  (key <- get_cache_key diff model;;
   match outputs fs !! cache_file key with
   | Some f =>
       let age := (now - mtime f)%Z in
       if (age <? 86400)%Z then (text <- read_text (content f);; Ok (Some text))
       else Ok None
   | None => Ok None
   end)%result.

(** [t_fs] is the modification time the file system gives the blob, [now]
    the value of [time.time()].  The blob is written before the metadata is
    touched, so it stays written when the update of the metadata raises. *)
Definition save_message (self : t) (fs : cache_fs) (t_fs now : Z)
    (diff model message : str) : result t * cache_fs :=
  match get_cache_key diff model with
  | Raise e => (Raise e, fs)
  | Ok key =>
      let (written, b) := write_text message in
      let fs1 := CacheFs (<[cache_file key := File b t_fs]> (outputs fs))
                         (models fs) (metadata_file fs) in
      match written with
      | Raise e => (Raise e, fs1)
      | Ok _ =>
          let record := JObj [(lit "model", JStr model);
                              (lit "timestamp", JNum (float_repr now));
                              (lit "diff_size", JNum (nat_repr (N.of_nat (length diff))))] in
          match py_setitem (metadata self) key record with
          | Ok m =>
              let self' := Make m in
              (Ok self', _save_metadata self' fs1)
          | Raise e => (Raise e, fs1)
          end
      end
  end.

(** [models_dir / f"{model_key}.json"]. *)
Definition info_file (model_name : str) : str :=
  replace_char 47 (lit "--") model_name ++ lit ".json".

Definition get_model_info (fs : cache_fs) (model_name : str) : option json :=
  match models fs !! info_file model_name with
  | Some b =>
      match (text <- read_text b;; Json.loads text)%result with
      | Ok v => Some v
      | Raise _ => None
      end
  | None => None
  end.

Definition save_model_info (fs : cache_fs) (model_name : str) (info : json) : cache_fs :=
  CacheFs (outputs fs)
          (<[info_file model_name := Utf8.encode (Json.dumps_indent 0 info)]> (models fs))
          (metadata_file fs).

(** [outputs_dir.glob("*.txt")]. *)
Definition glob_txt (dir : gmap str file) : list str :=
  List.filter (ends_with (lit ".txt")) (map fst (map_to_list dir)).

(** The first loop of [clear_old_cache]. *)
Definition unlink_old (cutoff_time : Float.t) (dir : gmap str file) : gmap str file :=
  fold_left
    (fun d name =>
       match d !! name with
       | Some f => if Float.ltb (Float.of_Z (mtime f)) cutoff_time then delete name d else d
       | None => d
       end)
    (glob_txt dir) dir.

(** The test of the second loop: [info.get("timestamp", 0) >= cutoff_time]. *)
Definition is_recent (cutoff_time : Float.t) (info : json) : result bool :=
  (ts <- py_get info (lit "timestamp") (JNum (lit "0"));;
   py_ge ts cutoff_time)%result.

(** The second loop of [clear_old_cache]. *)
Fixpoint keep_recent (cutoff_time : Float.t) (items new_metadata : list (str * json))
  : result (list (str * json)) :=
  match items with
  | [] => Ok new_metadata
  | (key, info) :: r =>
      (recent <- is_recent cutoff_time info;;
       keep_recent cutoff_time r
         (if recent then dict_set new_metadata key info else new_metadata))%result
  end.

(** [time.time() - (days * 86400)]: the product is an [int], which the
    subtraction converts to a [float]. *)
Definition cutoff_time (now days : Z) : result Float.t :=
  (span <- Float.of_int (days * 86400);;
   Ok (Float.sub (Float.of_Z now) span))%result.

Definition clear_old_cache (self : t) (fs : cache_fs) (now : Z) (days : Z)
  : result t * cache_fs :=
  match cutoff_time now days with
  | Raise e => (Raise e, fs)
  | Ok cutoff_time =>
      let fs1 := CacheFs (unlink_old cutoff_time (outputs fs)) (models fs) (metadata_file fs) in
      match (items <- py_items (metadata self);; keep_recent cutoff_time items [])%result with
      | Ok new_metadata =>
          let self' := Make (JObj new_metadata) in
          (Ok self', _save_metadata self' fs1)
      | Raise e => (Raise e, fs1)
      end
  end.

End ModelCache.

(** ** [model_cache.py]: class [CachedLLMClient] *)

(** A generation engine: [client.generate_commit_message(diff)]. *)
Definition engine := json -> result str.

(** The engine classes are outside this subsystem: their constructors. *)
Record engine_classes := EngineClasses {
  FastCommitClient : json -> result engine;
  ONNXLLMClient : json -> result engine;
  LLMClient : json -> result engine
}.

Module CachedLLMClient.

Record t := Make {
  config : json;
  cache : ModelCache.t;
  model_name : str;
  _llm_client : option engine
}.

(** What a call can change: the object, the cache directory, the terminal. *)
Record state := State {
  self_ : t;
  fs_ : cache_fs;
  stdout_ : list str
}.

(** [cache_dir] is the argument of that name ([JNull] for [None]); the
    directory it names is [fs].  The source stores [config["model"]] as it
    is; the embedding builds clients whose model identifier is a [str]. *)
Definition __init__ (config cache_dir : json) (fs : cache_fs) : result t :=
  (dir <- (if truthy cache_dir then Ok cache_dir else py_get config (lit "cache_dir") JNull);;
   let cache := ModelCache.__init__ fs in
   model <- py_getitem config (lit "model");;
   match model with
   | JStr name => Ok (Make config cache name None)
   | _ => raise "TypeError" "model name is not a str"
   end)%result.

Definition is_import_error (e : exn) : bool :=
  match e with
  | Exn cls _ => (cls =? "ImportError")%string || (cls =? "ModuleNotFoundError")%string
  end.

(** The engine chosen by the configuration, with the lines printed on the
    way; an [ImportError] of the ONNX engine falls back to the regular one. *)
Definition select_engine (lib : engine_classes) (config : json) : result engine * list str :=
  match py_get config (lit "use_fast") (JBool false) with
  | Raise e => (Raise e, [])
  | Ok use_fast =>
      if truthy use_fast then
        match FastCommitClient lib config with
        | Ok client => (Ok client, [[0x26A1%N] ++ lit " Using fast rule-based client"])
        | Raise e => (Raise e, [])
        end
      else
        match py_get config (lit "use_onnx") (JBool false) with
        | Raise e => (Raise e, [])
        | Ok use_onnx =>
            if truthy use_onnx then
              match ONNXLLMClient lib config with
              | Ok client => (Ok client, [])
              | Raise e =>
                  if is_import_error e then
                    (LLMClient lib config,
                     [[0x26A0; 0xFE0F]%N
                        ++ lit "  ONNX not available, falling back to regular client: "
                        ++ exn_str e])
                  else (Raise e, [])
              end
            else (LLMClient lib config, [])
        end
  end.

Definition _get_llm_client (lib : engine_classes) (now : Z) (st : state)
  : result engine * state :=
  let self := self_ st in
  match _llm_client self with
  | Some client => (Ok client, st)
  | None =>
      let start := now in
      let model_info := ModelCache.get_model_info (fs_ st) (model_name self) in
      let out1 :=
        match model_info with
        | Some info =>
            if truthy info
            then stdout_ st
                   ++ [[0x26A1%N] ++ lit " Using cached model config for " ++ model_name self]
            else stdout_ st
        | None => stdout_ st
        end in
      match select_engine lib (config self) with
      | (Raise e, printed) => (Raise e, State self (fs_ st) (out1 ++ printed))
      | (Ok client, printed) =>
          let elapsed := (now - start)%Z in
          let out2 := out1 ++ printed
                        ++ [[0x23F1; 0xFE0F]%N ++ lit "  Model loaded in "
                              ++ float_repr elapsed ++ lit "s"] in
          let fs2 := ModelCache.save_model_info (fs_ st) (model_name self)
                       (JObj [(lit "loaded_at", JNum (float_repr now));
                              (lit "config", config self)]) in
          (Ok client,
           State (Make (config self) (cache self) (model_name self) (Some client)) fs2 out2)
      end
  end.

Definition generate_commit_message (lib : engine_classes) (t_fs now : Z) (diff : str)
    (st : state) : result str * state :=
  match ModelCache.get_cached_message (fs_ st) now diff (model_name (self_ st)) with
  | Raise e => (Raise e, st)
  | Ok (Some ((_ :: _) as cached)) =>
      (Ok cached, State (self_ st) (fs_ st)
                    (stdout_ st ++ [[0x26A1%N] ++ lit " Using cached commit message"]))
  | Ok _ =>
      match _get_llm_client lib now st with
      | (Raise e, st1) => (Raise e, st1)
      | (Ok client, st1) =>
          match client (JStr diff) with
          | Raise e => (Raise e, st1)
          | Ok message =>
              let self := self_ st1 in
              match ModelCache.save_message (cache self) (fs_ st1) t_fs now diff
                      (model_name self) message with
              | (Raise e, fs2) => (Raise e, State self fs2 (stdout_ st1))
              | (Ok cache', fs2) =>
                  (Ok message,
                   State (Make (config self) cache' (model_name self) (_llm_client self))
                         fs2 (stdout_ st1))
              end
          end
      end
  end.

End CachedLLMClient.

(** ** [model_server.py]: sockets *)

(** One end of a connected stream socket.  [incoming] lists what the
    successive calls of [recv(4096)] return; when it is exhausted the peer
    has closed its side and [recv] returns no bytes.  [sent] lists the
    arguments of the calls of [send]. *)
Record conn := Conn {
  incoming : list bytes;
  sent : list bytes;
  closed : bool
}.

Definition send (c : conn) (data : bytes) : conn :=
  Conn (incoming c) (sent c ++ [data]) (closed c).

Definition close (c : conn) : conn := Conn (incoming c) (sent c) true.

(** The receive loop of both ends:
    [while True: chunk = recv(4096); if not chunk: break; data += chunk;
     if marker in data: break].  Returns [data] and what is left to receive. *)
Fixpoint recv_until (marker data : bytes) (chunks : list bytes) : bytes * list bytes :=
  match chunks with
  | [] => (data, [])
  | chunk :: r =>
      match chunk with
      | [] => (data, r)
      | _ =>
          let data' := data ++ chunk in
          if contains marker data' then (data', r) else recv_until marker data' r
      end
  end.

(** ** [model_server.py]: class [ModelServer] *)

Module ModelServer.

Record t := Make {
  model_client : engine;
  running : bool
}.

(** The body of the [try] block of [_handle_request] between the receive
    loop and [conn.send]: the bytes to send for the request [data].
    [t_start] and [t_end] are the two readings of [time.time()] around the
    generation. *)
Definition response_for (self : t) (t_start t_end : Z) (data : bytes) : result bytes :=
  (text <- decode_utf8 data;;
   request <- Json.loads (strip text);;
   diff <- py_get request (lit "diff") (JStr []);;
   let start_time := t_start in
   message <- model_client self diff;;
   let elapsed := (t_end - start_time)%Z in
   let response := JObj [(lit "message", JStr message);
                         (lit "elapsed", JNum (float_repr elapsed))] in
   Ok (Utf8.encode (Json.dumps response) ++ [10%N]))%result.

Definition _handle_request (self : t) (t_start t_end : Z) (c : conn) : result unit * conn :=
  let '(data, rest) := recv_until [10; 10]%N [] (incoming c) in
  let c1 := Conn rest (sent c) (closed c) in
  let c2 :=
    match response_for self t_start t_end data with
    | Ok payload => send c1 payload
    | Raise e =>
        let error_response := JObj [(lit "error", JStr (exn_str e))] in
        send c1 (Utf8.encode (Json.dumps error_response) ++ [10%N])
    end in
  (Ok tt, close c2).

Definition _shutdown (self : t) : t := Make (model_client self) false.

(** What happens to a listening daemon: a termination signal, or a client
    that connects (with the clock readings of its handling). *)
Inductive event : Type :=
| Signal
| Connect (c : conn) (t_start t_end : Z).

(** A run of the daemon: the connections it handled, in order and as it left
    them; what it printed; whether the serve loop was left (the socket is
    then closed and its file removed). *)
Record run := Run {
  handled : list conn;
  console : list str;
  stopped : bool
}.

(** The serve loop, blocked in [accept].  A signal runs [_shutdown] and
    [accept] goes on waiting; the flag is read again after the next
    connection. *)
Fixpoint accept_loop (self : t) (events : list event) : run :=
  match events with
  | [] => Run [] [] false
  | Signal :: r =>
      let rest := accept_loop (_shutdown self) r in
      Run (handled rest) (([10%N] ++ lit "Shutting down server...") :: console rest)
          (stopped rest)
  | Connect c t_start t_end :: r =>
      let '(res, c') := _handle_request self t_start t_end c in
      let printed :=
        match res with
        | Ok _ => []
        | Raise e => [lit "Server error: " ++ exn_str e]
        end in
      if running self then
        let rest := accept_loop self r in
        Run (c' :: handled rest) (printed ++ console rest) (stopped rest)
      else Run [c'] printed true
  end.

(** [start]: the engine is loaded before the socket listens; a failure to
    load ends the process.  [t_load] is the time the loading took. *)
Definition start (lib : engine_classes) (config : json) (t_load : Z) (events : list event)
  : result run :=
  (model <- py_getitem config (lit "model");;
   client <- LLMClient lib config;;
   let rest := accept_loop (Make client true) events in
   Ok (Run (handled rest)
           ([lit "Loading model " ++ py_str model ++ lit "...";
             lit "Model loaded in " ++ float_repr t_load ++ lit "s";
             lit "Server listening on /tmp/llmcommit.sock"] ++ console rest)
           (stopped rest)))%result.

End ModelServer.

(** ** [model_server.py]: class [ModelClient] *)

(** What is behind [/tmp/llmcommit.sock]: whether the path exists, and the
    process listening on it, if any, as the function from the bytes the
    client sends to what its calls of [recv] then return. *)
Record endpoint := Endpoint {
  socket_exists : bool;
  listener : option (bytes -> list bytes)
}.

Module ModelClient.

Definition is_server_running (ep : endpoint) : bool := socket_exists ep.

(** The result, and the bytes sent over the connection ([None] when no
    connection was made). *)
Definition generate_commit_message (ep : endpoint) (diff : str) : result json * option bytes :=
  if negb (is_server_running ep) then
    (raise "Exception" "Model server not running. Start with: llmcommit-server", None)
  else
    match listener ep with
    | None => (raise "ConnectionRefusedError" "[Errno 111] Connection refused", None)
    | Some server =>
        let request := JObj [(lit "diff", JStr diff)] in
        let out := Utf8.encode (Json.dumps request) ++ [10; 10]%N in
        let '(data, _) := recv_until [10%N] [] (server out) in
        ((text <- decode_utf8 data;;
          response <- Json.loads (strip text);;
          has_error <- py_contains (lit "error") response;;
          if has_error then
            err <- py_getitem response (lit "error");;
            Raise (Exn "Exception" err)
          else py_getitem response (lit "message"))%result,
         Some out)
    end.

End ModelClient.

(** ** [model_server.py]: the daemon on a connection that can fail *)

(** How the peer's side of a connection goes on once the bytes it sent are
    read: the peer has closed ([recv] returns no bytes), the connection is
    broken ([recv] raises), or the peer stays silent ([recv] does not
    return: the daemon sets no timeout). *)
Inductive ending : Type :=
| Closed
| Broken (e : exn)
| Silent.

(** A connection as the daemon holds it: what the successive calls of [recv]
    return and how the peer goes on after that; for the successive calls of
    [send], the exception of a call that raises (a call beyond the list
    delivers); what was delivered; whether [close] was called. *)
Record link := Link {
  arriving : list bytes;
  at_end : ending;
  send_faults : list (option exn);
  delivered : list bytes;
  shut : bool
}.

Module Lossy.

(** The receive loop. *)
Inductive received : Type :=
| Got (data : bytes) (rest : list bytes)
| Failed (e : exn)
| Waiting.

Fixpoint recv_until (marker data : bytes) (chunks : list bytes) (e : ending) : received :=
  match chunks with
  | [] =>
      match e with
      | Closed => Got data []
      | Broken x => Failed x
      | Silent => Waiting
      end
  | chunk :: r =>
      match chunk with
      | [] => Got data r
      | _ =>
          let data' := data ++ chunk in
          if contains marker data' then Got data' r else recv_until marker data' r e
      end
  end.

Definition send (c : link) (data : bytes) : result unit * link :=
  match send_faults c with
  | Some e :: r => (Raise e, Link (arriving c) (at_end c) r (delivered c) (shut c))
  | None :: r => (Ok tt, Link (arriving c) (at_end c) r (delivered c ++ [data]) (shut c))
  | [] => (Ok tt, Link (arriving c) (at_end c) [] (delivered c ++ [data]) (shut c))
  end.

Definition close (c : link) : link :=
  Link (arriving c) (at_end c) (send_faults c) (delivered c) true.

(** A call of [_handle_request]: it returns or raises, or it never comes
    back from [recv]. *)
Inductive handling : Type :=
| Returned (r : result unit) (c : link)
| Stuck (c : link).

(** [_handle_request]: the [try] block up to its [send]; the [except] block,
    whose own [send] may raise, and then that exception leaves the handler;
    [close] in the [finally] block. *)
Definition _handle_request (self : ModelServer.t) (t_start t_end : Z) (c : link) : handling :=
  let after (rest : list bytes) (body : result bytes) :=
    let c1 := Link rest (at_end c) (send_faults c) (delivered c) (shut c) in
    let '(tried, c2) :=
      match body with
      | Ok payload => send c1 payload
      | Raise e => (Raise e, c1)
      end in
    match tried with
    | Ok _ => Returned (Ok tt) (close c2)
    | Raise e =>
        let error_response := JObj [(lit "error", JStr (exn_str e))] in
        let '(r, c3) := send c2 (Utf8.encode (Json.dumps error_response) ++ [10%N]) in
        Returned r (close c3)
    end in
  match recv_until [10; 10]%N [] (arriving c) (at_end c) with
  | Got data rest => after rest (ModelServer.response_for self t_start t_end data)
  | Failed e => after [] (Raise e)
  | Waiting => Stuck c
  end.

(** What happens to the listening daemon: a termination signal, a client
    that connects, a call of [accept] that raises. *)
Inductive event : Type :=
| Signal
| Connect (c : link) (t_start t_end : Z)
| AcceptFails (e : exn).

(** Where a run of the daemon is: waiting in [accept], out of the serve
    loop, or inside a handler that does not return. *)
Inductive state : Type :=
| Listening
| Stopped
| Blocked.

Record run := Run {
  handled : list link;
  console : list str;
  now_in : state
}.

(** The serve loop of [start]: what leaves the handler, or [accept], as an
    [Exception] is printed, and the loop goes on with its test. *)
Fixpoint accept_loop (self : ModelServer.t) (events : list event) : run :=
  match events with
  | [] => Run [] [] Listening
  | Signal :: r =>
      let rest := accept_loop (ModelServer._shutdown self) r in
      Run (handled rest) (([10%N] ++ lit "Shutting down server...") :: console rest)
          (now_in rest)
  | AcceptFails e :: r =>
      let printed := [lit "Server error: " ++ exn_str e] in
      if ModelServer.running self then
        let rest := accept_loop self r in
        Run (handled rest) (printed ++ console rest) (now_in rest)
      else Run [] printed Stopped
  | Connect c t_start t_end :: r =>
      match _handle_request self t_start t_end c with
      | Stuck c' => Run [c'] [] Blocked
      | Returned res c' =>
          let printed :=
            match res with
            | Ok _ => []
            | Raise e => [lit "Server error: " ++ exn_str e]
            end in
          if ModelServer.running self then
            let rest := accept_loop self r in
            Run (c' :: handled rest) (printed ++ console rest) (now_in rest)
          else Run [c'] printed Stopped
      end
  end.

End Lossy.

(** ** [model_server.py]: the supervisor *)

(** The host as the supervisor sees it: what [~/.llmcommit/server.pid]
    holds; what [os.kill] can signal besides the supervisor, which is the pids
    of the processes and, negated, the ids of their groups; what was sent
    [SIGTERM]; the socket file; the terminal.  The supervisor is in a process
    group of its own, which [os.kill] reaches as 0. *)
Record host := Host {
  pid_file : option bytes;
  processes : gset Z;
  terminated : gset Z;
  socket_file : bool;
  console : list str
}.

(** [int(text)] with its [ValueError], whose message is cut short here:
    Python adds the text it was given. *)
Definition int_of (text : str) : result Z :=
  match py_int text with
  | Some z => Ok z
  | None => raise "ValueError" "invalid literal for int() with base 10"
  end.

Definition process_exists (h : host) (pid : Z) : bool := bool_decide (pid ∈ processes h).

(** [os.kill(pid, sig)], up to the delivery of the signal: the pid is
    converted to a C [long], then to an [int]; a pid that [os.kill] cannot
    signal is an [OSError]; 0 is the group of the caller, which exists. *)
Definition os_kill (h : host) (pid : Z) : result unit :=
  if ((9223372036854775807 <? pid) || (pid <? -9223372036854775808))%Z then
    raise "OverflowError" "Python int too large to convert to C long"
  else if (2147483647 <? pid)%Z then
    raise "OverflowError" "signed integer is greater than maximum"
  else if (pid <? -2147483648)%Z then
    raise "OverflowError" "signed integer is less than minimum"
  else if (pid =? 0)%Z then Ok tt
  else if process_exists h pid then Ok tt
  else raise "ProcessLookupError" "[Errno 3] No such process".

(** [except (OSError, ValueError)], for the exceptions raised here:
    [UnicodeDecodeError] is a [ValueError]. *)
Definition is_os_or_value_error (e : exn) : bool :=
  match e with
  | Exn cls _ =>
      (cls =? "ProcessLookupError")%string || (cls =? "ValueError")%string
      || (cls =? "UnicodeDecodeError")%string
  end.

(** [os.fork()], seen from the parent: the child [new_pid] exists from now
    on, and runs [ModelServer().start()]. *)
Definition fork (new_pid : positive) (h : host) : Z * host :=
  (Z.pos new_pid,
   Host (pid_file h) ({[Z.pos new_pid]} ∪ processes h) (terminated h) (socket_file h)
        (console h)).

Definition print (line : str) (h : host) : host :=
  Host (pid_file h) (processes h) (terminated h) (socket_file h) (console h ++ [line]).

(** The [try] block of [start_server_daemon]: the recorded pid is read and
    probed with signal 0. *)
Definition probe (h : host) (b : bytes) : result unit :=
  (text <- read_text b;;
   pid <- int_of text;;
   os_kill h pid)%result.

(** The parent's run of [start_server_daemon]; the child's branch, where
    [os.fork] returns 0, is the daemon itself, [ModelServer.start]. *)
Definition start_server_daemon (new_pid : positive) (h : host) : result unit * host :=
  let spawn (h1 : host) :=
    let '(pid, h2) := fork new_pid h1 in
    (Ok tt,
     print (lit "Server started (PID: " ++ int_repr pid ++ lit ")")
           (Host (Some (Utf8.encode (int_repr pid))) (processes h2) (terminated h2)
                 (socket_file h2) (console h2))) in
  match pid_file h with
  | Some b =>
      match probe h b with
      | Ok _ => (Ok tt, print (lit "Server already running") h)
      | Raise e =>
          if is_os_or_value_error e then
            (* a stale PID file, which is removed *)
            spawn (Host None (processes h) (terminated h) (socket_file h) (console h))
          else (Raise e, h)
      end
  | None => spawn h
  end.

(** [stop_server_daemon]; every [Exception] of the [try] block is reported
    on the terminal.  With the pid 0 the [SIGTERM] goes to the supervisor
    itself, which ends there. *)
Definition stop_server_daemon (h : host) : host :=
  match pid_file h with
  | None => print (lit "Server not running") h
  | Some b =>
      match (text <- read_text b;; pid <- int_of text;; _ <- os_kill h pid;; Ok pid)%result with
      | Ok pid =>
          if (pid =? 0)%Z then
            Host (pid_file h) (processes h) ({[pid]} ∪ terminated h) (socket_file h) (console h)
          else
            print (lit "Server stopped")
                  (Host None (processes h) ({[pid]} ∪ terminated h) false (console h))
      | Raise e => print (lit "Error stopping server: " ++ exn_str e) h
      end
  end.

(** ** [model_server.py]: the command [status] *)

(** [except OSError], for the exceptions raised here. *)
Definition is_os_error (e : exn) : bool :=
  match e with
  | Exn cls _ => (cls =? "ProcessLookupError")%string
  end.

(** The branch [status] of [main]: the recorded pid is read and probed with
    signal 0, as in [start_server_daemon], but only an [OSError] is caught. *)
Definition status (h : host) : result unit * host :=
  match pid_file h with
  | Some b =>
      match (text <- read_text b;; pid <- int_of text;; _ <- os_kill h pid;; Ok pid)%result with
      | Ok pid => (Ok tt, print (lit "Server running (PID: " ++ int_repr pid ++ lit ")") h)
      | Raise e =>
          if is_os_error e then (Ok tt, print (lit "Server not running (stale PID file)") h)
          else (Raise e, h)
      end
  | None => (Ok tt, print (lit "Server not running") h)
  end.

(** ** [cache_cli.py] *)

Module CacheCli.

(** The command [clear] of [main], once [load_config] has given the cache
    directory: the outcome with the lines printed, and the directory.  The
    cache is built from the directory, as [ModelCache(...)] does.  With
    [--all] every [.txt] file of [outputs/] is unlinked and the empty mapping
    is saved as the metadata. *)
Definition clear (all : bool) (days : Z) (now : Z) (fs : cache_fs)
  : result (list str) * cache_fs :=
  let cache := ModelCache.__init__ fs in
  if all then
    let dir := fold_left (fun d name => delete name d) (ModelCache.glob_txt (outputs fs))
                         (outputs fs) in
    let cache' := ModelCache.Make (JObj []) in
    (Ok [lit "All cache cleared"],
     ModelCache._save_metadata cache' (CacheFs dir (models fs) (metadata_file fs)))
  else
    match ModelCache.clear_old_cache cache fs now days with
    | (Ok _, fs') =>
        (Ok [lit "Cleared cache entries older than " ++ int_repr days ++ lit " days"], fs')
    | (Raise e, fs') => (Raise e, fs')
    end.

End CacheCli.

(** * Vocabulary of the properties *)

(** A [str] of Unicode scalar values, as decoding produces: the diffs come
    from [subprocess.run(..., text=True)] and the messages from a tokenizer's
    [decode].  A lone surrogate cannot be encoded: [str.encode] raises. *)
Definition wf_str (s : str) : Prop := Forall (fun c => Utf8.scalar c = true) s.

(** The key of (model, diff) when the two can be encoded. *)
Definition key_of (diff model : str) : str :=
  firstn 16 (Sha256.hexdigest (Utf8.encode (model ++ lit ":" ++ firstn 500 diff))).

(** No carriage return in the text. *)
Definition no_cr (s : str) : Prop := Forall (fun c => c <> 13%N) s.

(** A lowercase hexadecimal digit, as [hexdigest] prints them. *)
Definition is_hex_digit (c : N) : bool :=
  ((48 <=? c) && (c <=? 57) || (97 <=? c) && (c <=? 102))%N.

(** A numeral as [str(n)] prints it: ["0"], or digits that do not start with
    a zero. *)
Definition canonical (d : Decimal.uint) : Prop :=
  match d with
  | Decimal.Nil => False
  | Decimal.D0 Decimal.Nil => True
  | Decimal.D0 _ => False
  | _ => True
  end.

(** The keys of a [dict] are distinct. *)
Fixpoint distinct_keys (d : list (str * json)) : Prop :=
  match d with
  | [] => True
  | (k, _) :: r => dict_get r k = None /\ distinct_keys r
  end.

(** The record of the item [kv] passes the test of [clear_old_cache]. *)
Definition keeps (cutoff : Float.t) (kv : str * json) : bool :=
  match ModelCache.is_recent cutoff (snd kv) with
  | Ok true => true
  | _ => false
  end.

(** [rest] does not continue a run of digits. *)
Definition no_digit_ahead (rest : str) : Prop :=
  match rest with
  | [] => True
  | c :: _ => is_digit c = false
  end.

(** What may follow a number whose text ends with ["...0"]. *)
Definition ends_number (rest : str) : Prop :=
  match rest with
  | [] => True
  | c :: _ => is_digit c = false /\ c <> 101%N /\ c <> 69%N
  end.

(** The numeral [d] followed by a zero. *)
Fixpoint times_ten (d : Decimal.uint) : Decimal.uint :=
  match d with
  | Decimal.Nil => Decimal.D0 Decimal.Nil
  | Decimal.D0 r => Decimal.D0 (times_ten r)
  | Decimal.D1 r => Decimal.D1 (times_ten r)
  | Decimal.D2 r => Decimal.D2 (times_ten r)
  | Decimal.D3 r => Decimal.D3 (times_ten r)
  | Decimal.D4 r => Decimal.D4 (times_ten r)
  | Decimal.D5 r => Decimal.D5 (times_ten r)
  | Decimal.D6 r => Decimal.D6 (times_ten r)
  | Decimal.D7 r => Decimal.D7 (times_ten r)
  | Decimal.D8 r => Decimal.D8 (times_ten r)
  | Decimal.D9 r => Decimal.D9 (times_ten r)
  end.

(** The record [info] can be tested by [clear_old_cache]: it is a mapping
    whose time stamp, or 0 in its absence, is a number. *)
Definition testable (info : json) : Prop :=
  forall cutoff : Float.t, exists b, ModelCache.is_recent cutoff info = Ok b.

(** A clock reading and a span of days that doubles hold exactly, as whole
    seconds, with their difference. *)
Definition exact_clock (now days : Z) : Prop :=
  (Z.abs now < 2 ^ 52 /\ Z.abs (days * 86400) < 2 ^ 52)%Z.

(** Records and blobs correspond one to one, and the time of a record is on
    the same side of [cutoff] as the modification time of its blob. *)
Definition paired (cutoff : Z) (d : list (str * json)) (dir : gmap str file) : Prop :=
  (forall key info, dict_get d key = Some info ->
     exists f, dir !! ModelCache.cache_file key = Some f
               /\ keeps (Float.of_Z cutoff) (key, info) = (cutoff <=? mtime f)%Z)
  /\ (forall (name : str) (f : file),
        dir !! name = Some f -> ends_with (lit ".txt") name = true ->
        exists key info, name = ModelCache.cache_file key /\ dict_get d key = Some info).

(** The claim as the specification states it: the blobs of age at least
    [days * 24h] are deleted and the younger ones stay ... *)
Definition deletes_from_age (self : ModelCache.t) (fs : cache_fs) (now days : Z) : Prop :=
  let fs' := snd (ModelCache.clear_old_cache self fs now days) in
  forall (name : str) (f : file),
    outputs fs !! name = Some f -> ends_with (lit ".txt") name = true ->
    ((days * 86400 <= now - mtime f)%Z -> outputs fs' !! name = None)
    /\ ((now - mtime f < days * 86400)%Z -> outputs fs' !! name = Some f).

(** ... and the metadata then holds exactly the records of the blobs that
    remain. *)
Definition records_match_blobs (self : ModelCache.t) (fs : cache_fs) (now days : Z) : Prop :=
  let r := ModelCache.clear_old_cache self fs now days in
  exists self' d',
    fst r = Ok self' /\ ModelCache.metadata self' = JObj d'
    /\ (forall key, dict_has d' key = true -> is_Some (outputs (snd r) !! ModelCache.cache_file key))
    /\ (forall (name : str) (f : file),
          outputs (snd r) !! name = Some f -> ends_with (lit ".txt") name = true ->
          exists key, name = ModelCache.cache_file key /\ dict_has d' key = true).

(** A cache with the blob of (["gpt2"], ["some diff"]) stored at time 100
    with its record, and a blob that this instance has no record of. *)
Definition example_key : str := key_of (lit "some diff") (lit "gpt2").

Definition example_fs : cache_fs :=
  CacheFs {[ ModelCache.cache_file example_key := File (lit "fix: typo") 100;
             lit "0123456789abcdef.txt" := File (lit "chore: bump") 5000 ]}
          ∅ None.

Definition example_self : ModelCache.t :=
  ModelCache.Make
    (JObj [(example_key, JObj [(lit "model", JStr (lit "gpt2"));
                               (lit "timestamp", JNum (float_repr 100));
                               (lit "diff_size", JNum (lit "9"))])]).

(** Printable ASCII, the only characters [json.dumps] emits. *)
Definition printable (c : N) : bool := ((32 <=? c) && (c <=? 126))%N.

(** What [ModelClient] sends for [diff]. *)
Definition request_bytes (diff : str) : bytes :=
  Utf8.encode (Json.dumps (JObj [(lit "diff", JStr diff)])) ++ [10; 10]%N.

(** The two responses of [_handle_request]. *)
Definition message_response (message : str) (elapsed : Z) : bytes :=
  Utf8.encode (Json.dumps (JObj [(lit "message", JStr message);
                                 (lit "elapsed", JNum (float_repr elapsed))])) ++ [10%N].

Definition error_response (text : str) : bytes :=
  Utf8.encode (Json.dumps (JObj [(lit "error", JStr text)])) ++ [10%N].


(** What the serve loop does with a connection. *)
Definition outcome (self : ModelServer.t) (ev : ModelServer.event) : conn :=
  match ev with
  | ModelServer.Connect c t_start t_end => snd (ModelServer._handle_request self t_start t_end c)
  | ModelServer.Signal => Conn [] [] false
  end.

(** The failure of [ModelClient] when the socket path does not exist. *)
Definition not_running : result json :=
  raise "Exception" "Model server not running. Start with: llmcommit-server".




(** The first eight bytes of the digest, which the key prints. *)
Definition key_bytes (diff model : str) : bytes :=
  firstn 8 (Sha256.digest (Utf8.encode (model ++ lit ":" ++ firstn 500 diff))).

(** The number a list of bytes denotes, least significant byte first. *)
Fixpoint bytes_value (l : bytes) : N :=
  match l with
  | [] => 0
  | b :: r => b + 256 * bytes_value r
  end%N.

(** The [width] digits of [n] in base 64, the lowest first, written with the
    characters from ['0'] to ['o']. *)
Fixpoint digits64 (width : nat) (n : N) : str :=
  match width with
  | O => []
  | S w => (48 + n mod 64)%N :: digits64 w (n / 64)
  end.

(** The number a text of such digits denotes. *)
Fixpoint value64 (s : str) : N :=
  match s with
  | [] => 0
  | c :: r => (c - 48) + 64 * value64 r
  end%N.

(** A family of model identifiers of eleven ASCII characters each, pairwise
    different up to [64^11]. *)
Definition model_family (i : nat) : str := digits64 11 (N.of_nat i).

(** The class of an exception. *)
Definition exn_class (e : exn) : string := match e with Exn cls _ => cls end.

(** The line [generate] prints on a hit. *)
Definition hit_line : str := [0x26A1%N] ++ lit " Using cached commit message".

(** The lookup found nothing the client can use: no fresh blob, or an empty
    one. *)
Definition is_miss (r : result (option str)) : Prop := r = Ok None \/ r = Ok (Some []).

(** A number as JSON writes it: a literal of the number grammar, or one of
    the three names Python's [json] uses for the other floats. *)
Definition json_number (l : str) : Prop :=
  Json.scan_number l = Some (l, [])
  \/ l = lit "NaN" \/ l = lit "Infinity" \/ l = lit "-Infinity".

(** What may follow a value in a JSON text: nothing, or a character that
    does not continue a number. *)
Definition delimiter (rest : str) : Prop :=
  match rest with
  | [] => True
  | c :: _ =>
      is_digit c = false /\ c <> 46%N /\ c <> 101%N /\ c <> 69%N /\ c <> 43%N /\ c <> 45%N
  end.

(** The characters of a number literal. *)
Definition number_char (c : N) : bool :=
  (is_digit c || (c =? 45) || (c =? 43) || (c =? 46) || (c =? 101) || (c =? 69))%N.

(** A value as [json.dumps] can write it and [json.loads] reads it back:
    strings of Unicode scalar values, numbers as JSON writes them, mappings
    with distinct keys. *)
Fixpoint wf_json (v : json) : Prop :=
  match v with
  | JNull | JBool _ => True
  | JNum l => json_number l
  | JStr s => wf_str s
  | JArr items =>
      (fix all (l : list json) : Prop :=
         match l with
         | [] => True
         | x :: r => wf_json x /\ all r
         end) items
  | JObj d =>
      distinct_keys d
      /\ (fix all (l : list (str * json)) : Prop :=
            match l with
            | [] => True
            | (k, x) :: r => wf_str k /\ wf_json x /\ all r
            end) d
  end.

(** The fuel [Json.parse_value] needs for a value. *)
Fixpoint weight (v : json) : nat :=
  match v with
  | JArr items =>
      S ((fix sum (l : list json) : nat :=
            match l with
            | [] => 0
            | x :: r => S (weight x) + sum r
            end) items)
  | JObj d =>
      S ((fix sum (l : list (str * json)) : nat :=
            match l with
            | [] => 0
            | (_, x) :: r => S (weight x) + sum r
            end) d)
  | _ => 1
  end.

Definition weights (items : list json) : nat :=
  fold_right (fun x n => S (weight x) + n) 0 items.

(** White space between the tokens of a JSON text. *)
Definition blank (s : str) : Prop := Forall (fun c => Json.is_ws c = true) s.

(** [t] is read back as [v], whatever follows it. *)
Definition parses (t : str) (v : json) : Prop :=
  forall rest fuel,
    weight v <= fuel -> delimiter rest ->
    Json.parse_value fuel (t ++ rest) = Some (v, rest).

(** The first character of the text of a value: not white space, and not a
    closing bracket. *)
Definition value_head (t : str) : Prop :=
  exists c r, t = c :: r /\ Json.is_ws c = false /\ c <> 93%N /\ c <> 125%N.

(** The characters of the text [json.dumps] writes with [indent]: printable
    ASCII and the line feed. *)
Definition text_char (c : N) : bool := printable c || (c =? 10)%N.

(** The line break [json.dumps] writes with [indent=2] at a nesting depth. *)
Definition nl (level : nat) : str := 10%N :: repeat 32%N (2 * level).



(** The connection [c] as a link that does not fail: the peer closes after
    what it sent. *)
Definition reliable (c : conn) : link := Link (incoming c) Closed [] (sent c) (closed c).

(** An event of the daemon of reliable connections, as an event of the
    daemon in general. *)
Definition lossy_event (ev : ModelServer.event) : Lossy.event :=
  match ev with
  | ModelServer.Signal => Lossy.Signal
  | ModelServer.Connect c t_start t_end => Lossy.Connect (reliable c) t_start t_end
  end.







(** The host after a call of [start_server_daemon] that forked [pid]. *)
Definition spawned (pid : positive) (h : host) : host :=
  Host (Some (Utf8.encode (int_repr (Z.pos pid)))) ({[Z.pos pid]} ∪ processes h)
       (terminated h) (socket_file h)
       (console h ++ [lit "Server started (PID: " ++ int_repr (Z.pos pid) ++ lit ")"]).

(** The PID file [b] names no process that can be signalled: it cannot be
    decoded, or is not a number, or is the pid, a positive number, of a
    process that is gone. *)
Definition stale (h : host) (b : bytes) : Prop :=
  forall text pid,
    read_text b = Ok text -> py_int text = Some pid ->
    (0 < pid <= 2147483647)%Z /\ pid ∉ processes h.

(** The steps shared by [stop_server_daemon] and [status]. *)
Definition signalled (h : host) (b : bytes) : result Z :=
  (text <- read_text b;; pid <- int_of text;; _ <- os_kill h pid;; Ok pid)%result.

(** * Properties *)

(** ** Strings *)

(** Replaces the literals of the goal by their lists of code points. *)
Ltac eval_lit :=
  repeat match goal with
         | |- context [lit ?s] =>
             let v := eval vm_compute in (lit s) in change (lit s) with v
         end.

(** Decides the comparisons of the goal between two constants. *)
Ltac eval_eqb :=
  repeat match goal with
         | |- context [N.eqb ?a ?b] =>
             let v := eval vm_compute in (N.eqb a b) in
             match v with
             | true => change (N.eqb a b) with true
             | false => change (N.eqb a b) with false
             end
         end;
  cbv iota; cbn [andb orb].

Lemma str_eqb_eq (a b : str) : str_eqb a b = true <-> a = b.
Proof.
  revert b. induction a as [|x a IH]; intros [|y b]; simpl; split; try congruence; try easy.
  - intros [Hx Hab]%andb_true_iff. apply N.eqb_eq in Hx. apply IH in Hab. congruence.
  - intros [= -> ->]. rewrite N.eqb_refl. simpl. now apply IH.
Qed.

Lemma str_eqb_refl (a : str) : str_eqb a a = true.
Proof. now apply str_eqb_eq. Qed.

Lemma str_eqb_neq (a b : str) : str_eqb a b = false <-> a <> b.
Proof.
  rewrite <- str_eqb_eq. destruct (str_eqb a b); split; congruence.
Qed.

Lemma starts_with_app (p s : list N) : starts_with p (p ++ s) = true.
Proof. induction p as [|x p IH]; simpl; [easy|]. now rewrite N.eqb_refl. Qed.

Lemma ends_with_app (s suffix : list N) : ends_with suffix (s ++ suffix) = true.
Proof. unfold ends_with. rewrite rev_app_distr. apply starts_with_app. Qed.

(** ** Doubles of whole numbers *)

Lemma log2_quotient_small (z d : Z) :
  (0 < z < 2 ^ 53)%Z -> (0 < d)%Z -> (Float.log2_quotient (z * d) d <= 52)%Z.
Proof.
  intros [Hz Hlt] Hd. unfold Float.log2_quotient.
  assert (Hk : (Z.log2 (z * d) - Z.log2 d <= 53)%Z).
  { pose proof (Z.log2_mul_above z d) as Habove.
    assert (Z.log2 z < 53)%Z by (apply Z.log2_lt_pow2; lia). lia. }
  destruct (Z.eq_dec (Z.log2 (z * d) - Z.log2 d)%Z 53%Z) as [E | Hne].
  - rewrite E. change (0 <=? 53)%Z with true. cbv iota.
    assert ((d * 2 ^ 53 <=? z * d)%Z = false) as -> by (apply Z.leb_gt; nia). lia.
  - destruct (if (0 <=? _)%Z then _ else _); lia.
Qed.

(** A whole number below [2^53] is a double, and is the double nearest to
    itself, however it is written as a quotient. *)
Lemma round_pos_whole (z d : Z) :
  (0 < z < 2 ^ 53)%Z -> (0 < d)%Z -> Float.round_pos (z * d) d = Float.of_Z z.
Proof.
  intros Hz Hd. pose proof (log2_quotient_small z d Hz Hd) as Hk.
  unfold Float.round_pos, Float.of_Z.
  remember (Z.max (Float.log2_quotient (z * d) d - 52) (-1074)) as e eqn:He.
  assert (Hle : (e <= 0)%Z) by lia. clear He Hk.
  destruct (Z.leb_spec 0 e) as [Hpos | Hneg].
  - assert (e = 0%Z) as -> by lia. change (2 ^ 0)%Z with 1%Z. rewrite !Z.mul_1_r.
    rewrite Z.div_mul, Z.mod_mul by lia. rewrite Z.mul_0_r.
    assert ((0 ?= d)%Z = Lt) as -> by (apply Z.compare_lt_iff; lia).
    assert ((2 ^ 1024 <=? z)%Z = false) as ->; [|reflexivity].
    apply Z.leb_gt. apply Z.lt_trans with (2 ^ 53)%Z; [lia | reflexivity].
  - assert (Hp : (0 < 2 ^ (- e))%Z) by (apply Z.pow_pos_nonneg; lia).
    replace (z * d * 2 ^ (- e))%Z with (z * 2 ^ (- e) * d)%Z by ring.
    rewrite Z.div_mul, Z.mod_mul by lia. rewrite Z.mul_0_r.
    assert ((0 ?= d)%Z = Lt) as -> by (apply Z.compare_lt_iff; lia).
    rewrite Z.mod_mul, Z.div_mul by lia. reflexivity.
Qed.

Lemma round_whole (z d : Z) :
  (Z.abs z < 2 ^ 53)%Z -> (0 < d)%Z -> Float.round (z * d) d = Float.of_Z z.
Proof.
  intros Hz Hd. unfold Float.round.
  destruct (Z.compare_spec (z * d) 0) as [E | Hlt | Hgt].
  - assert (z = 0%Z) as -> by nia. reflexivity.
  - replace (- (z * d))%Z with (- z * d)%Z by ring.
    rewrite round_pos_whole by (try assumption; nia). unfold Float.of_Z, Float.opp.
    now rewrite Z.opp_involutive.
  - apply round_pos_whole; [nia | assumption].
Qed.

Lemma of_int_whole (z : Z) : (Z.abs z < 2 ^ 53)%Z -> Float.of_int z = Ok (Float.of_Z z).
Proof.
  intros Hz. unfold Float.of_int. rewrite <- (Z.mul_1_r z) at 1.
  now rewrite round_whole by (try assumption; lia).
Qed.

Lemma sub_whole (a b : Z) :
  (Z.abs (a - b) < 2 ^ 53)%Z -> Float.sub (Float.of_Z a) (Float.of_Z b) = Float.of_Z (a - b).
Proof.
  intros H. unfold Float.sub, Float.of_Z. cbn [Z.min Z.compare Z.sub Z.opp Z.add Z.leb].
  change (2 ^ 0)%Z with 1%Z. rewrite !Z.mul_1_r.
  rewrite <- (Z.mul_1_r (a - b)) at 1. now apply round_whole.
Qed.

Lemma of_decimal_point_zero (z : Z) :
  (Z.abs z < 2 ^ 53)%Z -> Float.of_decimal (10 * z) (-1) = Float.of_Z z.
Proof.
  intros Hz. unfold Float.of_decimal. cbn [Z.leb Z.compare Z.opp].
  change (10 ^ 1)%Z with 10%Z. rewrite (Z.mul_comm 10 z). now apply round_whole.
Qed.

Lemma ltb_whole (a b : Z) : Float.ltb (Float.of_Z a) (Float.of_Z b) = (a <? b)%Z.
Proof.
  unfold Float.ltb, Float.of_Z, Float.compare_fin. cbn [Z.min Z.compare Z.sub Z.opp Z.add].
  change (2 ^ 0)%Z with 1%Z. rewrite !Z.mul_1_r. unfold Z.ltb. reflexivity.
Qed.

Lemma leb_whole (a b : Z) : Float.leb (Float.of_Z a) (Float.of_Z b) = (a <=? b)%Z.
Proof.
  unfold Float.leb, Float.of_Z, Float.compare_fin. cbn [Z.min Z.compare Z.sub Z.opp Z.add].
  change (2 ^ 0)%Z with 1%Z. rewrite !Z.mul_1_r. unfold Z.leb.
  now destruct (a ?= b)%Z.
Qed.

(** An [int] from [2^1024] on has no double. *)
Lemma round_pos_overflow (z : Z) : (2 ^ 1024 <= z)%Z -> Float.round_pos z 1 = Float.Inf false.
Proof.
  intros Hz. assert (Hpos : (0 < z)%Z) by (apply Z.lt_le_trans with (2 ^ 1024)%Z; [reflexivity | exact Hz]).
  pose proof (Z.log2_spec z Hpos) as [Hlo Hhi].
  assert (Hlog : (1024 <= Z.log2 z)%Z).
  { apply Z.log2_le_pow2; assumption. }
  unfold Float.round_pos, Float.log2_quotient. change (Z.log2 1) with 0%Z.
  rewrite Z.sub_0_r.
  assert ((0 <=? Z.log2 z)%Z = true) as -> by (apply Z.leb_le; lia).
  rewrite Z.mul_1_l. assert ((2 ^ Z.log2 z <=? z)%Z = true) as -> by (apply Z.leb_le; lia).
  remember (Z.log2 z) as k eqn:Hk.
  assert (Z.max (k - 52) (-1074) = k - 52)%Z as -> by lia.
  assert ((0 <=? k - 52)%Z = true) as -> by (apply Z.leb_le; lia).
  rewrite Z.mul_1_l.
  assert (Hp : (0 < 2 ^ (k - 52))%Z) by (apply Z.pow_pos_nonneg; lia).
  assert (Hsplit : (2 ^ k = 2 ^ 52 * 2 ^ (k - 52))%Z).
  { rewrite <- Z.pow_add_r by lia. f_equal. lia. }
  assert (Hq : (2 ^ 52 <= z / 2 ^ (k - 52))%Z).
  { apply Z.div_le_lower_bound; [exact Hp|]. rewrite Z.mul_comm, <- Hsplit. exact Hlo. }
  set (q := (z / 2 ^ (k - 52))%Z) in *.
  set (m := match (2 * (z mod 2 ^ (k - 52)) ?= 2 ^ (k - 52))%Z with
            | Eq => if Z.even q then q else (q + 1)%Z
            | Lt => q
            | Gt => (q + 1)%Z
            end).
  assert (Hm : (q <= m)%Z).
  { subst m. destruct (_ ?= _)%Z; [destruct (Z.even q)|..]; lia. }
  assert ((2 ^ 1024 <=? m * 2 ^ (k - 52))%Z = true) as ->; [|reflexivity].
  apply Z.leb_le. apply Z.le_trans with (2 ^ k)%Z.
  - apply Z.pow_le_mono_r; lia.
  - rewrite Hsplit. apply Z.mul_le_mono_nonneg_r; lia.
Qed.

Lemma of_int_overflow (z : Z) :
  (2 ^ 1024 <= Z.abs z)%Z ->
  Float.of_int z = raise "OverflowError" "int too large to convert to float".
Proof.
  intros Hz. unfold Float.of_int, Float.round.
  assert (Hbig : (0 < 2 ^ 1024)%Z) by reflexivity.
  destruct (Z.compare_spec z 0) as [E | Hlt | Hgt].
  - subst z. exfalso. change (Z.abs 0) with 0%Z in Hz. lia.
  - rewrite round_pos_overflow by lia. reflexivity.
  - rewrite round_pos_overflow by lia. reflexivity.
Qed.

(** The cutoff of [clear_old_cache] where the arithmetic is exact. *)
Lemma cutoff_time_exact (now days : Z) :
  exact_clock now days ->
  ModelCache.cutoff_time now days = Ok (Float.of_Z (now - days * 86400)).
Proof.
  intros [Hnow Hdays]. unfold ModelCache.cutoff_time.
  rewrite of_int_whole by lia. cbn [rbind]. f_equal. apply sub_whole. lia.
Qed.

Lemma cutoff_time_defined (now days : Z) :
  (Z.abs (days * 86400) < 2 ^ 53)%Z -> exists c, ModelCache.cutoff_time now days = Ok c.
Proof.
  intros Hdays. unfold ModelCache.cutoff_time. rewrite of_int_whole by exact Hdays.
  cbn [rbind]. eauto.
Qed.

Lemma cutoff_time_overflow (now days : Z) :
  (2 ^ 1024 <= Z.abs (days * 86400))%Z ->
  ModelCache.cutoff_time now days
  = raise "OverflowError" "int too large to convert to float".
Proof.
  intros Hdays. unfold ModelCache.cutoff_time. now rewrite of_int_overflow.
Qed.


(** ** UTF-8 is injective *)

Ltac Zify.zify_post_hook ::= Z.to_euclidean_division_equations.

Lemma decode_encode_char (c : N) (rest : bytes) :
  Utf8.scalar c = true ->
  Utf8.decode (Utf8.encode_char c ++ rest)
  = match Utf8.decode rest with Some s => Some (c :: s) | None => None end.
Proof.
  intros Hc. unfold Utf8.scalar, Utf8.is_surrogate in Hc.
  apply andb_true_iff in Hc as [Hmax Hsur]. apply N.ltb_lt in Hmax.
  apply negb_true_iff, andb_false_iff in Hsur. rewrite !N.leb_gt in Hsur.
  unfold Utf8.encode_char.
  destruct (N.ltb_spec c 128) as [H1 | H1].
  { cbn [app Utf8.decode]. apply N.ltb_lt in H1. now rewrite H1. }
  destruct (N.ltb_spec c 2048) as [H2 | H2].
  { cbn [app Utf8.decode]. unfold Utf8.is_cont.
    assert ((192 + c / 64 <? 128)%N = false) as -> by (apply N.ltb_ge; lia).
    assert ((192 + c / 64 <? 194)%N = false) as -> by (apply N.ltb_ge; lia).
    assert ((192 + c / 64 <? 224)%N = true) as -> by (apply N.ltb_lt; lia).
    assert (((128 <=? 128 + c mod 64) && (128 + c mod 64 <? 192))%N = true) as ->
      by (rewrite andb_true_iff, N.leb_le, N.ltb_lt; lia).
    replace ((192 + c / 64 - 192) * 64 + (128 + c mod 64 - 128))%N with c by lia.
    reflexivity. }
  destruct (N.ltb_spec c 65536) as [H3 | H3].
  { cbn [app Utf8.decode]. unfold Utf8.is_cont, Utf8.is_surrogate.
    assert ((224 + c / 4096 <? 128)%N = false) as -> by (apply N.ltb_ge; lia).
    assert ((224 + c / 4096 <? 194)%N = false) as -> by (apply N.ltb_ge; lia).
    assert ((224 + c / 4096 <? 224)%N = false) as -> by (apply N.ltb_ge; lia).
    assert ((224 + c / 4096 <? 240)%N = true) as -> by (apply N.ltb_lt; lia).
    replace ((224 + c / 4096 - 224) * 4096 + (128 + (c / 64) mod 64 - 128) * 64
             + (128 + c mod 64 - 128))%N with c by lia.
    assert (((128 <=? 128 + (c / 64) mod 64) && (128 + (c / 64) mod 64 <? 192))%N = true) as ->
      by (rewrite andb_true_iff, N.leb_le, N.ltb_lt; lia).
    assert (((128 <=? 128 + c mod 64) && (128 + c mod 64 <? 192))%N = true) as ->
      by (rewrite andb_true_iff, N.leb_le, N.ltb_lt; lia).
    assert ((2048 <=? c)%N = true) as -> by (apply N.leb_le; lia).
    assert (((55296 <=? c) && (c <=? 57343))%N = false) as ->
      by (rewrite andb_false_iff, !N.leb_gt; lia).
    reflexivity. }
  cbn [app Utf8.decode]. unfold Utf8.is_cont.
  assert (Hq : ((c / 262144) mod 8 = c / 262144)%N) by (apply N.mod_small; lia).
  rewrite Hq.
  assert ((240 + c / 262144 <? 128)%N = false) as -> by (apply N.ltb_ge; lia).
  assert ((240 + c / 262144 <? 194)%N = false) as -> by (apply N.ltb_ge; lia).
  assert ((240 + c / 262144 <? 224)%N = false) as -> by (apply N.ltb_ge; lia).
  assert ((240 + c / 262144 <? 240)%N = false) as -> by (apply N.ltb_ge; lia).
  assert ((240 + c / 262144 <? 245)%N = true) as -> by (apply N.ltb_lt; lia).
  replace ((240 + c / 262144 - 240) * 262144 + (128 + (c / 4096) mod 64 - 128) * 4096
           + (128 + (c / 64) mod 64 - 128) * 64 + (128 + c mod 64 - 128))%N with c by lia.
  assert (((128 <=? 128 + (c / 4096) mod 64) && (128 + (c / 4096) mod 64 <? 192))%N = true) as ->
    by (rewrite andb_true_iff, N.leb_le, N.ltb_lt; lia).
  assert (((128 <=? 128 + (c / 64) mod 64) && (128 + (c / 64) mod 64 <? 192))%N = true) as ->
    by (rewrite andb_true_iff, N.leb_le, N.ltb_lt; lia).
  assert (((128 <=? 128 + c mod 64) && (128 + c mod 64 <? 192))%N = true) as ->
    by (rewrite andb_true_iff, N.leb_le, N.ltb_lt; lia).
  assert ((65536 <=? c)%N = true) as -> by (apply N.leb_le; lia).
  assert ((c <? 1114112)%N = true) as -> by (apply N.ltb_lt; lia).
  reflexivity.
Qed.

(** Decoding gives back the string that was encoded. *)
Lemma decode_encode (s : str) : wf_str s -> Utf8.decode (Utf8.encode s) = Some s.
Proof.
  induction 1 as [|c s Hc _ IH]; [reflexivity|]. unfold Utf8.encode in *. cbn [flat_map].
  now rewrite decode_encode_char, IH.
Qed.

Lemma encode_inj (s t : str) : wf_str s -> wf_str t -> Utf8.encode s = Utf8.encode t -> s = t.
Proof.
  intros Hs Ht Heq. apply decode_encode in Hs, Ht. rewrite Heq in Hs. congruence.
Qed.

Lemma encode_ascii (s : str) : Forall (fun c => (c < 128)%N) s -> Utf8.encode s = s.
Proof.
  induction 1 as [|c s Hc _ IH]; [reflexivity|]. unfold Utf8.encode in *. cbn [flat_map].
  rewrite IH. unfold Utf8.encode_char. apply N.ltb_lt in Hc. now rewrite Hc.
Qed.

Lemma decode_ascii (s : str) : Forall (fun c => (c < 128)%N) s -> Utf8.decode s = Some s.
Proof.
  induction 1 as [|c s Hc _ IH]; [reflexivity|]. cbn [Utf8.decode].
  apply N.ltb_lt in Hc. now rewrite Hc, IH.
Qed.

(** ** The cache key *)

Lemma hexdigit_is_hex (d : N) : (d < 16)%N -> is_hex_digit (Sha256.hexdigit d) = true.
Proof.
  intros Hd. unfold is_hex_digit, Sha256.hexdigit.
  destruct (N.ltb_spec d 10); rewrite orb_true_iff, !andb_true_iff, !N.leb_le; lia.
Qed.

Lemma hex2_is_hex (b : N) : (b < 256)%N -> Forall (fun c => is_hex_digit c = true) (Sha256.hex2 b).
Proof.
  intros Hb. unfold Sha256.hex2. repeat constructor; apply hexdigit_is_hex.
  - apply N.Div0.div_lt_upper_bound. lia.
  - apply N.mod_lt. lia.
Qed.

Lemma word_bytes_lt (w : N) : Forall (fun b => (b < 256)%N) (Sha256.word_bytes w).
Proof. unfold Sha256.word_bytes. repeat constructor; apply N.mod_lt; lia. Qed.

Lemma digest_bytes (msg : bytes) :
  length (Sha256.digest msg) = 32 /\ Forall (fun b => (b < 256)%N) (Sha256.digest msg).
Proof.
  unfold Sha256.digest. split.
  - now rewrite !length_app.
  - rewrite !Forall_app. repeat split; apply word_bytes_lt.
Qed.

Lemma length_flat_map_hex2 (l : bytes) : length (flat_map Sha256.hex2 l) = 2 * length l.
Proof. induction l as [|b l IH]; simpl; lia. Qed.

Lemma flat_map_hex2_is_hex (l : bytes) :
  Forall (fun b => (b < 256)%N) l ->
  Forall (fun c => is_hex_digit c = true) (flat_map Sha256.hex2 l).
Proof.
  induction 1 as [|b l Hb _ IH]; cbn [flat_map]; [constructor|].
  apply Forall_app. split; [now apply hex2_is_hex | exact IH].
Qed.

Lemma hexdigest_is_hex (msg : bytes) :
  length (Sha256.hexdigest msg) = 64 /\
  Forall (fun c => is_hex_digit c = true) (Sha256.hexdigest msg).
Proof.
  destruct (digest_bytes msg) as [Hlen Hlt]. unfold Sha256.hexdigest. split.
  - rewrite length_flat_map_hex2. lia.
  - now apply flat_map_hex2_is_hex.
Qed.

Example sha256_constants :
  firstn 2 Sha256.K = [0x428a2f98; 0x71374491]%N
  /\ nth 63 Sha256.K 0%N = 0xc67178f2%N
  /\ Sha256.ra Sha256.H0 = 0x6a09e667%N /\ Sha256.rh Sha256.H0 = 0x5be0cd19%N.
Proof. vm_compute. repeat split. Qed.

(** The digest of the standard test vector ["abc"]. *)
Example sha256_abc :
  Sha256.hexdigest (lit "abc")
  = lit "ba7816bf8f01cfea414140de5dae2223b00361a396177a9cb410ff61f20015ad".
Proof. vm_compute. reflexivity. Qed.

(** A message of more than one block. *)
Example sha256_two_blocks :
  Sha256.hexdigest (lit "abcdbcdecdefdefgefghfghighijhijkijkljklmklmnlmnomnopnopq")
  = lit "248d6a61d20638b8e5c026930c3e6039a33ce45964ff2167f6ecedd419db06c1".
Proof. vm_compute. reflexivity. Qed.

(** ** Text that can be encoded *)

Lemma wf_str_forallb (s : str) : wf_str s <-> forallb Utf8.scalar s = true.
Proof.
  unfold wf_str. induction s as [|c s IH]; simpl.
  - split; [reflexivity | constructor].
  - rewrite andb_true_iff, <- IH. split.
    + intros H. inversion H; subst. now split.
    + intros [Hc Hs]. now constructor.
Qed.

Lemma wf_str_app (a b : str) : wf_str a -> wf_str b -> wf_str (a ++ b).
Proof. intros Ha Hb. apply Forall_app. now split. Qed.

Lemma wf_str_take (n : nat) (s : str) : wf_str s -> wf_str (firstn n s).
Proof. apply Forall_take. Qed.

Lemma py_encode_wf (s : str) : wf_str s -> py_encode s = Ok (Utf8.encode s).
Proof. intros H. apply wf_str_forallb in H. unfold py_encode. now rewrite H. Qed.

Lemma py_encode_not_wf (s : str) : ~ wf_str s -> exists e, py_encode s = Raise e.
Proof.
  intros H. unfold py_encode. destruct (forallb Utf8.scalar s) eqn:Hs.
  - now apply wf_str_forallb in Hs.
  - eexists. reflexivity.
Qed.

Lemma write_text_wf (s : str) : wf_str s -> write_text s = (Ok tt, Utf8.encode s).
Proof. intros H. unfold write_text. now rewrite py_encode_wf. Qed.

Lemma universal_newlines_no_cr (s : str) : no_cr s -> universal_newlines s = s.
Proof.
  induction 1 as [|c s Hc _ IH]; simpl; [reflexivity|].
  destruct (N.eqb_spec c 13); congruence.
Qed.

(** Reading back what [write_text] wrote. *)
Lemma read_text_encode (s : str) :
  wf_str s -> read_text (Utf8.encode s) = Ok (universal_newlines s).
Proof.
  intros H. unfold read_text, decode_utf8. now rewrite decode_encode.
Qed.

Lemma get_cache_key_wf (diff model : str) :
  wf_str model -> wf_str (firstn 500 diff) ->
  ModelCache.get_cache_key diff model = Ok (key_of diff model).
Proof.
  intros Hm Hd. unfold ModelCache.get_cache_key, key_of.
  rewrite py_encode_wf; [reflexivity|].
  apply wf_str_app; [exact Hm|]. apply wf_str_app; [|exact Hd]. repeat constructor.
Qed.

Example cache_key_example :
  ModelCache.get_cache_key (lit "some diff") (lit "gpt2") = Ok (lit "cc94e7af913e40fc").
Proof. vm_compute. reflexivity. Qed.

(** C3.  The cache key depends on the model and on the first 500 characters
    of the diff only: two diffs with the same first 500 characters have, for
    the same model, the same key and the same cached result.  When the
    model and those characters are Unicode text, the key is the first 16
    hexadecimal digits of the SHA-256 digest of [model + ":" + diff[:500]]. *)
Theorem C3_cache_key_deterministic (model diff diff' : str) :
  firstn 500 diff = firstn 500 diff' ->
  ModelCache.get_cache_key diff' model = ModelCache.get_cache_key diff model
  /\ (forall fs now,
        ModelCache.get_cached_message fs now diff' model
        = ModelCache.get_cached_message fs now diff model)
  /\ (wf_str model -> wf_str (firstn 500 diff) ->
      let key := firstn 16 (Sha256.hexdigest
                              (Utf8.encode (model ++ lit ":" ++ firstn 500 diff))) in
      ModelCache.get_cache_key diff model = Ok key
      /\ length key = 16
      /\ Forall (fun c => is_hex_digit c = true) key).
Proof.
  intros Hprefix.
  assert (Hkey : ModelCache.get_cache_key diff' model = ModelCache.get_cache_key diff model).
  { unfold ModelCache.get_cache_key. now rewrite Hprefix. }
  split; [exact Hkey|]. split.
  - intros fs now. unfold ModelCache.get_cached_message. now rewrite Hkey.
  - intros Hm Hd key.
    destruct (hexdigest_is_hex (Utf8.encode (model ++ lit ":" ++ firstn 500 diff)))
      as [Hlen Hhex].
    split; [exact (get_cache_key_wf diff model Hm Hd)|]. split.
    + subst key. rewrite length_take, Hlen. reflexivity.
    + subst key. now apply Forall_take.
Qed.

Lemma C3_cache_key_deterministic_witness :
  let diff := repeat 97%N 500 ++ lit "x" in
  let diff' := repeat 97%N 500 ++ lit "yz" in
  firstn 500 diff = firstn 500 diff'
  /\ ModelCache.get_cache_key diff' (lit "gpt2") = ModelCache.get_cache_key diff (lit "gpt2")
  /\ ModelCache.get_cache_key diff (lit "gpt2") = Ok (lit "5f068a42e3d06613").
Proof.
  pose proof (C3_cache_key_deterministic (lit "gpt2") (repeat 97%N 500 ++ lit "x")
                (repeat 97%N 500 ++ lit "yz")) as H.
  destruct H as (Hsame & _ & Hkey).
  - vm_compute. reflexivity.
  - split; [vm_compute; reflexivity|]. split; [exact Hsame|].
    destruct Hkey as (Hk & _).
    + apply wf_str_forallb. vm_compute. reflexivity.
    + apply wf_str_forallb. vm_compute. reflexivity.
    + rewrite Hk. vm_compute. reflexivity.
Defined.

(** ** Lookup after store *)

(** The blob [put] leaves, whatever becomes of the metadata. *)
Lemma save_message_blob (self : ModelCache.t) (fs : cache_fs) (t_fs now : Z)
    (diff model text : str) :
  wf_str model -> wf_str (firstn 500 diff) -> wf_str text ->
  outputs (snd (ModelCache.save_message self fs t_fs now diff model text))
    !! ModelCache.cache_file (key_of diff model)
  = Some (File (Utf8.encode text) t_fs).
Proof.
  intros Hm Hd Ht. unfold ModelCache.save_message.
  rewrite get_cache_key_wf, write_text_wf by assumption.
  destruct (py_setitem _ _ _); simpl; apply lookup_insert_eq.
Qed.

Lemma save_message_ok (self : ModelCache.t) (fs : cache_fs) (t_fs now : Z)
    (diff model text : str) (d : list (str * json)) :
  wf_str model -> wf_str (firstn 500 diff) -> wf_str text ->
  ModelCache.metadata self = JObj d ->
  exists self', fst (ModelCache.save_message self fs t_fs now diff model text) = Ok self'.
Proof.
  intros Hm Hd Ht Hmeta. unfold ModelCache.save_message.
  rewrite get_cache_key_wf, write_text_wf, Hmeta by assumption. simpl. eauto.
Qed.

(** C1, counterexample.  A text with a carriage return is stored as it is
    and read back in text mode, where the carriage return becomes a line
    feed: within the 24 hours [get] returns a text, but not the one [put]
    was given. *)
Lemma C1_carriage_return_counterexample :
  let fs0 := CacheFs ∅ ∅ None in
  let text := lit "fix: typo" ++ [13%N] ++ lit "more" in
  let r := ModelCache.save_message (ModelCache.__init__ fs0) fs0 1000 1000
             (lit "some diff") (lit "gpt2") text in
  (exists self', fst r = Ok self')
  /\ ModelCache.get_cached_message (snd r) 1060 (lit "some diff") (lit "gpt2")
     = Ok (Some (lit "fix: typo" ++ [10%N] ++ lit "more"))
  /\ ModelCache.get_cached_message (snd r) 1060 (lit "some diff") (lit "gpt2")
     <> Ok (Some text).
Proof.
  split; [|split].
  - eexists. vm_compute. reflexivity.
  - vm_compute. reflexivity.
  - vm_compute. discriminate.
Qed.

(** C1, as the code has it.  For a model, a diff and a text that are Unicode
    text, [put] writes the blob (and succeeds when the metadata is a
    mapping); [get] with the same (model, diff) then returns the text as
    text mode reads it back, which is the text itself when it has no
    carriage return, while the time elapsed since the blob was written is
    under 24 hours, and nothing from 24 hours on. *)
Theorem C1_get_after_put (self : ModelCache.t) (fs : cache_fs) (t_fs now now' : Z)
    (diff model text : str) :
  wf_str model -> wf_str diff -> wf_str text ->
  let r := ModelCache.save_message self fs t_fs now diff model text in
  (forall d, ModelCache.metadata self = JObj d -> exists self', fst r = Ok self')
  /\ ((now' - t_fs < 86400)%Z ->
      ModelCache.get_cached_message (snd r) now' diff model
      = Ok (Some (universal_newlines text)))
  /\ ((now' - t_fs < 86400)%Z -> no_cr text ->
      ModelCache.get_cached_message (snd r) now' diff model = Ok (Some text))
  /\ ((86400 <= now' - t_fs)%Z ->
      ModelCache.get_cached_message (snd r) now' diff model = Ok None).
Proof.
  intros Hm Hd Ht r.
  pose proof (wf_str_take 500 diff Hd) as Hd'.
  assert (Hfresh : (now' - t_fs < 86400)%Z ->
                   ModelCache.get_cached_message (snd r) now' diff model
                   = Ok (Some (universal_newlines text))).
  { intros H. unfold ModelCache.get_cached_message.
    rewrite get_cache_key_wf by assumption. cbn [rbind]. subst r.
    rewrite save_message_blob by assumption. cbn [mtime content].
    apply Z.ltb_lt in H. rewrite H, read_text_encode by assumption. reflexivity. }
  split; [|split; [exact Hfresh | split]].
  - intros d Hmeta. now apply (save_message_ok self fs t_fs now diff model text d).
  - intros H Hcr. rewrite Hfresh by exact H. now rewrite universal_newlines_no_cr.
  - intros H. unfold ModelCache.get_cached_message.
    rewrite get_cache_key_wf by assumption. cbn [rbind]. subst r.
    rewrite save_message_blob by assumption. cbn [mtime content].
    apply Z.ltb_ge in H. now rewrite H.
Qed.

Lemma C1_get_after_put_witness :
  let fs0 := CacheFs ∅ ∅ None in
  let r := ModelCache.save_message (ModelCache.__init__ fs0) fs0 1000 1000
             (lit "some diff") (lit "gpt2") (lit "fix: typo") in
  (exists self', fst r = Ok self')
  /\ ModelCache.get_cached_message (snd r) (1000 + 86399) (lit "some diff") (lit "gpt2")
     = Ok (Some (lit "fix: typo"))
  /\ ModelCache.get_cached_message (snd r) (1000 + 86400) (lit "some diff") (lit "gpt2")
     = Ok None.
Proof.
  assert (Hd : wf_str (lit "some diff")) by (apply wf_str_forallb; reflexivity).
  assert (Hm : wf_str (lit "gpt2")) by (apply wf_str_forallb; reflexivity).
  assert (Ht : wf_str (lit "fix: typo")) by (apply wf_str_forallb; reflexivity).
  pose proof (C1_get_after_put (ModelCache.__init__ (CacheFs ∅ ∅ None)) (CacheFs ∅ ∅ None)
                1000 1000 (1000 + 86399) (lit "some diff") (lit "gpt2") (lit "fix: typo")
                Hm Hd Ht) as (Hput & _ & H1 & _).
  pose proof (C1_get_after_put (ModelCache.__init__ (CacheFs ∅ ∅ None)) (CacheFs ∅ ∅ None)
                1000 1000 (1000 + 86400) (lit "some diff") (lit "gpt2") (lit "fix: typo")
                Hm Hd Ht) as (_ & _ & _ & H2).
  split; [|split].
  - apply (Hput []). reflexivity.
  - apply H1; [lia|]. unfold no_cr. repeat constructor; discriminate.
  - apply H2. lia.
Defined.

(** ** Corrupt or missing files *)

(** What "does not parse" means for a file holding [b]: reading it as text
    or parsing that text as JSON raises. *)
Lemma unparsable_examples :
  (exists e, (text <- read_text (lit "{ torn write");; Json.loads text)%result = Raise e)
  /\ (exists e, (text <- read_text [0xFF%N];; Json.loads text)%result = Raise e)
  /\ (exists e, (text <- read_text [];; Json.loads text)%result = Raise e).
Proof. repeat split; eexists; vm_compute; reflexivity. Qed.

(** C8.  A metadata file or model info file that is missing or does not
    parse never raises: the metadata is the empty mapping, with which [put]
    goes through, and [clear_old_cache] too for a number of days that the
    clock arithmetic can take (its seconds fit a double exactly), and
    [get_model_info] returns [None]. *)
Theorem C8_corruption_is_absorbed (fs : cache_fs) (model_name : str) :
  ((metadata_file fs = None
    \/ exists b e, metadata_file fs = Some b
                   /\ (text <- read_text b;; Json.loads text)%result = Raise e) ->
   ModelCache._load_metadata fs = JObj []
   /\ ModelCache.metadata (ModelCache.__init__ fs) = JObj []
   /\ (forall t_fs now diff model text,
         wf_str model -> wf_str diff -> wf_str text ->
         exists self', fst (ModelCache.save_message (ModelCache.__init__ fs) fs t_fs now
                              diff model text) = Ok self')
   /\ (forall now days,
         (Z.abs (days * 86400) < 2 ^ 53)%Z ->
         fst (ModelCache.clear_old_cache (ModelCache.__init__ fs) fs now days)
         = Ok (ModelCache.Make (JObj []))))
  /\ ((models fs !! ModelCache.info_file model_name = None
       \/ exists b e, models fs !! ModelCache.info_file model_name = Some b
                      /\ (text <- read_text b;; Json.loads text)%result = Raise e) ->
      ModelCache.get_model_info fs model_name = None).
Proof.
  split.
  - intros Hbroken.
    assert (Hload : ModelCache._load_metadata fs = JObj []).
    { unfold ModelCache._load_metadata.
      destruct Hbroken as [Hnone | (b & e & Hfile & Hbad)].
      - now rewrite Hnone.
      - now rewrite Hfile, Hbad. }
    split; [exact Hload|]. split; [exact Hload|]. split.
    + intros t_fs now diff model text Hm Hd Ht.
      apply (save_message_ok _ fs t_fs now diff model text []); auto using wf_str_take.
    + intros now days Hdays. destruct (cutoff_time_defined now days Hdays) as [c Hc].
      unfold ModelCache.clear_old_cache, ModelCache.__init__. rewrite Hload, Hc. reflexivity.
  - intros [Hnone | (b & e & Hfile & Hbad)]; unfold ModelCache.get_model_info.
    + now rewrite Hnone.
    + now rewrite Hfile, Hbad.
Qed.

Lemma C8_corruption_is_absorbed_witness :
  let fs := CacheFs ∅ {[ ModelCache.info_file (lit "org/model") := [0xFF%N] ]}
                    (Some (lit "{ torn write")) in
  ModelCache._load_metadata fs = JObj []
  /\ (exists self', fst (ModelCache.save_message (ModelCache.__init__ fs) fs 100 100
                           (lit "some diff") (lit "gpt2") (lit "fix: typo")) = Ok self')
  /\ fst (ModelCache.clear_old_cache (ModelCache.__init__ fs) fs 1000000 7)
     = Ok (ModelCache.Make (JObj []))
  /\ ModelCache.get_model_info fs (lit "org/model") = None
  /\ ModelCache.get_model_info fs (lit "other") = None.
Proof.
  pose proof (C8_corruption_is_absorbed
                (CacheFs ∅ {[ ModelCache.info_file (lit "org/model") := [0xFF%N] ]}
                         (Some (lit "{ torn write")))) as H.
  assert (Hbroken : exists b e,
             Some (lit "{ torn write") = Some b
             /\ (text <- read_text b;; Json.loads text)%result = Raise e).
  { eexists _, _. split; [reflexivity | vm_compute; reflexivity]. }
  split; [| split; [| split; [| split]]].
  - apply (H []). right. exact Hbroken.
  - destruct (H []) as [Hmeta _]. destruct Hmeta as (_ & _ & Hput & _).
    + right. exact Hbroken.
    + apply Hput; apply wf_str_forallb; reflexivity.
  - destruct (H []) as [Hmeta _]. destruct Hmeta as (_ & _ & _ & Hclear).
    + right. exact Hbroken.
    + apply Hclear. reflexivity.
  - apply (H (lit "org/model")). right. eexists _, _.
    split; [vm_compute; reflexivity | vm_compute; reflexivity].
  - apply (H (lit "other")). left. vm_compute. reflexivity.
Defined.

(** ** The caching client *)

(** What [_get_llm_client] leaves unchanged when it returns an engine. *)
Lemma get_llm_client_ok (lib : engine_classes) (now : Z) (st st1 : CachedLLMClient.state)
    (client : engine) :
  CachedLLMClient._get_llm_client lib now st = (Ok client, st1) ->
  CachedLLMClient._llm_client (CachedLLMClient.self_ st1) = Some client
  /\ CachedLLMClient.cache (CachedLLMClient.self_ st1)
     = CachedLLMClient.cache (CachedLLMClient.self_ st)
  /\ CachedLLMClient.model_name (CachedLLMClient.self_ st1)
     = CachedLLMClient.model_name (CachedLLMClient.self_ st)
  /\ CachedLLMClient.config (CachedLLMClient.self_ st1)
     = CachedLLMClient.config (CachedLLMClient.self_ st)
  /\ outputs (CachedLLMClient.fs_ st1) = outputs (CachedLLMClient.fs_ st).
Proof.
  unfold CachedLLMClient._get_llm_client.
  destruct (CachedLLMClient._llm_client (CachedLLMClient.self_ st)) as [c|] eqn:Hc.
  - intros [= <- <-]. auto.
  - destruct (CachedLLMClient.select_engine lib _) as [[c|e] printed]; try discriminate.
    intros [= <- <-]. simpl. auto.
Qed.

(** The engine is built at most once: a second call returns the same one. *)
Lemma get_llm_client_once (lib : engine_classes) (now now' : Z)
    (st st1 : CachedLLMClient.state) (client : engine) :
  CachedLLMClient._get_llm_client lib now st = (Ok client, st1) ->
  CachedLLMClient._get_llm_client lib now' st1 = (Ok client, st1).
Proof.
  intros H. apply get_llm_client_ok in H as (Hc & _).
  unfold CachedLLMClient._get_llm_client. now rewrite Hc.
Qed.

(** A hit on a non-empty text returns it and leaves engine and cache alone. *)
Lemma generate_hit (lib : engine_classes) (t_fs now : Z) (diff : str)
    (st : CachedLLMClient.state) (c : N) (text : str) :
  ModelCache.get_cached_message (CachedLLMClient.fs_ st) now diff
    (CachedLLMClient.model_name (CachedLLMClient.self_ st)) = Ok (Some (c :: text)) ->
  exists st',
    CachedLLMClient.generate_commit_message lib t_fs now diff st = (Ok (c :: text), st')
    /\ CachedLLMClient.self_ st' = CachedLLMClient.self_ st
    /\ CachedLLMClient.fs_ st' = CachedLLMClient.fs_ st.
Proof.
  intros H. unfold CachedLLMClient.generate_commit_message. rewrite H.
  eexists. repeat split.
Qed.

(** C10.  When the blob stored for (model, diff) is fresh and holds the empty
    string, [get] returns that empty text, and [generate] nevertheless takes
    the miss path: it obtains the engine, generates, overwrites the blob with
    the new message and returns the new message. *)
Theorem C10_empty_cached_text_regenerates (lib : engine_classes) (t_fs now : Z) (diff : str)
    (st st1 : CachedLLMClient.state) (f : file) (client : engine) (message : str)
    (d : list (str * json)) :
  let model := CachedLLMClient.model_name (CachedLLMClient.self_ st) in
  let blob := ModelCache.cache_file (key_of diff model) in
  wf_str model -> wf_str diff -> wf_str message ->
  outputs (CachedLLMClient.fs_ st) !! blob = Some f ->
  content f = [] ->
  (now - mtime f < 86400)%Z ->
  CachedLLMClient._get_llm_client lib now st = (Ok client, st1) ->
  client (JStr diff) = Ok message ->
  ModelCache.metadata (CachedLLMClient.cache (CachedLLMClient.self_ st)) = JObj d ->
  ModelCache.get_cached_message (CachedLLMClient.fs_ st) now diff model = Ok (Some [])
  /\ exists st',
       CachedLLMClient.generate_commit_message lib t_fs now diff st = (Ok message, st')
       /\ outputs (CachedLLMClient.fs_ st') !! blob = Some (File (Utf8.encode message) t_fs)
       /\ CachedLLMClient._llm_client (CachedLLMClient.self_ st') = Some client
       /\ CachedLLMClient.stdout_ st' = CachedLLMClient.stdout_ st1.
Proof.
  intros model blob Hm Hd Hmsg Hblob Hempty Hfresh Hclient Hgen Hmeta.
  pose proof (wf_str_take 500 diff Hd) as Hd'.
  assert (Hget : ModelCache.get_cached_message (CachedLLMClient.fs_ st) now diff model
                 = Ok (Some [])).
  { unfold ModelCache.get_cached_message. rewrite get_cache_key_wf by assumption.
    cbn [rbind]. fold blob. rewrite Hblob.
    apply Z.ltb_lt in Hfresh. cbn zeta. rewrite Hfresh, Hempty. reflexivity. }
  split; [exact Hget|].
  pose proof (get_llm_client_ok _ _ _ _ _ Hclient) as (Hc & Hcache & Hname & Hconfig & Hout).
  unfold CachedLLMClient.generate_commit_message. fold model. rewrite Hget, Hclient, Hgen.
  unfold ModelCache.save_message. rewrite Hcache, Hmeta, Hname. fold model.
  rewrite get_cache_key_wf, write_text_wf by assumption. simpl.
  eexists. split; [reflexivity|]. simpl. split; [|split; [exact Hc | reflexivity]].
  fold model. fold blob. apply lookup_insert_eq.
Qed.

Lemma C10_empty_cached_text_regenerates_witness :
  let lib := EngineClasses (fun _ => raise "RuntimeError" "unused")
                           (fun _ => raise "RuntimeError" "unused")
                           (fun _ => Ok (fun _ => Ok (lit "feat: add parser"))) in
  let config := JObj [(lit "model", JStr (lit "gpt2"))] in
  let blob := ModelCache.cache_file (key_of (lit "some diff") (lit "gpt2")) in
  let fs := CacheFs {[ blob := File [] 100 ]} ∅ None in
  let st := CachedLLMClient.State
              (CachedLLMClient.Make config (ModelCache.__init__ fs) (lit "gpt2") None) fs [] in
  ModelCache.get_cached_message fs 200 (lit "some diff") (lit "gpt2") = Ok (Some [])
  /\ exists st',
       CachedLLMClient.generate_commit_message lib 200 200 (lit "some diff") st
       = (Ok (lit "feat: add parser"), st')
       /\ outputs (CachedLLMClient.fs_ st') !! blob = Some (File (lit "feat: add parser") 200).
Proof.
  intros lib config blob fs st.
  destruct (C10_empty_cached_text_regenerates lib 200 200 (lit "some diff") st
              (snd (CachedLLMClient._get_llm_client lib 200 st)) (File [] 100)
              (fun _ => Ok (lit "feat: add parser")) (lit "feat: add parser") [])
    as (Hget & st' & Hgen & Hblob & _).
  - apply wf_str_forallb. reflexivity.
  - apply wf_str_forallb. reflexivity.
  - apply wf_str_forallb. reflexivity.
  - vm_compute. reflexivity.
  - reflexivity.
  - simpl. lia.
  - reflexivity.
  - reflexivity.
  - reflexivity.
  - split; [exact Hget|]. exists st'. split; [exact Hgen | exact Hblob].
Defined.

(** ** Decimal numerals *)

Lemma chars_uint_uint_chars (d : Decimal.uint) : chars_uint (uint_chars d) = Some d.
Proof. induction d; simpl; rewrite ?IHd; reflexivity. Qed.

Lemma uint_chars_digits (d : Decimal.uint) : Forall (fun c => is_digit c = true) (uint_chars d).
Proof. induction d; simpl; constructor; auto. Qed.

Lemma nzhead_no_zero (d : Decimal.uint) :
  match Decimal.nzhead d with Decimal.D0 _ => False | _ => True end.
Proof. induction d; simpl; auto. Qed.

Lemma unorm_canonical (d : Decimal.uint) : canonical (Decimal.unorm d).
Proof.
  unfold Decimal.unorm. pose proof (nzhead_no_zero d) as H.
  destruct (Decimal.nzhead d); simpl; easy.
Qed.

Lemma to_uint_canonical (n : N) : canonical (N.to_uint n).
Proof.
  replace (N.to_uint n) with (Decimal.unorm (N.to_uint n)); [apply unorm_canonical|].
  rewrite <- DecimalN.Unsigned.to_of. now rewrite DecimalN.Unsigned.of_to.
Qed.

Lemma digit_not_space (c : N) : is_digit c = true -> py_isspace c = false.
Proof.
  unfold is_digit, py_isspace. intros [H1 H2]%andb_true_iff.
  apply N.leb_le in H1. apply N.leb_le in H2.
  repeat match goal with
         | |- context [(?a <=? ?b)%N] => destruct (N.leb_spec a b); try lia
         | |- context [(?a =? ?b)%N] => destruct (N.eqb_spec a b); try lia
         end; reflexivity.
Qed.

Lemma drop_while_head (p : N -> bool) (c : N) (s : list N) :
  p c = false -> drop_while p (c :: s) = c :: s.
Proof. intros H. simpl. now rewrite H. Qed.

(** [strip] leaves alone a text that neither starts nor ends with white
    space. *)
Lemma strip_id (s : str) :
  (forall c r, s = c :: r -> py_isspace c = false) ->
  (forall c r, rev s = c :: r -> py_isspace c = false) ->
  strip s = s.
Proof.
  intros Hfirst Hlast. unfold strip.
  assert (H1 : drop_while py_isspace s = s).
  { destruct s as [|c r]; [reflexivity|]. apply drop_while_head. eapply Hfirst. reflexivity. }
  rewrite H1.
  assert (H2 : drop_while py_isspace (rev s) = rev s).
  { destruct (rev s) as [|c r] eqn:E; [reflexivity|]. apply drop_while_head.
    eapply Hlast. reflexivity. }
  rewrite H2. apply rev_involutive.
Qed.

Lemma strip_no_space (s : str) : Forall (fun c => py_isspace c = false) s -> strip s = s.
Proof.
  intros H. apply strip_id.
  - intros c r ->. now inversion H.
  - intros c r E. apply Forall_rev in H. rewrite E in H. now inversion H.
Qed.

Lemma digit_not_int_space (c : N) : is_digit c = true -> int_space c = false.
Proof.
  unfold is_digit, int_space. intros [H1 H2]%andb_true_iff.
  apply N.leb_le in H1. apply N.leb_le in H2.
  assert ((c <=? 13)%N = false) as -> by (apply N.leb_gt; lia).
  assert ((c =? 32)%N = false) as -> by (apply N.eqb_neq; lia).
  assert ((127 <=? c)%N = false) as -> by (apply N.leb_gt; lia).
  now rewrite andb_false_r.
Qed.

(** Trimming leaves alone a text without the characters trimmed. *)
Lemma trim_id (p : N -> bool) (s : str) :
  Forall (fun c => p c = false) s -> rev (drop_while p (rev (drop_while p s))) = s.
Proof.
  intros H.
  assert (Hhead : forall t, Forall (fun c => p c = false) t -> drop_while p t = t).
  { intros t Ht. destruct Ht as [|c r Hc _]; [reflexivity | now apply drop_while_head]. }
  rewrite (Hhead s H), (Hhead (rev s)) by now apply Forall_rev.
  apply rev_involutive.
Qed.

Lemma to_decimal_digit (c : N) : is_digit c = true -> to_decimal c = Some (c - 48)%N.
Proof.
  unfold is_digit, to_decimal, decimal_zeros. intros H.
  cbn [List.find]. change (48 + 9)%N with 57%N. now rewrite H.
Qed.

Lemma ascii_digits_digits (s : str) :
  Forall (fun c => is_digit c = true) s -> ascii_digits s = Some s.
Proof.
  induction 1 as [|c s Hc _ IH]; [reflexivity|]. cbn [ascii_digits].
  rewrite to_decimal_digit, IH by exact Hc. do 2 f_equal.
  unfold is_digit in Hc. apply andb_true_iff in Hc as [Hc _]. apply N.leb_le in Hc. lia.
Qed.

Lemma drop_underscores_digits (s : str) (prev : bool) :
  Forall (fun c => is_digit c = true) s ->
  (prev = true \/ s <> []) ->
  drop_underscores prev s = Some s.
Proof.
  intros H. revert prev. induction H as [|c s Hc Hs IH]; intros prev Hne.
  - destruct Hne as [-> | Hne]; [reflexivity | congruence].
  - simpl. assert ((c =? 95)%N = false) as ->.
    { apply N.eqb_neq. unfold is_digit in Hc. apply andb_true_iff in Hc as [_ Hc].
      apply N.leb_le in Hc. lia. }
    rewrite IH; auto.
Qed.

Lemma uint_chars_nonempty (d : Decimal.uint) : canonical d -> uint_chars d <> [].
Proof. destruct d; simpl; easy. Qed.

Lemma nat_repr_digits (n : N) :
  Forall (fun c => is_digit c = true) (nat_repr n) /\ nat_repr n <> [].
Proof.
  split; [apply uint_chars_digits|]. apply uint_chars_nonempty, to_uint_canonical.
Qed.

(** A numeral of [k] digits that does not start with a zero denotes a
    number from [10^(k-1)] on. *)
Lemma of_uint_acc_lower (d : Decimal.uint) (acc : positive) :
  (N.pos acc * 10 ^ N.of_nat (length (uint_chars d)) <= N.pos (Pos.of_uint_acc d acc))%N.
Proof.
  revert acc. induction d as [|d IH|d IH|d IH|d IH|d IH|d IH|d IH|d IH|d IH|d IH]; intros acc;
    cbn [uint_chars length Pos.of_uint_acc];
    [change (10 ^ N.of_nat 0)%N with 1%N; lia|..];
    rewrite Nat2N.inj_succ, N.pow_succ_r';
    (eapply N.le_trans; [|apply IH]);
    set (P := (10 ^ N.of_nat (length (uint_chars d)))%N); nia.
Qed.

Lemma uint_chars_length (d : Decimal.uint) :
  canonical d ->
  (10 ^ N.of_nat (pred (length (uint_chars d))) <= N.of_uint d)%N \/ d = Decimal.D0 Decimal.Nil.
Proof.
  destruct d as [|d|d|d|d|d|d|d|d|d|d]; cbn [canonical]; intros Hc;
    try (left; cbn [uint_chars length pred]; unfold N.of_uint, Pos.of_uint;
         eapply N.le_trans; [|apply of_uint_acc_lower]; lia).
  - contradiction.
  - destruct d; try contradiction. now right.
Qed.

(** [str(n)] has no more than 4300 digits for [n] below [10^4300]. *)
Lemma nat_repr_length (n : N) :
  (n < 10 ^ 4300)%N -> (4300 <? N.of_nat (length (nat_repr n)))%N = false.
Proof.
  intros Hn. apply N.ltb_ge. unfold nat_repr.
  destruct (uint_chars_length (N.to_uint n) (to_uint_canonical n)) as [Hle | ->].
  - rewrite DecimalN.Unsigned.of_to in Hle.
    assert (Hlt : (10 ^ N.of_nat (pred (length (uint_chars (N.to_uint n)))) < 10 ^ 4300)%N)
      by (eapply N.le_lt_trans; eassumption).
    apply N.pow_lt_mono_r_iff in Hlt; [|reflexivity].
    revert Hlt. generalize (length (uint_chars (N.to_uint n))). intros k Hk.
    rewrite Nat2N.inj_pred in Hk. lia.
  - cbn. lia.
Qed.

(** [int(str(n)) == n]. *)
Lemma py_int_nat_repr (n : N) : (n < 10 ^ 4300)%N -> py_int (nat_repr n) = Some (Z.of_N n).
Proof.
  intros Hn. destruct (nat_repr_digits n) as [Hd Hne]. unfold py_int.
  rewrite trim_id by (eapply Forall_impl; [exact Hd | apply digit_not_int_space]).
  assert (Hsign : (match nat_repr n with
                   | 45%N :: r => (true, r)
                   | 43%N :: r => (false, r)
                   | _ => (false, nat_repr n)
                   end) = (false, nat_repr n)).
  { destruct (nat_repr n) as [|c r]; [reflexivity|].
    inversion Hd as [|? ? Hc _]; subst. unfold is_digit in Hc.
    apply andb_true_iff in Hc as [Hc _]. apply N.leb_le in Hc.
    destruct c as [|p]; [reflexivity|].
    do 6 (destruct p as [p|p|]; try reflexivity); lia. }
  rewrite Hsign. pose proof (nat_repr_length n Hn) as Hlen.
  destruct (nat_repr n) as [|c r] eqn:E; [congruence|].
  rewrite drop_underscores_digits by auto. rewrite ascii_digits_digits by exact Hd.
  rewrite Hlen, <- E.
  unfold nat_repr. rewrite chars_uint_uint_chars. now rewrite DecimalN.Unsigned.of_to.
Qed.

Lemma py_int_int_repr (z : Z) : (Z.abs z < 10 ^ 4300)%Z -> py_int (int_repr z) = Some z.
Proof.
  intros Hz. assert (Hn : (Z.abs_N z < 10 ^ 4300)%N).
  { apply N2Z.inj_lt. rewrite N2Z.inj_abs_N, N2Z.inj_pow. exact Hz. }
  unfold int_repr. destruct (Z.ltb_spec z 0) as [Hneg | Hpos].
  - destruct (nat_repr_digits (Z.abs_N z)) as [Hd Hne]. unfold py_int.
    rewrite trim_id.
    2:{ constructor; [reflexivity|]. eapply Forall_impl; [exact Hd | apply digit_not_int_space]. }
    pose proof (nat_repr_length _ Hn) as Hlen.
    destruct (nat_repr (Z.abs_N z)) as [|c r] eqn:E; [congruence|].
    rewrite drop_underscores_digits by auto. rewrite ascii_digits_digits by exact Hd.
    rewrite Hlen, <- E.
    unfold nat_repr.
    rewrite chars_uint_uint_chars, DecimalN.Unsigned.of_to. f_equal. lia.
  - rewrite py_int_nat_repr by exact Hn. f_equal. lia.
Qed.

(** ** The supervisor *)

(** [os.kill] on a pid that fits a C [int]. *)
Lemma os_kill_in_range (h : host) (pid : Z) :
  (-2147483648 <= pid <= 2147483647)%Z ->
  os_kill h pid
  = if (pid =? 0)%Z then Ok tt
    else if process_exists h pid then Ok tt
    else raise "ProcessLookupError" "[Errno 3] No such process".
Proof.
  intros [Hlo Hhi]. unfold os_kill.
  assert ((9223372036854775807 <? pid)%Z = false) as -> by (apply Z.ltb_ge; lia).
  assert ((pid <? -9223372036854775808)%Z = false) as -> by (apply Z.ltb_ge; lia).
  assert ((2147483647 <? pid)%Z = false) as -> by (apply Z.ltb_ge; lia).
  assert ((pid <? -2147483648)%Z = false) as -> by (apply Z.ltb_ge; lia).
  reflexivity.
Qed.

(** [os.kill] raises for every pid that does not fit a C [int], and only
    then an [OverflowError]. *)
Lemma os_kill_out_of_range (h : host) (pid : Z) :
  (pid < -2147483648 \/ 2147483647 < pid)%Z ->
  exists text, os_kill h pid = Raise (Exn "OverflowError" (JStr text)).
Proof.
  intros Hout. unfold os_kill.
  destruct ((9223372036854775807 <? pid) || (pid <? -9223372036854775808))%Z;
    [eexists; reflexivity|].
  destruct (Z.ltb_spec 2147483647 pid); [eexists; reflexivity|].
  assert ((pid <? -2147483648)%Z = true) as -> by (apply Z.ltb_lt; lia).
  eexists; reflexivity.
Qed.

Lemma probe_ok (h : host) (b : bytes) (text : str) (pid : Z) :
  read_text b = Ok text -> py_int text = Some pid -> pid ∈ processes h ->
  (-2147483648 <= pid <= 2147483647)%Z ->
  probe h b = Ok tt.
Proof.
  intros Hread Hint Halive Hrange. unfold probe, int_of.
  rewrite Hread. cbn [rbind]. rewrite Hint. cbn [rbind].
  rewrite os_kill_in_range by exact Hrange. unfold process_exists.
  destruct (pid =? 0)%Z; [reflexivity|]. now rewrite bool_decide_eq_true_2.
Qed.

(** The probe succeeds only on a number that fits a C [int] and is 0 or a
    process that exists. *)
Lemma probe_ok_inv (h : host) (b : bytes) :
  probe h b = Ok tt ->
  exists text pid,
    read_text b = Ok text /\ py_int text = Some pid
    /\ (-2147483648 <= pid <= 2147483647)%Z
    /\ (pid = 0%Z \/ pid ∈ processes h).
Proof.
  unfold probe, int_of. destruct (read_text b) as [text|]; [|discriminate]. cbn [rbind].
  destruct (py_int text) as [pid|] eqn:Hint; [|discriminate]. cbn [rbind]. intros Hkill.
  exists text, pid. split; [reflexivity|]. split; [exact Hint|].
  assert (Hrange : (-2147483648 <= pid <= 2147483647)%Z).
  { destruct (Z.lt_ge_cases pid (-2147483648)) as [Hlo|Hlo];
      [destruct (os_kill_out_of_range h pid (or_introl Hlo)) as (t & Ht); congruence|].
    destruct (Z.lt_ge_cases 2147483647 pid) as [Hhi|Hhi];
      [destruct (os_kill_out_of_range h pid (or_intror Hhi)) as (t & Ht); congruence|].
    lia. }
  split; [exact Hrange|]. rewrite os_kill_in_range in Hkill by exact Hrange.
  destruct (Z.eqb_spec pid 0) as [E|_]; [now left|]. right.
  unfold process_exists in Hkill.
  destruct (decide (pid ∈ processes h)) as [Hin|Hout]; [exact Hin|].
  rewrite bool_decide_eq_false_2 in Hkill by exact Hout. discriminate.
Qed.

Lemma start_already_running (new_pid : positive) (h : host) (b : bytes) (text : str)
    (pid : Z) :
  pid_file h = Some b -> read_text b = Ok text -> py_int text = Some pid ->
  pid ∈ processes h -> (-2147483648 <= pid <= 2147483647)%Z ->
  start_server_daemon new_pid h = (Ok tt, print (lit "Server already running") h).
Proof.
  intros Hfile Hread Hint Halive Hrange. unfold start_server_daemon.
  now rewrite Hfile, (probe_ok h b text pid).
Qed.

(** The text [write_text(str(pid))] leaves is read back as [pid]. *)
Lemma pid_file_round_trip (pid : Z) :
  (Z.abs pid <= 2147483647)%Z ->
  exists text, read_text (Utf8.encode (int_repr pid)) = Ok text /\ py_int text = Some pid.
Proof.
  intros Hpid.
  assert (Hsmall : (Z.abs pid < 10 ^ 4300)%Z)
    by (eapply Z.le_lt_trans; [exact Hpid | reflexivity]).
  assert (Hd : forall n, Forall (fun c => is_digit c = true) (nat_repr n))
    by (intros n; apply uint_chars_digits).
  assert (Hchars : Forall (fun c => (c < 128)%N /\ c <> 13%N) (int_repr pid)).
  { assert (Hn : forall n, Forall (fun c => (c < 128)%N /\ c <> 13%N) (nat_repr n)).
    { intros n. eapply Forall_impl; [apply Hd|]. intros c Hc. unfold is_digit in Hc.
      apply andb_true_iff in Hc as [H1 H2]. apply N.leb_le in H1, H2. lia. }
    unfold int_repr. destruct (pid <? 0)%Z; [constructor; [lia|]|]; apply Hn. }
  exists (int_repr pid). split; [|now apply py_int_int_repr].
  unfold read_text, decode_utf8.
  rewrite encode_ascii, decode_ascii
    by (eapply Forall_impl; [exact Hchars | intros c [Hc _]; exact Hc]).
  cbn [rbind]. f_equal. apply universal_newlines_no_cr.
  eapply Forall_impl; [exact Hchars | intros c [_ Hc]; exact Hc].
Qed.

(** What a call of [start] that forks leaves behind. *)
Lemma start_spawns (new_pid : positive) (h : host) :
  (forall b, pid_file h = Some b -> exists e, probe h b = Raise e /\ is_os_or_value_error e = true) ->
  start_server_daemon new_pid h
  = (Ok tt,
     Host (Some (Utf8.encode (int_repr (Z.pos new_pid)))) ({[Z.pos new_pid]} ∪ processes h)
          (terminated h) (socket_file h)
          (console h ++ [lit "Server started (PID: " ++ int_repr (Z.pos new_pid) ++ lit ")"])).
Proof.
  intros Hstale. unfold start_server_daemon.
  destruct (pid_file h) as [b|] eqn:Hf.
  - destruct (Hstale b eq_refl) as (e & -> & ->). reflexivity.
  - reflexivity.
Qed.

(** C9.  With a PID file whose process is alive, [start] reports "already
    running" and spawns nothing; so when a call of [start] has returned, a
    second call reports "already running" and leaves the processes as they
    are: exactly the process forked by the first when there was none before
    and the PID file did not hold the number 0, which [os.kill] takes for the
    group of the caller, so that [start] finds a server running.  Without a
    PID file, [stop] reports "not running" and changes nothing else. *)
Theorem C9_supervisor_idempotent (h : host) (p1 p2 : positive) :
  (forall b text pid,
      pid_file h = Some b -> read_text b = Ok text -> py_int text = Some pid ->
      pid ∈ processes h -> (-2147483648 <= pid <= 2147483647)%Z ->
      start_server_daemon p2 h = (Ok tt, print (lit "Server already running") h)
      /\ processes (snd (start_server_daemon p2 h)) = processes h)
  /\ (fst (start_server_daemon p1 h) = Ok tt -> (Z.pos p1 <= 2147483647)%Z ->
      let h1 := snd (start_server_daemon p1 h) in
      start_server_daemon p2 h1 = (Ok tt, print (lit "Server already running") h1)
      /\ processes (snd (start_server_daemon p2 h1)) = processes h1
      /\ (processes h = ∅ ->
          (forall b text, pid_file h = Some b -> read_text b = Ok text ->
                          py_int text <> Some 0%Z) ->
          processes h1 = {[Z.pos p1]}))
  /\ (pid_file h = None ->
      stop_server_daemon h = print (lit "Server not running") h
      /\ processes (stop_server_daemon h) = processes h
      /\ terminated (stop_server_daemon h) = terminated h).
Proof.
  split; [|split].
  - intros b text pid Hfile Hread Hint Halive Hrange.
    rewrite (start_already_running p2 h b text pid) by assumption. now split.
  - intros Hok Hmax h1.
    pose (spawned := Host (Some (Utf8.encode (int_repr (Z.pos p1))))
                          ({[Z.pos p1]} ∪ processes h) (terminated h) (socket_file h)
                          (console h ++ [lit "Server started (PID: "
                                           ++ int_repr (Z.pos p1) ++ lit ")"])).
    assert (Hspawned : start_server_daemon p2 spawned
                       = (Ok tt, print (lit "Server already running") spawned)).
    { destruct (pid_file_round_trip (Z.pos p1)) as (text & Hread & Hint); [exact Hmax|].
      apply (start_already_running p2 spawned (Utf8.encode (int_repr (Z.pos p1))) text
               (Z.pos p1)); try assumption.
      - reflexivity.
      - apply elem_of_union_l, elem_of_singleton. reflexivity.
      - lia. }
    assert (Hcases : h1 = spawned
                     \/ (h1 = print (lit "Server already running") h
                         /\ exists b, pid_file h = Some b /\ probe h b = Ok tt)).
    { subst h1. revert Hok. unfold start_server_daemon.
      destruct (pid_file h) as [b|] eqn:Hf.
      - destruct (probe h b) as [[]|e] eqn:Hp.
        + intros _. right. split; [reflexivity|]. eauto.
        + destruct (is_os_or_value_error e); [|discriminate]. intros _. now left.
      - intros _. left. reflexivity. }
    destruct Hcases as [-> | (-> & b & Hf & Hp)].
    + rewrite Hspawned. split; [reflexivity|]. split; [reflexivity|].
      intros He _. unfold spawned. cbn [processes]. rewrite He. apply (right_id_L ∅ (∪)).
    + assert (Hagain : start_server_daemon p2 (print (lit "Server already running") h)
                       = (Ok tt, print (lit "Server already running")
                                   (print (lit "Server already running") h))).
      { unfold start_server_daemon. cbn [print pid_file]. rewrite Hf.
        change (probe (print (lit "Server already running") h) b) with (probe h b).
        now rewrite Hp. }
      rewrite Hagain. split; [reflexivity|]. split; [reflexivity|].
      intros He Hzero. exfalso.
      destruct (probe_ok_inv h b Hp) as (text & pid & Hread & Hint & _ & [-> | Hin]).
      * exact (Hzero b text Hf Hread Hint).
      * rewrite He in Hin. exact (not_elem_of_empty pid Hin).
  - intros Hnone. unfold stop_server_daemon. rewrite Hnone. now repeat split.
Qed.

Lemma C9_supervisor_idempotent_witness :
  let h := Host None ∅ ∅ false [] in
  let h2 := snd (start_server_daemon 4243 (snd (start_server_daemon 4242 h))) in
  processes h2 = {[4242%Z]}
  /\ console h2 = [lit "Server started (PID: 4242)"; lit "Server already running"]
  /\ console (stop_server_daemon h) = [lit "Server not running"]
  /\ (let alive := Host (Some (lit "4242")) {[4242%Z]} ∅ true [] in
      start_server_daemon 4243 alive = (Ok tt, print (lit "Server already running") alive)).
Proof.
  intros h h2.
  destruct (C9_supervisor_idempotent h 4242 4243) as (_ & Htwice & Hstop).
  destruct Htwice as (Hsecond & Hsame & Hone); [reflexivity | lia |].
  destruct Hstop as (Hs & _ & _); [reflexivity|].
  destruct (C9_supervisor_idempotent (Host (Some (lit "4242")) {[4242%Z]} ∅ true []) 4242 4243)
    as (Halready & _).
  split; [|split; [|split]].
  - subst h2. rewrite Hsame. apply Hone; [reflexivity | discriminate].
  - subst h2. rewrite Hsecond. vm_compute. reflexivity.
  - rewrite Hs. reflexivity.
  - intros alive. refine (proj1 (Halready (lit "4242") (lit "4242") 4242%Z _ _ _ _ _)).
    + reflexivity.
    + vm_compute. reflexivity.
    + vm_compute. reflexivity.
    + change (4242%Z ∈ ({[4242%Z]} : gset Z)). apply elem_of_singleton. reflexivity.
    + lia.
Defined.

(** ** Dictionaries *)

Lemma dict_get_In (d : list (str * json)) (k : str) (v : json) :
  In (k, v) d -> exists v', dict_get d k = Some v'.
Proof.
  induction d as [|[k' v'] r IH]; simpl; [easy|].
  intros [[= -> ->] | Hin].
  - rewrite str_eqb_refl. eauto.
  - destruct (str_eqb k k'); eauto.
Qed.

Lemma dict_get_Some_In (d : list (str * json)) (k : str) (v : json) :
  dict_get d k = Some v -> In (k, v) d.
Proof.
  induction d as [|[k' v'] r IH]; simpl; [easy|].
  destruct (str_eqb k k') eqn:E.
  - apply str_eqb_eq in E as ->. intros [= ->]. now left.
  - intros H. right. now apply IH.
Qed.

Lemma dict_set_fresh (d : list (str * json)) (k : str) (v : json) :
  dict_get d k = None -> dict_set d k v = d ++ [(k, v)].
Proof.
  induction d as [|[k' v'] r IH]; simpl; [easy|].
  destruct (str_eqb k k'); [discriminate|]. intros H. now rewrite IH.
Qed.

Lemma dict_get_set (d : list (str * json)) (k k' : str) (v : json) :
  dict_get (dict_set d k v) k' = if str_eqb k' k then Some v else dict_get d k'.
Proof.
  induction d as [|[k0 v0] r IH]; simpl.
  - reflexivity.
  - destruct (str_eqb k k0) eqn:E; simpl.
    + apply str_eqb_eq in E as ->. now destruct (str_eqb k' k0).
    + rewrite IH. destruct (str_eqb k' k0) eqn:E'; [|reflexivity].
      apply str_eqb_eq in E' as ->.
      destruct (str_eqb k0 k) eqn:E''; [|reflexivity].
      apply str_eqb_eq in E'' as ->. now rewrite str_eqb_refl in E.
Qed.

Lemma distinct_keys_set (d : list (str * json)) (k : str) (v : json) :
  distinct_keys d -> distinct_keys (dict_set d k v).
Proof.
  induction d as [|[k0 v0] r IH]; simpl; [easy|].
  intros [Hk0 Hr]. destruct (str_eqb k k0) eqn:E; simpl.
  - easy.
  - split; [|auto]. rewrite dict_get_set, Hk0.
    destruct (str_eqb k0 k) eqn:E'; [|reflexivity].
    apply str_eqb_eq in E' as ->. now rewrite str_eqb_refl in E.
Qed.

Lemma dict_get_filter (p : str * json -> bool) (d : list (str * json)) (k : str) :
  distinct_keys d ->
  dict_get (List.filter p d) k
  = match dict_get d k with
    | Some v => if p (k, v) then Some v else None
    | None => None
    end.
Proof.
  induction d as [|[k' v'] r IH]; simpl; [easy|]. intros [Hk' Hr].
  destruct (str_eqb k k') eqn:E.
  - apply str_eqb_eq in E as ->. destruct (p (k', v')); simpl.
    + now rewrite str_eqb_refl.
    + rewrite IH, Hk' by assumption. reflexivity.
  - destruct (p (k', v')); simpl; [rewrite E|]; now apply IH.
Qed.

Lemma distinct_keys_filter (p : str * json -> bool) (d : list (str * json)) :
  distinct_keys d -> distinct_keys (List.filter p d).
Proof.
  induction d as [|[k v] r IH]; simpl; [easy|]. intros [Hk Hr].
  destruct (p (k, v)); simpl; [|auto]. split; [|auto].
  rewrite dict_get_filter, Hk by assumption. reflexivity.
Qed.

(** ** Clearing old entries *)

(** The files a fold of the first loop over [names] leaves. *)
Lemma unlink_fold_lookup (cutoff : Float.t) (names : list str) (d : gmap str file) (name : str) :
  fold_left
    (fun d name =>
       match d !! name with
       | Some f => if Float.ltb (Float.of_Z (mtime f)) cutoff then delete name d else d
       | None => d
       end) names d !! name
  = match d !! name with
    | Some f => if bool_decide (name ∈ names) && Float.ltb (Float.of_Z (mtime f)) cutoff then None else Some f
    | None => None
    end.
Proof.
  revert d. induction names as [|a names IH]; intros d; cbn [fold_left].
  - destruct (d !! name); reflexivity.
  - rewrite IH. destruct (decide (name = a)) as [-> | Hne].
    + destruct (d !! a) as [f|] eqn:Hf.
      * destruct (Float.ltb (Float.of_Z (mtime f)) cutoff) eqn:Hold.
        -- rewrite lookup_delete_eq. rewrite bool_decide_eq_true_2 by left. reflexivity.
        -- rewrite Hf, Hold. now rewrite !andb_false_r.
      * now rewrite Hf.
    + assert (Hsame : match d !! a with
                      | Some f => if Float.ltb (Float.of_Z (mtime f)) cutoff then delete a d else d
                      | None => d
                      end !! name = d !! name).
      { destruct (d !! a) as [f|]; [|reflexivity].
        destruct (Float.ltb (Float.of_Z (mtime f)) cutoff); [|reflexivity]. now apply lookup_delete_ne. }
      rewrite Hsame. destruct (d !! name) as [f|]; [|reflexivity].
      assert (Hin : bool_decide (name ∈ a :: names) = bool_decide (name ∈ names)).
      { apply bool_decide_ext. rewrite elem_of_cons. tauto. }
      now rewrite Hin.
Qed.

Lemma elem_of_glob_txt (dir : gmap str file) (name : str) :
  name ∈ ModelCache.glob_txt dir
  <-> ends_with (lit ".txt") name = true /\ is_Some (dir !! name).
Proof.
  unfold ModelCache.glob_txt. rewrite list_elem_of_In, filter_In, in_map_iff. split.
  - intros [([n f] & <- & Hin) Htxt]. split; [exact Htxt|].
    apply list_elem_of_In, elem_of_map_to_list in Hin. simpl. eauto.
  - intros [Htxt [f Hf]]. split; [|exact Htxt].
    exists (name, f). split; [reflexivity|]. now apply list_elem_of_In, elem_of_map_to_list.
Qed.

(** The first loop removes the [.txt] files modified before the cutoff and
    nothing else. *)
Lemma unlink_old_lookup (cutoff : Float.t) (dir : gmap str file) (name : str) :
  ModelCache.unlink_old cutoff dir !! name
  = match dir !! name with
    | Some f =>
        if ends_with (lit ".txt") name && Float.ltb (Float.of_Z (mtime f)) cutoff then None else Some f
    | None => None
    end.
Proof.
  unfold ModelCache.unlink_old. rewrite unlink_fold_lookup.
  destruct (dir !! name) as [f|] eqn:Hf; [|reflexivity].
  assert (Hin : bool_decide (name ∈ ModelCache.glob_txt dir) = ends_with (lit ".txt") name).
  { destruct (ends_with (lit ".txt") name) eqn:Htxt.
    - apply bool_decide_eq_true_2, elem_of_glob_txt. eauto.
    - apply bool_decide_eq_false_2. rewrite elem_of_glob_txt. intros [? _]. congruence. }
  now rewrite Hin.
Qed.

(** The second loop keeps, in order, the records that pass the test. *)
Lemma keep_recent_filter (cutoff : Float.t) (items acc : list (str * json)) :
  Forall (fun kv => exists b, ModelCache.is_recent cutoff (snd kv) = Ok b) items ->
  distinct_keys items ->
  (forall k v, In (k, v) items -> dict_get acc k = None) ->
  ModelCache.keep_recent cutoff items acc = Ok (acc ++ List.filter (keeps cutoff) items).
Proof.
  intros Hok. revert acc. induction Hok as [|[k info] r [b Hb] _ IH]; intros acc Hd Hfresh; simpl.
  - now rewrite app_nil_r.
  - destruct Hd as [Hk Hr]. simpl in Hb. rewrite Hb. simpl. unfold keeps at 1. simpl.
    rewrite Hb. destruct b.
    + rewrite dict_set_fresh by (eapply Hfresh; now left).
      rewrite IH; [now rewrite <- app_assoc | exact Hr |].
      intros k' v' Hin. rewrite <- dict_set_fresh by (eapply Hfresh; now left).
      rewrite dict_get_set.
      destruct (str_eqb k' k) eqn:E.
      * apply str_eqb_eq in E as ->. apply dict_get_In in Hin as [? Hin]. congruence.
      * eapply Hfresh. right. exact Hin.
    + apply IH; [exact Hr|]. intros k' v' Hin. eapply Hfresh. right. exact Hin.
Qed.

(** Whether a record can be tested does not depend on the cutoff. *)
Lemma testable_intro (cutoff : Float.t) (info : json) (b : bool) :
  ModelCache.is_recent cutoff info = Ok b -> testable info.
Proof.
  unfold testable, ModelCache.is_recent. intros H c.
  destruct (py_get info (lit "timestamp") (JNum (lit "0"))) as [ts|]; [|discriminate].
  cbn [rbind] in *. unfold py_ge in *.
  destruct ts as [| |l| | |]; try discriminate; eauto.
  destruct (number l); [eauto | discriminate].
Qed.

Lemma Forall_testable (cutoff : Float.t) (d : list (str * json)) :
  Forall (fun kv => testable (snd kv)) d ->
  Forall (fun kv => exists b, ModelCache.is_recent cutoff (snd kv) = Ok b) d.
Proof. intros H. induction H as [|kv r Hkv _ IH]; constructor; [apply Hkv | exact IH]. Qed.

Lemma clear_old_cache_outputs (self : ModelCache.t) (fs : cache_fs) (now days : Z)
    (cutoff : Float.t) :
  ModelCache.cutoff_time now days = Ok cutoff ->
  outputs (snd (ModelCache.clear_old_cache self fs now days))
  = ModelCache.unlink_old cutoff (outputs fs).
Proof.
  intros Hc. unfold ModelCache.clear_old_cache. rewrite Hc. destruct (rbind _ _); reflexivity.
Qed.

(** The files [clear_old_cache] leaves, where the arithmetic of the clock is
    exact: a blob goes when its age is greater than the span. *)
Lemma clear_old_cache_blobs (self : ModelCache.t) (fs : cache_fs) (now days : Z) (name : str) :
  exact_clock now days ->
  outputs (snd (ModelCache.clear_old_cache self fs now days)) !! name
  = match outputs fs !! name with
    | Some f =>
        if ends_with (lit ".txt") name && (days * 86400 <? now - mtime f)%Z
        then None else Some f
    | None => None
    end.
Proof.
  intros Hclock.
  rewrite (clear_old_cache_outputs self fs now days _ (cutoff_time_exact now days Hclock)).
  rewrite unlink_old_lookup. destruct (outputs fs !! name) as [f|]; [|reflexivity].
  rewrite ltb_whole.
  assert (Hage : (mtime f <? now - days * 86400)%Z = (days * 86400 <? now - mtime f)%Z).
  { destruct (Z.ltb_spec (mtime f) (now - days * 86400)),
             (Z.ltb_spec (days * 86400) (now - mtime f)); try reflexivity; lia. }
  now rewrite Hage.
Qed.

(** The outcome of [clear_old_cache] on a mapping of records that can be
    tested. *)
Lemma clear_old_cache_result (self : ModelCache.t) (fs : cache_fs) (now days : Z)
    (cutoff : Float.t) (d : list (str * json)) :
  ModelCache.cutoff_time now days = Ok cutoff ->
  ModelCache.metadata self = JObj d ->
  distinct_keys d ->
  Forall (fun kv => testable (snd kv)) d ->
  ModelCache.clear_old_cache self fs now days
  = (Ok (ModelCache.Make (JObj (List.filter (keeps cutoff) d))),
     CacheFs (ModelCache.unlink_old cutoff (outputs fs)) (models fs)
             (Some (Utf8.encode (Json.dumps_indent 0 (JObj (List.filter (keeps cutoff) d)))))).
Proof.
  intros Hc Hmeta Hkeys Hok. unfold ModelCache.clear_old_cache.
  rewrite Hc, Hmeta. cbn [py_items rbind].
  rewrite keep_recent_filter by (auto using Forall_testable; easy). reflexivity.
Qed.

(** ** Number literals *)

Lemma span_digits_stop (rest : str) : no_digit_ahead rest -> Json.span_digits rest = ([], rest).
Proof. destruct rest as [|c r]; simpl; [easy|]. now intros ->. Qed.

Lemma span_digits_app (ds rest : str) :
  Forall (fun c => is_digit c = true) ds -> no_digit_ahead rest ->
  Json.span_digits (ds ++ rest) = (ds, rest).
Proof.
  intros Hds Hrest. induction Hds as [|c ds Hc _ IH]; simpl.
  - now apply span_digits_stop.
  - now rewrite Hc, IH.
Qed.

Lemma scan_frac_zero (rest : str) :
  no_digit_ahead rest -> Json.scan_frac (46%N :: 48%N :: rest) = ([48%N], rest).
Proof.
  intros H. unfold Json.scan_frac. rewrite N.eqb_refl.
  cbn [Json.span_digits]. change (is_digit 48) with true. cbv iota.
  now rewrite span_digits_stop.
Qed.

Lemma scan_exp_none (rest : str) :
  match rest with [] => True | c :: _ => c <> 101%N /\ c <> 69%N end ->
  Json.scan_exp rest = ([], rest).
Proof.
  destruct rest as [|c r]; simpl; [easy|]. intros [H1 H2].
  apply N.eqb_neq in H1, H2. now rewrite H1, H2.
Qed.

Lemma ends_number_no_digit (rest : str) : ends_number rest -> no_digit_ahead rest.
Proof. destruct rest; simpl; tauto. Qed.

Lemma first_digit_cases (d : Decimal.uint) :
  canonical d ->
  d = Decimal.D0 Decimal.Nil
  \/ exists c r, uint_chars d = c :: uint_chars r /\ is_digit c = true /\ c <> 48%N /\ c <> 45%N.
Proof.
  destruct d as [|d|d|d|d|d|d|d|d|d|d]; simpl; intros Hc;
    try (right; eexists _, d; split; [reflexivity|]; split; [reflexivity|]; split; discriminate).
  - contradiction.
  - destruct d; try contradiction. now left.
Qed.

Lemma lit_point_zero : lit ".0" = [46%N; 48%N].
Proof. reflexivity. Qed.

Lemma scan_number_parts_digits (neg : bool) (d : Decimal.uint) (rest : str) :
  canonical d -> ends_number rest ->
  Json.scan_number_parts
    ((if neg then [45%N] else []) ++ uint_chars d ++ lit ".0" ++ rest)
  = Some (Json.NumParts neg (uint_chars d) [48%N] [], rest).
Proof.
  intros Hd Hrest. rewrite lit_point_zero.
  assert (Hfrac : Json.scan_frac (46%N :: 48%N :: rest) = ([48%N], rest))
    by now apply scan_frac_zero, ends_number_no_digit.
  assert (Hexp : Json.scan_exp rest = ([], rest))
    by (apply scan_exp_none; destruct rest; simpl in *; tauto).
  destruct (first_digit_cases d Hd) as [-> | (c & r & E & Hc & H48 & H45)].
  - destruct neg; cbn -[Json.scan_frac Json.scan_exp Json.span_digits];
      now rewrite Hfrac, Hexp.
  - rewrite E. apply N.eqb_neq in H48, H45.
    assert (Hspan : Json.span_digits (uint_chars r ++ 46%N :: 48%N :: rest)
                    = (uint_chars r, 46%N :: 48%N :: rest))
      by (apply span_digits_app; [apply uint_chars_digits | reflexivity]).
    destruct neg; unfold Json.scan_number_parts;
      cbn -[Json.scan_frac Json.scan_exp Json.span_digits];
      rewrite ?H45, H48, Hc, Hspan, Hfrac, Hexp; reflexivity.
Qed.

Lemma scan_number_parts_float (z : Z) (rest : str) :
  ends_number rest ->
  Json.scan_number_parts (float_repr z ++ rest)
  = Some (Json.NumParts (z <? 0)%Z (nat_repr (Z.abs_N z)) [48%N] [], rest).
Proof.
  intros Hrest. unfold float_repr, int_repr, nat_repr.
  pose proof (scan_number_parts_digits (z <? 0)%Z _ rest (to_uint_canonical (Z.abs_N z)) Hrest)
    as H.
  destruct (z <? 0)%Z; cbn [app] in H |- *; rewrite <- ?app_assoc; exact H.
Qed.

(** A float printed by [json.dumps] is read back as the same literal. *)
Lemma scan_number_float (z : Z) (rest : str) :
  ends_number rest -> Json.scan_number (float_repr z ++ rest) = Some (float_repr z, rest).
Proof.
  intros Hrest. unfold Json.scan_number. rewrite scan_number_parts_float by assumption.
  unfold Json.parts_text, float_repr, int_repr. rewrite lit_point_zero.
  cbn [Json.p_neg Json.p_int Json.p_frac Json.p_exp].
  destruct (z <? 0)%Z; reflexivity.
Qed.

Lemma chars_uint_times_ten (d : Decimal.uint) :
  chars_uint (uint_chars d ++ [48%N]) = Some (times_ten d).
Proof. induction d; simpl; rewrite ?IHd; reflexivity. Qed.

Lemma of_uint_acc_times_ten (d : Decimal.uint) (acc : positive) :
  Pos.of_uint_acc (times_ten d) acc = (10 * Pos.of_uint_acc d acc)%positive.
Proof. revert acc. induction d; intros acc; simpl; auto. Qed.

Lemma of_uint_times_ten (d : Decimal.uint) : N.of_uint (times_ten d) = (10 * N.of_uint d)%N.
Proof.
  unfold N.of_uint.
  induction d; simpl; auto; rewrite of_uint_acc_times_ten; reflexivity.
Qed.

(** The value of a float literal [z.0] is [10 z * 10^-1]. *)
Lemma lit_value_float (z : Z) : Json.lit_value (float_repr z) = Some ((10 * z)%Z, (-1)%Z).
Proof.
  unfold Json.lit_value.
  rewrite <- (app_nil_r (float_repr z)) at 1.
  rewrite scan_number_parts_float by exact I.
  cbn [Json.p_neg Json.p_int Json.p_frac Json.p_exp length].
  unfold Json.digits_val, nat_repr. rewrite chars_uint_times_ten, of_uint_times_ten.
  rewrite DecimalN.Unsigned.of_to. f_equal. f_equal.
  destruct (Z.ltb_spec z 0); lia.
Qed.

Lemma float_repr_head (z : Z) :
  exists c r, is_digit c = true
              /\ (float_repr z = c :: r \/ float_repr z = 45%N :: c :: r).
Proof.
  unfold float_repr, int_repr, nat_repr.
  destruct (first_digit_cases _ (to_uint_canonical (Z.abs_N z)))
    as [-> | (c & r & -> & Hc & _)].
  - exists 48%N. eexists. split; [reflexivity|]. destruct (z <? 0)%Z; [right | left]; reflexivity.
  - exists c. eexists. split; [exact Hc|]. destruct (z <? 0)%Z; [right | left]; reflexivity.
Qed.

Lemma float_repr_is_float (z : Z) : is_float_lit (float_repr z) = true.
Proof.
  unfold is_float_lit, float_repr. rewrite existsb_app. apply orb_true_iff. right. reflexivity.
Qed.

(** The number that [json.loads] makes of a float printed by [json.dumps]. *)
Lemma number_float (z : Z) :
  (Z.abs z < 2 ^ 53)%Z -> number (float_repr z) = Some (Float.of_Z z).
Proof.
  intros Hz. unfold number. destruct (float_repr_head z) as (d & r & Hd & Hhead).
  assert (Hd' : (d =? 78)%N = false /\ (d =? 73)%N = false /\ (d =? 45)%N = false).
  { unfold is_digit in Hd. apply andb_true_iff in Hd as [Hlo Hhi].
    apply N.leb_le in Hlo, Hhi. repeat split; apply N.eqb_neq; lia. }
  destruct Hd' as (H78 & H73 & H45).
  assert (Hspecial : str_eqb (float_repr z) (lit "NaN") = false
                     /\ str_eqb (float_repr z) (lit "Infinity") = false
                     /\ str_eqb (float_repr z) (lit "-Infinity") = false).
  { destruct Hhead as [-> | ->]; eval_lit; cbn [str_eqb]; rewrite ?H78, ?H73, ?H45; auto. }
  destruct Hspecial as (-> & -> & ->). rewrite lit_value_float, float_repr_is_float.
  now rewrite of_decimal_point_zero.
Qed.

(** [float(z) >= c] for whole numbers that doubles hold exactly. *)
Lemma py_ge_float (z c : Z) :
  (Z.abs z < 2 ^ 53)%Z -> py_ge (JNum (float_repr z)) (Float.of_Z c) = Ok (c <=? z)%Z.
Proof.
  intros Hz. unfold py_ge. rewrite number_float by exact Hz. now rewrite leb_whole.
Qed.

(** ** Metadata in step with the blobs *)

(** The record [put] writes at time [now] passes the test of
    [clear_old_cache] exactly for the cutoffs up to [now]. *)
Lemma metadata_record_keeps (key model : str) (now cutoff : Z) (size : str) :
  (Z.abs now < 2 ^ 53)%Z ->
  keeps (Float.of_Z cutoff)
        (key, JObj [(lit "model", JStr model);
                    (lit "timestamp", JNum (float_repr now));
                    (lit "diff_size", JNum size)])
  = (cutoff <=? now)%Z.
Proof.
  intros Hnow. unfold keeps, ModelCache.is_recent, py_get. cbn [snd dict_get].
  change (str_eqb (lit "timestamp") (lit "model")) with false.
  change (str_eqb (lit "timestamp") (lit "timestamp")) with true.
  cbn [rbind]. rewrite py_ge_float by exact Hnow. now destruct (cutoff <=? now)%Z.
Qed.

Lemma cache_file_inj (k k' : str) : ModelCache.cache_file k = ModelCache.cache_file k' -> k = k'.
Proof. unfold ModelCache.cache_file. apply app_inv_tail. Qed.

Lemma cache_file_txt (k : str) : ends_with (lit ".txt") (ModelCache.cache_file k) = true.
Proof. apply ends_with_app. Qed.

(** [put] keeps records and blobs in step for a cutoff that has the time
    recorded and the modification time of the blob on the same side. *)
Lemma save_message_paired (self : ModelCache.t) (fs : cache_fs) (t_fs now cutoff : Z)
    (diff model message : str) (d : list (str * json)) :
  wf_str model -> wf_str diff -> wf_str message ->
  (Z.abs now < 2 ^ 53)%Z ->
  (cutoff <=? now)%Z = (cutoff <=? t_fs)%Z ->
  ModelCache.metadata self = JObj d ->
  paired cutoff d (outputs fs) ->
  exists self' d',
    ModelCache.save_message self fs t_fs now diff model message
    = (Ok self', snd (ModelCache.save_message self fs t_fs now diff model message))
    /\ ModelCache.metadata self' = JObj d'
    /\ (distinct_keys d -> distinct_keys d')
    /\ paired cutoff d'
         (outputs (snd (ModelCache.save_message self fs t_fs now diff model message))).
Proof.
  intros Hm Hd Hmsg Hnow Hside Hmeta [Hrec Hblob]. unfold ModelCache.save_message.
  rewrite get_cache_key_wf, write_text_wf, Hmeta by auto using wf_str_take.
  cbn [py_setitem]. eexists _, _. split; [reflexivity|]. split; [reflexivity|].
  split; [apply distinct_keys_set|].
  cbn [snd ModelCache._save_metadata outputs]. split.
  - intros key info. rewrite dict_get_set. destruct (str_eqb key _) eqn:E.
    + apply str_eqb_eq in E as ->. intros [= <-]. eexists. split; [apply lookup_insert_eq|].
      cbn [mtime]. now rewrite metadata_record_keeps.
    + intros Hget. destruct (Hrec key info Hget) as (f & Hf & Hst). exists f. split; [|exact Hst].
      rewrite lookup_insert_ne; [exact Hf|].
      intros Heq%cache_file_inj. subst. now rewrite str_eqb_refl in E.
  - intros name f Hf Htxt.
    destruct (decide (name = ModelCache.cache_file (key_of diff model))) as [-> | Hne].
    + eexists _, _. split; [reflexivity|]. rewrite dict_get_set, str_eqb_refl. reflexivity.
    + rewrite lookup_insert_ne in Hf by congruence.
      destruct (Hblob name f Hf Htxt) as (key & info & -> & Hget).
      exists key, info. split; [reflexivity|]. rewrite dict_get_set.
      destruct (str_eqb key _) eqn:E; [|exact Hget].
      apply str_eqb_eq in E. subst. congruence.
Qed.

(** ** The text [json.dumps] writes *)

Lemma hexdigit_printable (d : N) : (d < 16)%N -> printable (Sha256.hexdigit d) = true.
Proof.
  intros Hd. unfold printable, Sha256.hexdigit.
  destruct (N.ltb_spec d 10); rewrite andb_true_iff, !N.leb_le; lia.
Qed.

Lemma hex4_printable (n : N) : Forall (fun c => printable c = true) (Json.hex4 n).
Proof.
  unfold Json.hex4. repeat constructor; apply hexdigit_printable; apply N.mod_lt; lia.
Qed.

Lemma escape_char_printable (c : N) : Forall (fun x => printable x = true) (Json.escape_char c).
Proof.
  unfold Json.escape_char.
  repeat match goal with
         | |- context [if ?b then _ else _] => destruct b eqn:?
         end;
    try (repeat constructor; fail).
  - repeat constructor. assumption.
  - apply Forall_app. split; [repeat constructor | apply hex4_printable].
  - repeat (apply Forall_app; split); try apply hex4_printable; repeat constructor.
Qed.

Lemma dumps_str_printable (s : str) : Forall (fun x => printable x = true) (Json.dumps_str s).
Proof.
  unfold Json.dumps_str. constructor; [reflexivity|]. apply Forall_app. split.
  - induction s as [|c s IH]; cbn [flat_map]; [constructor|].
    apply Forall_app. split; [apply escape_char_printable | exact IH].
  - repeat constructor.
Qed.

Lemma hex_val_hexdigit (d : N) : (d < 16)%N -> Json.hex_val (Sha256.hexdigit d) = Some d.
Proof.
  intros Hd. unfold Json.hex_val, Sha256.hexdigit. destruct (N.ltb_spec d 10).
  - assert (((48 <=? 48 + d) && (48 + d <=? 57))%N = true) as ->
      by (rewrite andb_true_iff, !N.leb_le; lia).
    f_equal. lia.
  - assert (((48 <=? 87 + d) && (87 + d <=? 57))%N = false) as ->
      by (rewrite andb_false_iff, !N.leb_gt; lia).
    assert (((97 <=? 87 + d) && (87 + d <=? 102))%N = true) as ->
      by (rewrite andb_true_iff, !N.leb_le; lia).
    f_equal. lia.
Qed.

Lemma hex4_val_hex4 (n : N) :
  (n < 65536)%N ->
  match Json.hex4 n with
  | [a; b; c; d] => Json.hex4_val a b c d = Some n
  | _ => False
  end.
Proof.
  intros Hn. unfold Json.hex4, Json.hex4_val.
  rewrite !hex_val_hexdigit by (apply N.mod_lt; lia). f_equal. lia.
Qed.

(** Reading back one escaped character. *)
Lemma scan_string_escape_char (c : N) (tail : str) :
  Utf8.scalar c = true ->
  Json.scan_string (Json.escape_char c ++ tail) = Json.cons_fst c (Json.scan_string tail).
Proof.
  intros Hc. unfold Utf8.scalar, Utf8.is_surrogate in Hc.
  apply andb_true_iff in Hc as [Hmax Hsur]. apply N.ltb_lt in Hmax.
  apply negb_true_iff, andb_false_iff in Hsur. rewrite N.leb_gt, N.leb_gt in Hsur.
  unfold Json.escape_char.
  destruct (N.eqb_spec c 34) as [-> | H34]; [reflexivity|].
  destruct (N.eqb_spec c 92) as [-> | H92]; [reflexivity|].
  destruct (N.eqb_spec c 10) as [-> | H10]; [reflexivity|].
  destruct (N.eqb_spec c 13) as [-> | H13]; [reflexivity|].
  destruct (N.eqb_spec c 9) as [-> | H9]; [reflexivity|].
  destruct (N.eqb_spec c 8) as [-> | H8]; [reflexivity|].
  destruct (N.eqb_spec c 12) as [-> | H12]; [reflexivity|].
  destruct ((32 <=? c) && (c <=? 126))%N eqn:Hprint.
  - apply andb_true_iff in Hprint as [Hlo Hhi]. apply N.leb_le in Hlo.
    cbn [app Json.scan_string].
    assert ((c =? 34)%N = false) as -> by now apply N.eqb_neq.
    assert ((c =? 92)%N = false) as -> by now apply N.eqb_neq.
    assert ((c <? 32)%N = false) as -> by (apply N.ltb_ge; lia).
    reflexivity.
  - destruct (N.ltb_spec c 65536) as [Hbmp | Hastral].
    + pose proof (hex4_val_hex4 c Hbmp) as Hhex. unfold Json.hex4 in *.
      cbn [app Json.scan_string]. change (92 =? 34)%N with false. change (92 =? 92)%N with true.
      change (117 =? 117)%N with true. cbv iota. rewrite Hhex.
      assert (((55296 <=? c) && (c <=? 56319))%N = false) as ->
        by (rewrite andb_false_iff, !N.leb_gt; lia).
      reflexivity.
    + set (v := (c - 65536)%N).
      assert (Hv : (v < 1048576)%N) by (subst v; lia).
      assert (Hhi : ((v / 1024) mod 1024 = v / 1024)%N)
        by (apply N.mod_small, N.Div0.div_lt_upper_bound; lia).
      rewrite Hhi.
      assert (Hq : (v / 1024 < 1024)%N) by (apply N.Div0.div_lt_upper_bound; lia).
      pose proof (N.mod_lt v 1024 ltac:(lia)) as Hr.
      pose proof (hex4_val_hex4 (55296 + v / 1024) ltac:(lia)) as Hhex1.
      pose proof (hex4_val_hex4 (56320 + v mod 1024) ltac:(lia)) as Hhex2.
      unfold Json.hex4 in *.
      cbn [app Json.scan_string]. change (92 =? 34)%N with false. change (92 =? 92)%N with true.
      change (117 =? 117)%N with true. cbv iota. rewrite Hhex1.
      assert (((55296 <=? 55296 + v / 1024) && (55296 + v / 1024 <=? 56319))%N = true) as ->
        by (rewrite andb_true_iff, !N.leb_le; lia).
      cbn [andb]. rewrite Hhex2.
      assert (((56320 <=? 56320 + v mod 1024) && (56320 + v mod 1024 <=? 57343))%N = true) as ->
        by (rewrite andb_true_iff, !N.leb_le; lia).
      f_equal. subst v. lia.
Qed.

(** [json.loads] reads back the string [json.dumps] wrote. *)
Lemma scan_string_escape (s rest : str) :
  wf_str s ->
  Json.scan_string (flat_map Json.escape_char s ++ 34%N :: rest) = Some (s, rest).
Proof.
  induction 1 as [|c s Hc _ IH]; cbn [flat_map app].
  - reflexivity.
  - rewrite <- app_assoc, scan_string_escape_char, IH by assumption. reflexivity.
Qed.

(** ** ASCII text on the wire *)


(** ** Framing: receiving up to the end marker *)







(** ** Reading back the objects of the protocol *)

Lemma skip_ws_head (c : N) (s : str) : Json.is_ws c = false -> Json.skip_ws (c :: s) = c :: s.
Proof. intros H. unfold Json.skip_ws. now apply drop_while_head. Qed.

Lemma parse_value_str (fuel : nat) (v rest : str) :
  wf_str v ->
  Json.parse_value (S fuel) (Json.dumps_str v ++ rest) = Some (JStr v, rest).
Proof.
  intros Hv. unfold Json.dumps_str. cbn [app Json.parse_value].
  change (34 =? 34)%N with true. cbv iota.
  rewrite <- app_assoc. cbn [app]. now rewrite scan_string_escape.
Qed.


(** One member ["key": value] of an object, and what follows it. *)
Lemma parse_member (fuel : nat) (acc : list (str * json)) (k vt rest : str) (v : json) :
  wf_str k ->
  Json.skip_ws (vt ++ rest) = vt ++ rest ->
  Json.parse_value (S fuel) (vt ++ rest) = Some (v, rest) ->
  Json.parse_members (S (S fuel)) acc (Json.dumps_str k ++ lit ": " ++ vt ++ rest)
  = match Json.skip_ws rest with
    | c2 :: r4 =>
        if (c2 =? 125)%N then Some (JObj (dict_set acc k v), r4)
        else if (c2 =? 44)%N
             then Json.parse_members (S fuel) (dict_set acc k v) (Json.skip_ws r4)
             else None
    | [] => None
    end.
Proof.
  intros Hk Hws Hv. unfold Json.dumps_str. eval_lit.
  cbn [app]. rewrite <- !app_assoc. cbn [app]. cbn [Json.parse_members]. eval_eqb.
  rewrite scan_string_escape by exact Hk.
  rewrite skip_ws_head by reflexivity. eval_eqb.
  assert (Hsp : Json.skip_ws (32%N :: vt ++ rest) = vt ++ rest) by exact Hws.
  rewrite Hsp, Hv. reflexivity.
Qed.






(** ** The messages of the protocol *)

Lemma lit_printable_sep : Forall (fun c => printable c = true) (lit ": ")
                       /\ Forall (fun c => printable c = true) (lit ", ").
Proof. split; repeat constructor. Qed.





(** ** The daemon: one request *)




(** ** The daemon on a connection that can fail *)

Lemma lossy_recv_closed (marker data : bytes) (chunks : list bytes) :
  Lossy.recv_until marker data chunks Closed
  = Lossy.Got (fst (recv_until marker data chunks)) (snd (recv_until marker data chunks)).
Proof.
  revert data. induction chunks as [|chunk r IH]; intros data;
    cbn [Lossy.recv_until recv_until]; [reflexivity|].
  destruct chunk as [|b chunk]; [reflexivity|].
  destruct (contains marker (data ++ b :: chunk)); [reflexivity | apply IH].
Qed.

(** On a connection that does not fail the handler is that of
    [ModelServer]. *)
Lemma lossy_handle_reliable (self : ModelServer.t) (t_start t_end : Z) (c : conn) :
  Lossy._handle_request self t_start t_end (reliable c)
  = Lossy.Returned (fst (ModelServer._handle_request self t_start t_end c))
                   (reliable (snd (ModelServer._handle_request self t_start t_end c))).
Proof.
  unfold Lossy._handle_request, ModelServer._handle_request, reliable.
  cbn [arriving at_end send_faults delivered shut]. rewrite lossy_recv_closed.
  destruct (recv_until [10; 10]%N [] (incoming c)) as [data rest]. cbn [fst snd].
  destruct (ModelServer.response_for self t_start t_end data); reflexivity.
Qed.

(** And the serve loop is that of [ModelServer]. *)
Lemma lossy_loop_reliable (self : ModelServer.t) (events : list ModelServer.event) :
  let run := ModelServer.accept_loop self events in
  Lossy.accept_loop self (map lossy_event events)
  = Lossy.Run (map reliable (ModelServer.handled run)) (ModelServer.console run)
              (if ModelServer.stopped run then Lossy.Stopped else Lossy.Listening).
Proof.
  revert self. induction events as [|ev events IH]; intros self; [reflexivity|].
  destruct ev as [|c t_start t_end];
    cbn [map lossy_event Lossy.accept_loop ModelServer.accept_loop].
  - rewrite IH. reflexivity.
  - rewrite lossy_handle_reliable.
    destruct (ModelServer._handle_request self t_start t_end c) as [res c']. cbn [fst snd].
    destruct (ModelServer.running self); [|reflexivity]. rewrite IH. reflexivity.
Qed.








(** ** The client *)

(** C7.  [generate] fails with the "not running" error, which names the
    command [llmcommit-server], exactly when the socket path does not exist,
    and then without opening a connection; when the path exists and the
    response is an object, an [error] field is raised as the failure and
    otherwise the [message] field is returned. *)
Theorem C7_client_outcomes (ep : endpoint) (diff : str) :
  (socket_exists ep = false
   <-> ModelClient.generate_commit_message ep diff = (not_running, None))
  /\ (exists text, not_running = Raise (Exn "Exception" (JStr text))
                   /\ contains (lit "llmcommit-server") text = true)
  /\ (forall server text d,
        socket_exists ep = true -> listener ep = Some server ->
        decode_utf8 (fst (recv_until [10%N] [] (server (request_bytes diff)))) = Ok text ->
        Json.loads (strip text) = Ok (JObj d) ->
        snd (ModelClient.generate_commit_message ep diff) = Some (request_bytes diff)
        /\ (forall err, dict_get d (lit "error") = Some err ->
              fst (ModelClient.generate_commit_message ep diff) = Raise (Exn "Exception" err))
        /\ (dict_get d (lit "error") = None ->
            forall m, dict_get d (lit "message") = Some m ->
              fst (ModelClient.generate_commit_message ep diff) = Ok m)).
Proof.
  split; [|split].
  - unfold ModelClient.generate_commit_message, ModelClient.is_server_running. split.
    + now intros ->.
    + destruct (socket_exists ep); [|reflexivity]. cbn [negb].
      destruct (listener ep) as [server|].
      * destruct (recv_until _ _ _). discriminate.
      * discriminate.
  - eexists. split; [reflexivity|]. vm_compute. reflexivity.
  - intros server text d Hex Hl Hdec Hloads.
    unfold ModelClient.generate_commit_message, ModelClient.is_server_running.
    rewrite Hex, Hl. cbn [negb]. fold (request_bytes diff).
    destruct (recv_until [10%N] [] (server (request_bytes diff))) as [data rest].
    cbn [fst snd] in *. rewrite Hdec. cbn [rbind]. rewrite Hloads. cbn [rbind py_contains].
    unfold dict_has. split; [reflexivity|]. split.
    + intros err Herr. rewrite Herr. cbn [rbind py_getitem]. now rewrite Herr.
    + intros Hnone m Hm. rewrite Hnone. cbn [rbind py_getitem]. now rewrite Hm.
Qed.

Lemma C7_client_outcomes_witness :
  let failing := ModelServer.Make (fun _ => raise "RuntimeError" "out of memory") true in
  let serve (self : ModelServer.t) (out : bytes) :=
    sent (snd (ModelServer._handle_request self 0 1 (Conn [out] [] false))) in
  ModelClient.generate_commit_message (Endpoint false None) (lit "X") = (not_running, None)
  /\ fst (ModelClient.generate_commit_message (Endpoint true (Some (serve failing))) (lit "X"))
     = Raise (Exn "Exception" (JStr (lit "out of memory"))).
Proof.
  intros failing serve. split.
  - apply (C7_client_outcomes (Endpoint false None) (lit "X")). reflexivity.
  - destruct (C7_client_outcomes (Endpoint true (Some (serve failing))) (lit "X"))
      as (_ & _ & H).
    destruct (H (serve failing)
                (lit "{" ++ [34%N] ++ lit "error" ++ [34%N] ++ lit ": " ++ [34%N]
                   ++ lit "out of memory" ++ [34%N] ++ lit "}" ++ [10%N])
                [(lit "error", JStr (lit "out of memory"))])
      as (_ & Herr & _).
    + reflexivity.
    + reflexivity.
    + vm_compute. reflexivity.
    + vm_compute. reflexivity.
    + apply Herr. reflexivity.
Defined.

(** ** The round trip *)







(** ** C4: keys of different models *)

Lemma firstn_flat_map_hex2 (n : nat) (l : bytes) :
  firstn (2 * n) (flat_map Sha256.hex2 l) = flat_map Sha256.hex2 (firstn n l).
Proof.
  revert l. induction n as [|n IH]; intros l; [reflexivity|].
  destruct l as [|b l]; [reflexivity|].
  replace (2 * S n) with (S (S (2 * n))) by lia. cbn [flat_map Sha256.hex2 app firstn].
  now rewrite IH.
Qed.

Lemma cache_key_of_bytes (diff model : str) :
  key_of diff model = flat_map Sha256.hex2 (key_bytes diff model).
Proof.
  unfold key_of, key_bytes, Sha256.hexdigest.
  apply (firstn_flat_map_hex2 8).
Qed.

Lemma key_bytes_shape (diff model : str) :
  length (key_bytes diff model) = 8 /\ Forall (fun b => (b < 256)%N) (key_bytes diff model).
Proof.
  unfold key_bytes.
  destruct (digest_bytes (Utf8.encode (model ++ lit ":" ++ firstn 500 diff))) as [Hlen Hlt].
  split; [rewrite length_take; lia | now apply Forall_take].
Qed.

Lemma hexdigit_inj (a b : N) :
  (a < 16)%N -> (b < 16)%N -> Sha256.hexdigit a = Sha256.hexdigit b -> a = b.
Proof.
  intros Ha Hb Heq. apply hex_val_hexdigit in Ha, Hb. rewrite Heq in Ha. congruence.
Qed.

Lemma flat_map_hex2_inj (l1 l2 : bytes) :
  Forall (fun b => (b < 256)%N) l1 -> Forall (fun b => (b < 256)%N) l2 ->
  flat_map Sha256.hex2 l1 = flat_map Sha256.hex2 l2 -> l1 = l2.
Proof.
  intros H1. revert l2. induction H1 as [|a l1 Ha _ IH]; intros l2 H2 Heq.
  - destruct l2; [reflexivity | discriminate].
  - destruct H2 as [|b l2 Hb H2]; [discriminate|].
    cbn [flat_map Sha256.hex2 app] in Heq. injection Heq as Hhi Hlo Hrest.
    apply hexdigit_inj in Hhi; [| apply N.Div0.div_lt_upper_bound; lia
                                | apply N.Div0.div_lt_upper_bound; lia].
    apply hexdigit_inj in Hlo; [| apply N.mod_lt; lia | apply N.mod_lt; lia].
    f_equal; [lia | now apply IH].
Qed.

Lemma bytes_value_lt (l : bytes) :
  Forall (fun b => (b < 256)%N) l -> (bytes_value l < 256 ^ N.of_nat (length l))%N.
Proof.
  induction 1 as [|b l Hb _ IH]; [reflexivity|]. cbn [bytes_value length].
  rewrite Nat2N.inj_succ, N.pow_succ_r'. lia.
Qed.

Lemma bytes_value_inj (l1 l2 : bytes) :
  Forall (fun b => (b < 256)%N) l1 -> Forall (fun b => (b < 256)%N) l2 ->
  length l1 = length l2 -> bytes_value l1 = bytes_value l2 -> l1 = l2.
Proof.
  intros H1. revert l2. induction H1 as [|a l1 Ha _ IH]; intros l2 H2 Hlen Heq.
  - destruct l2; [reflexivity | discriminate].
  - destruct H2 as [|b l2 Hb H2]; [discriminate|]. cbn [bytes_value] in Heq.
    injection Hlen as Hlen. f_equal; [lia | apply IH; auto; lia].
Qed.

Lemma value64_digits64 (width : nat) (n : N) :
  value64 (digits64 width n) = (n mod 64 ^ N.of_nat width)%N.
Proof.
  revert n. induction width as [|w IH]; intros n.
  - cbn [digits64 value64]. change (64 ^ N.of_nat 0)%N with 1%N. now rewrite N.mod_1_r.
  - cbn [digits64 value64]. rewrite IH, Nat2N.inj_succ, N.pow_succ_r'.
    rewrite N.Div0.mod_mul_r. lia.
Qed.

Lemma digits64_length (width : nat) (n : N) : length (digits64 width n) = width.
Proof. revert n. induction width as [|w IH]; intros n; cbn [digits64 length]; auto. Qed.

Lemma digits64_printable (width : nat) (n : N) :
  Forall (fun c => printable c = true) (digits64 width n).
Proof.
  revert n. induction width as [|w IH]; intros n; cbn [digits64]; constructor; [|apply IH].
  pose proof (N.mod_upper_bound n 64). unfold printable.
  rewrite andb_true_iff, !N.leb_le. lia.
Qed.

Lemma model_family_inj (i j : nat) :
  (N.of_nat i < 64 ^ 11)%N -> (N.of_nat j < 64 ^ 11)%N ->
  model_family i = model_family j -> i = j.
Proof.
  intros Hi Hj H. apply (f_equal value64) in H. unfold model_family in H.
  rewrite !value64_digits64 in H. change (N.of_nat 11) with 11%N in H.
  rewrite !N.mod_small in H by assumption. lia.
Qed.

Lemma printable_scalar (c : N) : printable c = true -> Utf8.scalar c = true.
Proof.
  unfold printable, Utf8.scalar, Utf8.is_surrogate.
  rewrite !andb_true_iff, !N.leb_le, N.ltb_lt, negb_true_iff, andb_false_iff, !N.leb_gt. lia.
Qed.

Lemma model_family_wf (i : nat) : wf_str (model_family i).
Proof.
  unfold model_family, wf_str.
  eapply Forall_impl; [apply digits64_printable | apply printable_scalar].
Qed.

(** For every diff two different model identifiers of eleven printable ASCII
    characters have the same key: there are more such identifiers than
    keys. *)
Lemma keys_collide (diff : str) :
  wf_str diff ->
  exists (m1 m2 : str) (key : str),
    (length m1 = 11 /\ Forall (fun c => printable c = true) m1)
    /\ (length m2 = 11 /\ Forall (fun c => printable c = true) m2)
    /\ m1 <> m2
    /\ ModelCache.get_cache_key diff m1 = Ok key
    /\ ModelCache.get_cache_key diff m2 = Ok key.
Proof.
  intros Hd. pose proof (wf_str_take 500 diff Hd) as Hd'.
  remember (N.to_nat (256 ^ 8)) as n eqn:Hn.
  pose (f := fun i : nat => N.to_nat (bytes_value (key_bytes diff (model_family i)))).
  destruct (nat_pigeonhole f (S n) n) as (i1 & i2 & Hlt & Heq).
  - lia.
  - intros i _. unfold f. destruct (key_bytes_shape diff (model_family i)) as [Hlen Hb].
    pose proof (bytes_value_lt _ Hb) as Hv. rewrite Hlen in Hv.
    change (N.of_nat 8) with 8%N in Hv. rewrite Hn. lia.
  - assert (Hsmall : forall i, (i < S n)%nat -> (N.of_nat i < 64 ^ 11)%N).
    { intros i Hi. assert (Hle : (N.of_nat i <= 256 ^ 8)%N) by (rewrite Hn in Hi; lia).
      eapply N.le_lt_trans; [exact Hle | reflexivity]. }
    exists (model_family i1), (model_family i2), (key_of diff (model_family i1)).
    split; [split; [apply digits64_length | apply digits64_printable]|].
    split; [split; [apply digits64_length | apply digits64_printable]|].
    split; [|split].
    + intros H%model_family_inj; [lia | apply Hsmall; lia | apply Hsmall; lia].
    + apply get_cache_key_wf; [apply model_family_wf | exact Hd'].
    + rewrite get_cache_key_wf by (try apply model_family_wf; exact Hd').
      f_equal. rewrite !cache_key_of_bytes. f_equal.
      unfold f in Heq. apply N2Nat.inj in Heq.
      destruct (key_bytes_shape diff (model_family i1)) as [Hl1 Hb1].
      destruct (key_bytes_shape diff (model_family i2)) as [Hl2 Hb2].
      symmetry. apply bytes_value_inj; auto; lia.
Qed.

(** C4, counterexample.  Two different model identifiers, of eleven
    printable ASCII characters each, with the same key for the same diff. *)
Lemma C4_keys_collide :
  exists m1 m2 diff key : str,
    (length m1 = 11 /\ Forall (fun c => printable c = true) m1)
    /\ (length m2 = 11 /\ Forall (fun c => printable c = true) m2)
    /\ m1 <> m2
    /\ ModelCache.get_cache_key diff m1 = Ok key
    /\ ModelCache.get_cache_key diff m2 = Ok key.
Proof.
  destruct (keys_collide (lit "some diff")) as (m1 & m2 & key & H1 & H2 & Hne & Hk1 & Hk2).
  - apply wf_str_forallb. reflexivity.
  - now exists m1, m2, (lit "some diff"), key.
Qed.

(** C4, as the code has it.  For different model identifiers and the same
    diff the hashed texts [model + ":" + diff[:500]] differ, and so do their
    UTF-8 encodings; the two keys print the first eight bytes of the SHA-256
    digests of two different byte strings, and are equal exactly when these
    eight bytes are. *)
Theorem C4_distinct_models_hash_distinct_texts (m1 m2 diff : str) :
  wf_str m1 -> wf_str m2 -> wf_str diff ->
  m1 <> m2 ->
  let text1 := m1 ++ lit ":" ++ firstn 500 diff in
  let text2 := m2 ++ lit ":" ++ firstn 500 diff in
  text1 <> text2
  /\ Utf8.encode text1 <> Utf8.encode text2
  /\ ModelCache.get_cache_key diff m1
     = Ok (firstn 16 (Sha256.hexdigest (Utf8.encode text1)))
  /\ ModelCache.get_cache_key diff m2
     = Ok (firstn 16 (Sha256.hexdigest (Utf8.encode text2)))
  /\ (ModelCache.get_cache_key diff m1 = ModelCache.get_cache_key diff m2
      <-> firstn 8 (Sha256.digest (Utf8.encode text1))
          = firstn 8 (Sha256.digest (Utf8.encode text2))).
Proof.
  intros H1 H2 Hd Hne text1 text2.
  pose proof (wf_str_take 500 diff Hd) as Hd'.
  assert (Htext : text1 <> text2).
  { subst text1 text2. intros Heq. apply app_inv_tail in Heq. contradiction. }
  assert (Hwf : forall m, wf_str m -> wf_str (m ++ lit ":" ++ firstn 500 diff)).
  { intros m Hm. apply wf_str_app; [exact Hm|]. apply wf_str_app; [|exact Hd'].
    repeat constructor. }
  pose proof (get_cache_key_wf diff m1 H1 Hd') as Hk1.
  pose proof (get_cache_key_wf diff m2 H2 Hd') as Hk2.
  split; [exact Htext|]. split; [|split; [exact Hk1 | split; [exact Hk2|]]].
  - intros Heq. apply Htext.
    apply encode_inj; [apply Hwf; assumption | apply Hwf; assumption | exact Heq].
  - rewrite Hk1, Hk2, !cache_key_of_bytes. unfold key_bytes. fold text1. fold text2. split.
    + intros Heq.
      apply flat_map_hex2_inj; [apply key_bytes_shape | apply key_bytes_shape | congruence].
    + now intros ->.
Qed.

Lemma C4_distinct_models_hash_distinct_texts_witness :
  Utf8.encode (lit "gpt2" ++ lit ":" ++ firstn 500 (lit "some diff"))
  <> Utf8.encode (lit "distilgpt2" ++ lit ":" ++ firstn 500 (lit "some diff"))
  /\ ModelCache.get_cache_key (lit "some diff") (lit "gpt2")
     <> ModelCache.get_cache_key (lit "some diff") (lit "distilgpt2").
Proof.
  destruct (C4_distinct_models_hash_distinct_texts (lit "gpt2") (lit "distilgpt2")
              (lit "some diff")) as (_ & Henc & _ & _ & Hkeys).
  - repeat constructor.
  - repeat constructor.
  - repeat constructor.
  - discriminate.
  - split; [exact Henc|]. rewrite Hkeys. vm_compute. discriminate.
Defined.

(** ** One entry among the others *)

Lemma dict_set_set (d : list (str * json)) (k : str) (v v' : json) :
  dict_set (dict_set d k v) k v' = dict_set d k v'.
Proof.
  induction d as [|[k0 v0] r IH]; simpl.
  - now rewrite str_eqb_refl.
  - destruct (str_eqb k k0) eqn:E; simpl; rewrite E; [reflexivity | now rewrite IH].
Qed.

(** What [put] does to the disk when the key can be computed. *)
Lemma save_message_outputs (self : ModelCache.t) (fs : cache_fs) (t_fs now : Z)
    (diff model text : str) :
  wf_str model -> wf_str (firstn 500 diff) ->
  outputs (snd (ModelCache.save_message self fs t_fs now diff model text))
  = <[ModelCache.cache_file (key_of diff model) := File (snd (write_text text)) t_fs]>
      (outputs fs)
  /\ models (snd (ModelCache.save_message self fs t_fs now diff model text)) = models fs.
Proof.
  intros Hm Hd. unfold ModelCache.save_message. rewrite get_cache_key_wf by assumption.
  destruct (write_text text) as [[[]|e] b]; cbn [snd].
  - destruct (py_setitem _ _ _); split; reflexivity.
  - split; reflexivity.
Qed.

(** X1.  [put] for one (model, diff) leaves every entry with another key as
    it was: [get] for it returns what it returned before, whether or not
    the [put] raised; and the model info files are not touched. *)
Theorem X1_put_leaves_other_entries (self : ModelCache.t) (fs : cache_fs) (t_fs now now' : Z)
    (diff model text diff2 model2 : str) :
  wf_str model -> wf_str (firstn 500 diff) -> wf_str model2 -> wf_str (firstn 500 diff2) ->
  key_of diff2 model2 <> key_of diff model ->
  let fs' := snd (ModelCache.save_message self fs t_fs now diff model text) in
  ModelCache.get_cached_message fs' now' diff2 model2
  = ModelCache.get_cached_message fs now' diff2 model2
  /\ models fs' = models fs.
Proof.
  intros Hm Hd Hm2 Hd2 Hne fs'.
  destruct (save_message_outputs self fs t_fs now diff model text Hm Hd) as [Hout Hmod].
  fold fs' in Hout, Hmod. split; [|exact Hmod].
  unfold ModelCache.get_cached_message. rewrite get_cache_key_wf by assumption.
  cbn [rbind]. rewrite Hout, lookup_insert_ne; [reflexivity|].
  intros Heq%cache_file_inj. congruence.
Qed.

Lemma X1_put_leaves_other_entries_witness :
  let fs0 := CacheFs ∅ ∅ None in
  let r1 := ModelCache.save_message (ModelCache.__init__ fs0) fs0 100 100
              (lit "some diff") (lit "gpt2") (lit "fix: typo") in
  let r2 := ModelCache.save_message (ModelCache.__init__ fs0) (snd r1) 200 200
              (lit "other diff") (lit "gpt2") (lit "feat: parser") in
  ModelCache.get_cached_message (snd r2) 300 (lit "some diff") (lit "gpt2")
  = Ok (Some (lit "fix: typo")).
Proof.
  intros fs0 r1 r2.
  destruct (X1_put_leaves_other_entries (ModelCache.__init__ fs0) (snd r1) 200 200 300
              (lit "other diff") (lit "gpt2") (lit "feat: parser")
              (lit "some diff") (lit "gpt2")) as [Hget _].
  - apply wf_str_forallb. reflexivity.
  - apply wf_str_forallb. reflexivity.
  - apply wf_str_forallb. reflexivity.
  - apply wf_str_forallb. reflexivity.
  - vm_compute. discriminate.
  - fold r2 in Hget. rewrite Hget. vm_compute. reflexivity.
Defined.

(** X2.  Two diffs with the same first 500 characters share one entry: a
    [put] for the second overwrites what a [put] for the first stored, blob
    and record, so that nothing of the first [put] is left. *)
Theorem X2_put_overwrites (self : ModelCache.t) (fs : cache_fs) (t1 now1 t2 now2 : Z)
    (diff diff' model text1 text2 : str) (d : list (str * json)) :
  wf_str model -> wf_str (firstn 500 diff) -> wf_str text1 -> wf_str text2 ->
  firstn 500 diff = firstn 500 diff' ->
  ModelCache.metadata self = JObj d ->
  exists self1,
    fst (ModelCache.save_message self fs t1 now1 diff model text1) = Ok self1
    /\ ModelCache.save_message self1
         (snd (ModelCache.save_message self fs t1 now1 diff model text1))
         t2 now2 diff' model text2
       = ModelCache.save_message self fs t2 now2 diff' model text2.
Proof.
  intros Hm Hd Ht1 Ht2 Hprefix Hmeta.
  assert (Hd' : wf_str (firstn 500 diff')) by now rewrite <- Hprefix.
  assert (Hkey : key_of diff' model = key_of diff model)
    by (unfold key_of; now rewrite Hprefix).
  unfold ModelCache.save_message.
  rewrite !get_cache_key_wf, !write_text_wf, Hmeta by assumption.
  cbn [py_setitem fst snd]. eexists. split; [reflexivity|].
  cbn [ModelCache.metadata py_setitem ModelCache._save_metadata outputs models metadata_file].
  rewrite Hkey, dict_set_set, insert_insert_eq. reflexivity.
Qed.

Lemma X2_put_overwrites_witness :
  let fs0 := CacheFs ∅ ∅ None in
  let long := repeat 97%N 500 in
  let r1 := ModelCache.save_message (ModelCache.__init__ fs0) fs0 100 100
              (long ++ lit "x") (lit "gpt2") (lit "fix: typo") in
  exists self1,
    fst r1 = Ok self1
    /\ ModelCache.get_cached_message
         (snd (ModelCache.save_message self1 (snd r1) 200 200 (long ++ lit "yz") (lit "gpt2")
                 (lit "feat: parser")))
         300 (long ++ lit "x") (lit "gpt2")
       = Ok (Some (lit "feat: parser")).
Proof.
  intros fs0 long r1.
  destruct (X2_put_overwrites (ModelCache.__init__ fs0) fs0 100 100 200 200
              (long ++ lit "x") (long ++ lit "yz") (lit "gpt2") (lit "fix: typo")
              (lit "feat: parser") []) as (self1 & Hs1 & Htwice).
  - apply wf_str_forallb. reflexivity.
  - apply wf_str_forallb. vm_compute. reflexivity.
  - apply wf_str_forallb. reflexivity.
  - apply wf_str_forallb. reflexivity.
  - vm_compute. reflexivity.
  - reflexivity.
  - exists self1. split; [exact Hs1|]. fold r1 in Htwice. rewrite Htwice.
    vm_compute. reflexivity.
Defined.

(** ** A [put] that raises *)

Lemma py_setitem_not_mapping (v : json) (k : str) (x : json) :
  (forall d, v <> JObj d) -> exists e, py_setitem v k x = Raise e /\ exn_class e = "TypeError"%string.
Proof.
  intros Hv. destruct v; try (eexists; split; reflexivity). now destruct (Hv d).
Qed.

(** X3.  When the metadata is valid JSON but not a mapping (the metadata
    file holds a list, say), [put] raises [TypeError]; by then the blob is
    written, so a [get] within 24 hours returns it, and the metadata file is
    left as it was. *)
Theorem X3_put_with_metadata_not_a_mapping (self : ModelCache.t) (fs : cache_fs)
    (t_fs now now' : Z) (diff model text : str) :
  wf_str model -> wf_str (firstn 500 diff) -> wf_str text ->
  (forall d, ModelCache.metadata self <> JObj d) ->
  let r := ModelCache.save_message self fs t_fs now diff model text in
  (exists e, fst r = Raise e /\ exn_class e = "TypeError"%string)
  /\ metadata_file (snd r) = metadata_file fs
  /\ ((now' - t_fs < 86400)%Z ->
      ModelCache.get_cached_message (snd r) now' diff model
      = Ok (Some (universal_newlines text))).
Proof.
  intros Hm Hd Ht Hmeta r.
  destruct (py_setitem_not_mapping (ModelCache.metadata self) (key_of diff model)
              (JObj [(lit "model", JStr model);
                     (lit "timestamp", JNum (float_repr now));
                     (lit "diff_size", JNum (nat_repr (N.of_nat (length diff))))]) Hmeta)
    as (e & He & Hcls).
  assert (Hr : r = (Raise e,
                    CacheFs (<[ModelCache.cache_file (key_of diff model)
                               := File (Utf8.encode text) t_fs]> (outputs fs))
                            (models fs) (metadata_file fs))).
  { subst r. unfold ModelCache.save_message.
    now rewrite get_cache_key_wf, write_text_wf, He by assumption. }
  rewrite Hr. cbn [fst snd metadata_file]. split; [eauto|]. split; [reflexivity|].
  intros Hfresh. unfold ModelCache.get_cached_message.
  rewrite get_cache_key_wf by assumption. cbn [rbind outputs].
  rewrite lookup_insert_eq. cbn [mtime content]. apply Z.ltb_lt in Hfresh.
  now rewrite Hfresh, read_text_encode.
Qed.

Lemma X3_put_with_metadata_not_a_mapping_witness :
  let fs := CacheFs ∅ ∅ (Some (lit "[]")) in
  let r := ModelCache.save_message (ModelCache.__init__ fs) fs 100 100
             (lit "some diff") (lit "gpt2") (lit "fix: typo") in
  (exists e, fst r = Raise e /\ exn_class e = "TypeError"%string)
  /\ ModelCache.get_cached_message (snd r) 200 (lit "some diff") (lit "gpt2")
     = Ok (Some (lit "fix: typo")).
Proof.
  intros fs r.
  destruct (X3_put_with_metadata_not_a_mapping (ModelCache.__init__ fs) fs 100 100 200
              (lit "some diff") (lit "gpt2") (lit "fix: typo")) as (Hraise & _ & Hget).
  - apply wf_str_forallb. reflexivity.
  - apply wf_str_forallb. reflexivity.
  - apply wf_str_forallb. reflexivity.
  - intros d. vm_compute. discriminate.
  - split; [exact Hraise|]. fold r in Hget. rewrite Hget by lia. reflexivity.
Defined.

Lemma py_encode_raises (s : str) :
  ~ wf_str s -> exists e, py_encode s = Raise e /\ exn_class e = "UnicodeEncodeError"%string.
Proof.
  intros H. unfold py_encode. destruct (forallb Utf8.scalar s) eqn:Hs.
  - now apply wf_str_forallb in Hs.
  - eexists. split; reflexivity.
Qed.

(** X4.  A message with a lone surrogate cannot be written: [put] raises
    [UnicodeEncodeError] after the blob has been opened for writing, so the
    entry now holds the empty text (whatever it held before), [get] returns
    that empty text while it is fresh, and the metadata is not updated. *)
Theorem X4_put_of_unencodable_text_empties_the_entry (self : ModelCache.t) (fs : cache_fs)
    (t_fs now now' : Z) (diff model text : str) :
  wf_str model -> wf_str (firstn 500 diff) -> ~ wf_str text ->
  let r := ModelCache.save_message self fs t_fs now diff model text in
  (exists e, fst r = Raise e /\ exn_class e = "UnicodeEncodeError"%string)
  /\ outputs (snd r) !! ModelCache.cache_file (key_of diff model) = Some (File [] t_fs)
  /\ metadata_file (snd r) = metadata_file fs
  /\ ((now' - t_fs < 86400)%Z ->
      ModelCache.get_cached_message (snd r) now' diff model = Ok (Some [])).
Proof.
  intros Hm Hd Ht r. destruct (py_encode_raises text Ht) as (e & He & Hcls).
  assert (Hr : r = (Raise e,
                    CacheFs (<[ModelCache.cache_file (key_of diff model) := File [] t_fs]>
                               (outputs fs))
                            (models fs) (metadata_file fs))).
  { subst r. unfold ModelCache.save_message, write_text.
    now rewrite get_cache_key_wf, He by assumption. }
  rewrite Hr. cbn [fst snd metadata_file outputs]. split; [eauto|].
  split; [apply lookup_insert_eq|]. split; [reflexivity|].
  intros Hfresh. unfold ModelCache.get_cached_message.
  rewrite get_cache_key_wf by assumption. cbn [rbind outputs].
  rewrite lookup_insert_eq. cbn [mtime content]. apply Z.ltb_lt in Hfresh.
  now rewrite Hfresh.
Qed.

Lemma X4_put_of_unencodable_text_empties_the_entry_witness :
  let fs0 := CacheFs ∅ ∅ None in
  let r1 := ModelCache.save_message (ModelCache.__init__ fs0) fs0 100 100
              (lit "some diff") (lit "gpt2") (lit "fix: typo") in
  let r2 := ModelCache.save_message (ModelCache.__init__ fs0) (snd r1) 200 200
              (lit "some diff") (lit "gpt2") [0xD800%N] in
  ModelCache.get_cached_message (snd r1) 300 (lit "some diff") (lit "gpt2")
  = Ok (Some (lit "fix: typo"))
  /\ ModelCache.get_cached_message (snd r2) 300 (lit "some diff") (lit "gpt2") = Ok (Some []).
Proof.
  intros fs0 r1 r2. split; [vm_compute; reflexivity|].
  destruct (X4_put_of_unencodable_text_empties_the_entry (ModelCache.__init__ fs0) (snd r1)
              200 200 300 (lit "some diff") (lit "gpt2") [0xD800%N]) as (_ & _ & _ & Hget).
  - apply wf_str_forallb. reflexivity.
  - apply wf_str_forallb. reflexivity.
  - intros H%wf_str_forallb. vm_compute in H. discriminate.
  - apply Hget. lia.
Defined.

(** ** Clearing twice, and a clearing that raises *)

Lemma filter_filter_same {A} (p : A -> bool) (l : list A) :
  List.filter p (List.filter p l) = List.filter p l.
Proof.
  induction l as [|x l IH]; simpl; [reflexivity|].
  destruct (p x) eqn:E; simpl; [rewrite E; now f_equal | exact IH].
Qed.

Lemma Forall_filter_keep {A} (P : A -> Prop) (p : A -> bool) (l : list A) :
  Forall P l -> Forall P (List.filter p l).
Proof.
  induction 1 as [|x l Hx _ IH]; simpl; [constructor|].
  destruct (p x); [now constructor | exact IH].
Qed.

Lemma unlink_old_twice (cutoff : Float.t) (dir : gmap str file) :
  ModelCache.unlink_old cutoff (ModelCache.unlink_old cutoff dir)
  = ModelCache.unlink_old cutoff dir.
Proof.
  apply map_eq. intros name. rewrite !unlink_old_lookup.
  destruct (dir !! name) as [f|]; [|reflexivity].
  destruct (ends_with (lit ".txt") name && Float.ltb (Float.of_Z (mtime f)) cutoff) eqn:E;
    [reflexivity|].
  now rewrite E.
Qed.

(** X5.  Clearing is idempotent: for a span of days within the whole numbers
    that a double holds, [clear_old_cache] returns, and a second call with
    the same clock and the same number of days deletes nothing more, keeps
    the same records and writes the same metadata file. *)
Theorem X5_clear_twice (self : ModelCache.t) (fs : cache_fs) (now days : Z)
    (d : list (str * json)) :
  (Z.abs (days * 86400) < 2 ^ 53)%Z ->
  ModelCache.metadata self = JObj d ->
  distinct_keys d ->
  Forall (fun kv => testable (snd kv)) d ->
  exists self1 fs1,
    ModelCache.clear_old_cache self fs now days = (Ok self1, fs1)
    /\ ModelCache.clear_old_cache self1 fs1 now days = (Ok self1, fs1).
Proof.
  intros Hdays Hmeta Hkeys Hok.
  destruct (cutoff_time_defined now days Hdays) as [cutoff Hc].
  eexists _, _. split.
  - apply (clear_old_cache_result self fs now days cutoff d); assumption.
  - erewrite clear_old_cache_result.
    + cbn [outputs models]. now rewrite filter_filter_same, unlink_old_twice.
    + exact Hc.
    + reflexivity.
    + now apply distinct_keys_filter.
    + now apply Forall_filter_keep.
Qed.

Lemma X5_clear_twice_witness :
  let fs0 := CacheFs ∅ ∅ None in
  let r := ModelCache.save_message (ModelCache.__init__ fs0) fs0 100 100
             (lit "some diff") (lit "gpt2") (lit "fix: typo") in
  exists self0 self1 fs1,
    fst r = Ok self0
    /\ ModelCache.clear_old_cache self0 (snd r) 90000 1 = (Ok self1, fs1)
    /\ ModelCache.clear_old_cache self1 fs1 90000 1 = (Ok self1, fs1)
    /\ outputs fs1 !! ModelCache.cache_file (key_of (lit "some diff") (lit "gpt2")) = None.
Proof.
  intros fs0 r.
  assert (Hr : exists self0, fst r = Ok self0
                 /\ ModelCache.metadata self0
                    = JObj [(key_of (lit "some diff") (lit "gpt2"),
                             JObj [(lit "model", JStr (lit "gpt2"));
                                   (lit "timestamp", JNum (float_repr 100));
                                   (lit "diff_size", JNum (lit "9"))])]).
  { eexists. split; vm_compute; reflexivity. }
  destruct Hr as (self0 & Hs0 & Hm0).
  destruct (X5_clear_twice self0 (snd r) 90000 1 _ ltac:(vm_compute; reflexivity) Hm0)
    as (self1 & fs1 & H1 & H2).
  - split; [reflexivity | exact I].
  - repeat constructor. cbn [snd]. eapply testable_intro with (cutoff := Float.of_Z 0).
    vm_compute. reflexivity.
  - exists self0, self1, fs1. split; [exact Hs0|]. split; [exact H1|]. split; [exact H2|].
    apply (f_equal snd) in H1. cbn [snd] in H1. subst fs1.
    rewrite clear_old_cache_blobs by (split; vm_compute; reflexivity). subst r.
    rewrite save_message_blob by (apply wf_str_forallb; reflexivity).
    rewrite cache_file_txt. reflexivity.
Defined.

Lemma keep_recent_raises (cutoff : Float.t) (items acc : list (str * json)) :
  Exists (fun kv => exists e, ModelCache.is_recent cutoff (snd kv) = Raise e) items ->
  exists e, ModelCache.keep_recent cutoff items acc = Raise e.
Proof.
  revert acc. induction items as [|[k info] r IH]; intros acc H.
  - inversion H.
  - cbn [ModelCache.keep_recent]. destruct (ModelCache.is_recent cutoff info) as [b|e] eqn:Hb.
    + cbn [rbind]. apply IH. inversion H as [? ? [e He] | ? ? Hr]; subst; [|exact Hr].
      cbn [snd] in He. congruence.
    + eexists. reflexivity.
Qed.

(** X6.  [clear_old_cache] is not atomic.  For a clock reading and a span of
    days that doubles hold exactly, it raises when the metadata is not a
    mapping ([AttributeError]) or when the test of some record raises (a
    record that is not a mapping, a time stamp that is not a number);
    whenever it then raises, the old blobs are already deleted while the
    metadata file is left as it was, still listing them.  For a span beyond
    the range of a [float] it raises [OverflowError] before anything is
    deleted. *)
Theorem X6_failed_clear_has_deleted_blobs (self : ModelCache.t) (fs : cache_fs)
    (now days : Z) :
  let cutoff := (now - days * 86400)%Z in
  let r := ModelCache.clear_old_cache self fs now days in
  (exact_clock now days ->
   ((forall d, ModelCache.metadata self <> JObj d) ->
    exists e, fst r = Raise e /\ exn_class e = "AttributeError"%string)
   /\ (forall d, ModelCache.metadata self = JObj d ->
         Exists (fun kv => exists e,
                   ModelCache.is_recent (Float.of_Z cutoff) (snd kv) = Raise e) d ->
         exists e, fst r = Raise e)
   /\ (forall e, fst r = Raise e ->
         metadata_file (snd r) = metadata_file fs
         /\ models (snd r) = models fs
         /\ forall (name : str) (f : file),
              outputs fs !! name = Some f -> ends_with (lit ".txt") name = true ->
              (mtime f < cutoff)%Z -> outputs (snd r) !! name = None))
  /\ ((2 ^ 1024 <= Z.abs (days * 86400))%Z ->
      r = (raise "OverflowError" "int too large to convert to float", fs)).
Proof.
  intros cutoff r. split.
  - intros Hclock. pose proof (cutoff_time_exact now days Hclock) as Hc. fold cutoff in Hc.
    split; [|split].
    + intros Hmeta. subst r. unfold ModelCache.clear_old_cache. rewrite Hc.
      destruct (ModelCache.metadata self) as [| | | | |d]; try (eexists; split; reflexivity).
      now destruct (Hmeta d).
    + intros d Hmeta Hbad. subst r. unfold ModelCache.clear_old_cache.
      rewrite Hc, Hmeta. cbn [py_items rbind].
      destruct (keep_recent_raises (Float.of_Z cutoff) d [] Hbad) as (e & ->). eauto.
    + intros e He.
      assert (Hfs : metadata_file (snd r) = metadata_file fs /\ models (snd r) = models fs).
      { revert He. subst r. unfold ModelCache.clear_old_cache. rewrite Hc.
        destruct (rbind _ _); [discriminate|]. now split. }
      destruct Hfs as [Hmf Hmod]. split; [exact Hmf|]. split; [exact Hmod|].
      intros name f Hf Htxt Hold. subst r.
      rewrite clear_old_cache_blobs, Hf, Htxt by exact Hclock.
      assert ((days * 86400 <? now - mtime f)%Z = true) as ->
        by (apply Z.ltb_lt; subst cutoff; lia).
      reflexivity.
  - intros Hbig. subst r. unfold ModelCache.clear_old_cache.
    now rewrite cutoff_time_overflow.
Qed.

Lemma X6_failed_clear_has_deleted_blobs_witness :
  let blob := ModelCache.cache_file (key_of (lit "some diff") (lit "gpt2")) in
  let fs := CacheFs {[ blob := File (lit "fix: typo") 100 ]} ∅ (Some (lit "[]")) in
  let r := ModelCache.clear_old_cache (ModelCache.__init__ fs) fs 90000 1 in
  (exists e, fst r = Raise e /\ exn_class e = "AttributeError"%string)
  /\ outputs (snd r) !! blob = None
  /\ metadata_file (snd r) = Some (lit "[]")
  /\ ModelCache.clear_old_cache (ModelCache.__init__ fs) fs 90000 (10 ^ 400)
     = (raise "OverflowError" "int too large to convert to float", fs).
Proof.
  intros blob fs r.
  destruct (X6_failed_clear_has_deleted_blobs (ModelCache.__init__ fs) fs 90000 1)
    as (Hexact & _).
  destruct Hexact as (Hraise & _ & Hleft); [split; vm_compute; reflexivity|].
  destruct Hraise as (e & He & Hcls); [intros d; vm_compute; discriminate|].
  destruct (Hleft e He) as (Hmf & _ & Hdel).
  split; [eauto|]. split; [|split; [exact Hmf|]].
  - apply (Hdel blob (File (lit "fix: typo") 100)).
    + apply lookup_singleton_eq.
    + apply cache_file_txt.
    + simpl. lia.
  - apply (X6_failed_clear_has_deleted_blobs (ModelCache.__init__ fs) fs 90000 (10 ^ 400)).
    vm_compute. discriminate.
Defined.

(** ** A miss, then a hit *)

Lemma universal_newlines_nonempty (s : str) : s <> [] -> universal_newlines s <> [].
Proof.
  destruct s as [|c r]; [easy|]. intros _. cbn [universal_newlines].
  destruct (N.eqb c 13); discriminate.
Qed.

(** The miss path of [generate], step by step. *)
Lemma generate_miss (lib : engine_classes) (t_fs now : Z) (diff : str)
    (st : CachedLLMClient.state) :
  is_miss (ModelCache.get_cached_message (CachedLLMClient.fs_ st) now diff
             (CachedLLMClient.model_name (CachedLLMClient.self_ st))) ->
  CachedLLMClient.generate_commit_message lib t_fs now diff st
  = match CachedLLMClient._get_llm_client lib now st with
    | (Raise e, st1) => (Raise e, st1)
    | (Ok client, st1) =>
        match client (JStr diff) with
        | Raise e => (Raise e, st1)
        | Ok message =>
            let self := CachedLLMClient.self_ st1 in
            match ModelCache.save_message (CachedLLMClient.cache self)
                    (CachedLLMClient.fs_ st1) t_fs now diff
                    (CachedLLMClient.model_name self) message with
            | (Raise e, fs2) => (Raise e, CachedLLMClient.State self fs2
                                            (CachedLLMClient.stdout_ st1))
            | (Ok cache', fs2) =>
                (Ok message,
                 CachedLLMClient.State
                   (CachedLLMClient.Make (CachedLLMClient.config self) cache'
                      (CachedLLMClient.model_name self) (CachedLLMClient._llm_client self))
                   fs2 (CachedLLMClient.stdout_ st1))
            end
        end
    end.
Proof.
  intros [H | H]; unfold CachedLLMClient.generate_commit_message; now rewrite H.
Qed.

(** X7.  A message that [generate] has produced and stored is served from
    the cache for the next 24 hours: the next call with the same (model,
    diff) returns it, as text mode reads it back, prints the hit line, and
    neither builds nor calls an engine, whatever the engine classes would
    do. *)
Theorem X7_generate_then_hit (lib lib' : engine_classes) (t_fs now t_fs' now' : Z)
    (diff message : str) (st st' : CachedLLMClient.state) :
  let model := CachedLLMClient.model_name (CachedLLMClient.self_ st) in
  wf_str model -> wf_str diff -> wf_str message -> message <> [] ->
  is_miss (ModelCache.get_cached_message (CachedLLMClient.fs_ st) now diff model) ->
  CachedLLMClient.generate_commit_message lib t_fs now diff st = (Ok message, st') ->
  (now' - t_fs < 86400)%Z ->
  CachedLLMClient.generate_commit_message lib' t_fs' now' diff st'
  = (Ok (universal_newlines message),
     CachedLLMClient.State (CachedLLMClient.self_ st') (CachedLLMClient.fs_ st')
       (CachedLLMClient.stdout_ st' ++ [hit_line])).
Proof.
  intros model Hm Hd Hmsg Hne Hmiss Hgen Hfresh.
  pose proof (wf_str_take 500 diff Hd) as Hd'.
  rewrite generate_miss in Hgen by exact Hmiss.
  destruct (CachedLLMClient._get_llm_client lib now st) as [[client|e] st1] eqn:Hclient;
    [|discriminate].
  destruct (get_llm_client_ok _ _ _ _ _ Hclient) as (_ & _ & Hname & _ & _).
  destruct (client (JStr diff)) as [message'|e]; [|discriminate].
  cbn zeta in Hgen. rewrite Hname in Hgen. fold model in Hgen.
  pose proof (save_message_blob
                (CachedLLMClient.cache (CachedLLMClient.self_ st1)) (CachedLLMClient.fs_ st1)
                t_fs now diff model message' Hm Hd') as Hblob.
  destruct (ModelCache.save_message _ _ t_fs now diff model message') as [[cache'|e] fs2];
    [|discriminate].
  injection Hgen as -> <-. cbn [snd] in Hblob. specialize (Hblob Hmsg).
  assert (Hget : ModelCache.get_cached_message fs2 now' diff model
                 = Ok (Some (universal_newlines message))).
  { unfold ModelCache.get_cached_message. rewrite get_cache_key_wf by assumption.
    cbn [rbind]. rewrite Hblob. cbn [mtime content]. apply Z.ltb_lt in Hfresh.
    now rewrite Hfresh, read_text_encode. }
  unfold CachedLLMClient.generate_commit_message.
  cbn [CachedLLMClient.fs_ CachedLLMClient.self_ CachedLLMClient.model_name
       CachedLLMClient.stdout_].
  rewrite Hget.
  destruct (universal_newlines message) as [|c r] eqn:Hun.
  - now apply universal_newlines_nonempty in Hne.
  - reflexivity.
Qed.

Lemma X7_generate_then_hit_witness :
  let lib := EngineClasses (fun _ => raise "RuntimeError" "unused")
                           (fun _ => raise "RuntimeError" "unused")
                           (fun _ => Ok (fun _ => Ok (lit "feat: add parser"))) in
  let broken := EngineClasses (fun _ => raise "RuntimeError" "no engine")
                              (fun _ => raise "RuntimeError" "no engine")
                              (fun _ => raise "RuntimeError" "no engine") in
  let config := JObj [(lit "model", JStr (lit "gpt2"))] in
  let fs := CacheFs ∅ ∅ None in
  let st := CachedLLMClient.State
              (CachedLLMClient.Make config (ModelCache.__init__ fs) (lit "gpt2") None) fs [] in
  let st' := snd (CachedLLMClient.generate_commit_message lib 100 100 (lit "some diff") st) in
  fst (CachedLLMClient.generate_commit_message broken 200 200 (lit "some diff") st')
  = Ok (lit "feat: add parser").
Proof.
  intros lib broken config fs st st'.
  rewrite (X7_generate_then_hit lib broken 100 100 200 200 (lit "some diff")
             (lit "feat: add parser") st st').
  - reflexivity.
  - apply wf_str_forallb. reflexivity.
  - apply wf_str_forallb. reflexivity.
  - apply wf_str_forallb. reflexivity.
  - discriminate.
  - left. vm_compute. reflexivity.
  - vm_compute. reflexivity.
  - lia.
Defined.

(** X8.  A failure is not cached.  When the engine cannot be built,
    [generate] raises and the cache directory is as before; when the engine
    is built but raises on the diff, [generate] raises, no blob is written,
    and the engine is kept for the next call. *)
Theorem X8_failures_are_not_cached (lib : engine_classes) (t_fs now : Z) (diff : str)
    (st st1 : CachedLLMClient.state) (e : exn) :
  is_miss (ModelCache.get_cached_message (CachedLLMClient.fs_ st) now diff
             (CachedLLMClient.model_name (CachedLLMClient.self_ st))) ->
  (CachedLLMClient._get_llm_client lib now st = (Raise e, st1) ->
   CachedLLMClient.generate_commit_message lib t_fs now diff st = (Raise e, st1)
   /\ CachedLLMClient.fs_ st1 = CachedLLMClient.fs_ st
   /\ CachedLLMClient.self_ st1 = CachedLLMClient.self_ st)
  /\ (forall client,
        CachedLLMClient._get_llm_client lib now st = (Ok client, st1) ->
        client (JStr diff) = Raise e ->
        CachedLLMClient.generate_commit_message lib t_fs now diff st = (Raise e, st1)
        /\ outputs (CachedLLMClient.fs_ st1) = outputs (CachedLLMClient.fs_ st)
        /\ metadata_file (CachedLLMClient.fs_ st1) = metadata_file (CachedLLMClient.fs_ st)
        /\ CachedLLMClient._llm_client (CachedLLMClient.self_ st1) = Some client).
Proof.
  intros Hmiss. split.
  - intros Hclient. rewrite generate_miss, Hclient by exact Hmiss. split; [reflexivity|].
    revert Hclient. unfold CachedLLMClient._get_llm_client.
    destruct (CachedLLMClient._llm_client (CachedLLMClient.self_ st)); [discriminate|].
    destruct (CachedLLMClient.select_engine lib _) as [[c|e'] printed]; [discriminate|].
    intros [= _ <-]. now split.
  - intros client Hclient Hgen. rewrite generate_miss, Hclient, Hgen by exact Hmiss.
    split; [reflexivity|].
    destruct (get_llm_client_ok _ _ _ _ _ Hclient) as (Hc & _ & _ & _ & Hout).
    split; [exact Hout|]. split; [|exact Hc].
    revert Hclient. unfold CachedLLMClient._get_llm_client.
    destruct (CachedLLMClient._llm_client (CachedLLMClient.self_ st)).
    + now intros [= _ <-].
    + destruct (CachedLLMClient.select_engine lib _) as [[c|e'] printed]; [|discriminate].
      now intros [= _ <-].
Qed.

Lemma X8_failures_are_not_cached_witness :
  let failing := EngineClasses (fun _ => raise "RuntimeError" "unused")
                               (fun _ => raise "RuntimeError" "unused")
                               (fun _ => Ok (fun _ => raise "RuntimeError" "out of memory")) in
  let config := JObj [(lit "model", JStr (lit "gpt2"))] in
  let fs := CacheFs ∅ ∅ None in
  let st := CachedLLMClient.State
              (CachedLLMClient.Make config (ModelCache.__init__ fs) (lit "gpt2") None) fs [] in
  let r := CachedLLMClient.generate_commit_message failing 100 100 (lit "some diff") st in
  fst r = raise "RuntimeError" "out of memory"
  /\ outputs (CachedLLMClient.fs_ (snd r)) = ∅.
Proof.
  intros failing config fs st r.
  destruct (X8_failures_are_not_cached failing 100 100 (lit "some diff") st
              (snd (CachedLLMClient._get_llm_client failing 100 st))
              (Exn "RuntimeError" (JStr (lit "out of memory")))) as [_ Hgen].
  - left. vm_compute. reflexivity.
  - destruct (Hgen (fun _ => raise "RuntimeError" "out of memory")) as (Hr & Hout & _).
    + reflexivity.
    + reflexivity.
    + fold r in Hr. rewrite Hr. split; [reflexivity|]. cbn [snd]. rewrite Hout. reflexivity.
Defined.

(** ** Number literals, read back *)

Lemma delimiter_no_digit (rest : str) : delimiter rest -> no_digit_ahead rest.
Proof. destruct rest; simpl; tauto. Qed.

Lemma span_digits_append (s rest : str) :
  no_digit_ahead rest ->
  Json.span_digits (s ++ rest)
  = (fst (Json.span_digits s), snd (Json.span_digits s) ++ rest).
Proof.
  intros Hrest. induction s as [|c s IH]; cbn [app Json.span_digits].
  - now rewrite span_digits_stop.
  - destruct (is_digit c); [|reflexivity].
    rewrite IH. now destruct (Json.span_digits s).
Qed.

Lemma span_digits_digits (s : str) :
  Forall (fun c => is_digit c = true) (fst (Json.span_digits s)).
Proof.
  induction s as [|c s IH]; cbn [Json.span_digits]; [constructor|].
  destruct (is_digit c) eqn:Hc; [|constructor].
  destruct (Json.span_digits s). cbn [fst] in *. now constructor.
Qed.

Lemma scan_frac_append (s rest : str) :
  delimiter rest ->
  Json.scan_frac (s ++ rest) = (fst (Json.scan_frac s), snd (Json.scan_frac s) ++ rest).
Proof.
  intros Hrest. destruct s as [|c s]; cbn [app].
  - destruct rest as [|c r]; [reflexivity|]. cbn [Json.scan_frac delimiter] in *.
    destruct Hrest as (_ & H46 & _). apply N.eqb_neq in H46. now rewrite H46.
  - cbn [Json.scan_frac]. destruct (c =? 46)%N; [|reflexivity].
    rewrite span_digits_append by now apply delimiter_no_digit.
    destruct (Json.span_digits s) as [[|d ds] r']; reflexivity.
Qed.

Lemma scan_exp_append (s rest : str) :
  delimiter rest ->
  Json.scan_exp (s ++ rest) = (fst (Json.scan_exp s), snd (Json.scan_exp s) ++ rest).
Proof.
  intros Hrest. pose proof (delimiter_no_digit rest Hrest) as Hnd.
  destruct s as [|c s]; cbn [app].
  - destruct rest as [|c r]; [reflexivity|]. cbn [Json.scan_exp delimiter] in *.
    destruct Hrest as (_ & _ & H101 & H69 & _). apply N.eqb_neq in H101, H69.
    now rewrite H101, H69.
  - cbn [Json.scan_exp]. destruct ((c =? 101) || (c =? 69))%N; [|reflexivity].
    destruct s as [|c' s']; cbn [app].
    + destruct rest as [|c1 r1]; [reflexivity|]. cbn [delimiter] in Hrest.
      destruct Hrest as (Hd & _ & _ & _ & H43 & H45). apply N.eqb_neq in H43, H45.
      rewrite H43, H45. cbn [orb Json.span_digits]. now rewrite Hd.
    + destruct ((c' =? 43) || (c' =? 45))%N.
      * rewrite span_digits_append by exact Hnd.
        destruct (Json.span_digits s') as [[|d ds] r']; reflexivity.
      * change (c' :: s' ++ rest) with ((c' :: s') ++ rest).
        rewrite span_digits_append by exact Hnd.
        destruct (Json.span_digits (c' :: s')) as [[|d ds] r']; reflexivity.
Qed.

Lemma scan_number_parts_append (s rest : str) :
  delimiter rest ->
  Json.scan_number_parts (s ++ rest)
  = match Json.scan_number_parts s with
    | Some (p, r) => Some (p, r ++ rest)
    | None => None
    end.
Proof.
  intros Hrest. pose proof (delimiter_no_digit rest Hrest) as Hnd.
  assert (Hbody : forall neg s1,
             match s1 ++ rest with
             | c :: r =>
                 let int_rest :=
                   if (c =? 48)%N then Some ([c], r)
                   else if is_digit c
                        then let '(ds, r') := Json.span_digits r in Some (c :: ds, r')
                        else None in
                 match int_rest with
                 | Some (i, r1) =>
                     let '(fr, r2) := Json.scan_frac r1 in
                     let '(ex, r3) := Json.scan_exp r2 in
                     Some (Json.NumParts neg i fr ex, r3)
                 | None => None
                 end
             | [] => None
             end
             = match
                 match s1 with
                 | c :: r =>
                     let int_rest :=
                       if (c =? 48)%N then Some ([c], r)
                       else if is_digit c
                            then let '(ds, r') := Json.span_digits r in Some (c :: ds, r')
                            else None in
                     match int_rest with
                     | Some (i, r1) =>
                         let '(fr, r2) := Json.scan_frac r1 in
                         let '(ex, r3) := Json.scan_exp r2 in
                         Some (Json.NumParts neg i fr ex, r3)
                     | None => None
                     end
                 | [] => None
                 end
               with
               | Some (p, r) => Some (p, r ++ rest)
               | None => None
               end).
  { intros neg [|c r]; cbn [app].
    - destruct rest as [|c r]; [reflexivity|]. cbn [delimiter] in Hrest.
      destruct Hrest as (Hd & _). destruct (N.eqb_spec c 48) as [-> | _]; [discriminate|].
      now rewrite Hd.
    - assert (Htail : forall i r1,
                 (let '(fr, r2) := Json.scan_frac (r1 ++ rest) in
                  let '(ex, r3) := Json.scan_exp r2 in
                  Some (Json.NumParts neg i fr ex, r3))
                 = match (let '(fr, r2) := Json.scan_frac r1 in
                          let '(ex, r3) := Json.scan_exp r2 in
                          Some (Json.NumParts neg i fr ex, r3)) with
                   | Some (p, r) => Some (p, r ++ rest)
                   | None => None
                   end).
      { intros i r1. rewrite scan_frac_append by exact Hrest.
        destruct (Json.scan_frac r1) as [fr r2]. cbn [fst snd].
        rewrite scan_exp_append by exact Hrest.
        now destruct (Json.scan_exp r2) as [ex r3]. }
      cbv zeta. destruct (c =? 48)%N; [apply Htail|].
      destruct (is_digit c); [|reflexivity].
      rewrite span_digits_append by exact Hnd.
      destruct (Json.span_digits r) as [ds r']. apply Htail. }
  unfold Json.scan_number_parts. destruct s as [|c s]; cbn [app].
  - destruct rest as [|c r]; [reflexivity|].
    assert (H45 : (c =? 45)%N = false).
    { cbn [delimiter] in Hrest. apply N.eqb_neq. tauto. }
    rewrite H45. exact (Hbody false []).
  - destruct (c =? 45)%N.
    + exact (Hbody true s).
    + exact (Hbody false (c :: s)).
Qed.

Lemma scan_number_append (l rest : str) :
  Json.scan_number l = Some (l, []) -> delimiter rest ->
  Json.scan_number (l ++ rest) = Some (l, rest).
Proof.
  unfold Json.scan_number. intros Hl Hrest.
  rewrite scan_number_parts_append by exact Hrest.
  destruct (Json.scan_number_parts l) as [[p r]|]; [|discriminate].
  injection Hl as Hp ->. now rewrite Hp.
Qed.

(** A scanned literal is made of the characters of numbers and starts with
    a digit or a minus sign. *)
Lemma scan_number_parts_chars (s : str) (p : Json.num_parts) (r : str) :
  Json.scan_number_parts s = Some (p, r) ->
  Forall (fun c => number_char c = true) (Json.parts_text p)
  /\ exists c t, Json.parts_text p = c :: t /\ (is_digit c = true \/ c = 45%N).
Proof.
  assert (Hdig : forall l, Forall (fun c => is_digit c = true) l ->
                           Forall (fun c => number_char c = true) l).
  { intros l H. eapply Forall_impl; [exact H|].
    intros c Hc. unfold number_char. now rewrite Hc. }
  assert (Hfrac : forall r1, Forall (fun c => is_digit c = true) (fst (Json.scan_frac r1))).
  { intros [|c r1]; cbn [Json.scan_frac]; [constructor|].
    destruct (c =? 46)%N; [|constructor].
    pose proof (span_digits_digits r1) as H.
    destruct (Json.span_digits r1) as [[|d ds] r']; [constructor | exact H]. }
  assert (Hexp : forall r2, Forall (fun c => number_char c = true) (fst (Json.scan_exp r2))).
  { intros [|c r2]; cbn [Json.scan_exp]; [constructor|].
    destruct ((c =? 101) || (c =? 69))%N eqn:He; [|constructor].
    assert (Hc : number_char c = true).
    { unfold number_char. apply orb_true_iff in He as [-> | ->];
        rewrite ?orb_true_r; reflexivity. }
    destruct r2 as [|c' r'].
    - cbn. constructor.
    - destruct ((c' =? 43) || (c' =? 45))%N eqn:Hs.
      + pose proof (span_digits_digits r') as H.
        destruct (Json.span_digits r') as [[|d ds] r3]; [constructor|]. cbn [fst] in *.
        constructor; [exact Hc|]. constructor; [|now apply Hdig].
        unfold number_char. apply orb_true_iff in Hs as [-> | ->];
          rewrite ?orb_true_r; reflexivity.
      + pose proof (span_digits_digits (c' :: r')) as H.
        destruct (Json.span_digits (c' :: r')) as [[|d ds] r3]; [constructor|].
        cbn [fst app] in *. constructor; [exact Hc | now apply Hdig]. }
  assert (Hbody : forall neg s1,
             match s1 with
             | c :: r0 =>
                 let int_rest :=
                   if (c =? 48)%N then Some ([c], r0)
                   else if is_digit c
                        then let '(ds, r') := Json.span_digits r0 in Some (c :: ds, r')
                        else None in
                 match int_rest with
                 | Some (i, r1) =>
                     let '(fr, r2) := Json.scan_frac r1 in
                     let '(ex, r3) := Json.scan_exp r2 in
                     Some (Json.NumParts neg i fr ex, r3)
                 | None => None
                 end
             | [] => None
             end = Some (p, r) ->
             Json.p_neg p = neg
             /\ (exists c t, Json.p_int p = c :: t /\ is_digit c = true)
             /\ Forall (fun c => is_digit c = true) (Json.p_int p)
             /\ Forall (fun c => is_digit c = true) (Json.p_frac p)
             /\ Forall (fun c => number_char c = true) (Json.p_exp p)).
  { intros neg [|c r0]; [discriminate|]. cbv zeta.
    assert (Htail : forall i r1,
               (let '(fr, r2) := Json.scan_frac r1 in
                let '(ex, r3) := Json.scan_exp r2 in
                Some (Json.NumParts neg i fr ex, r3)) = Some (p, r) ->
               Json.p_neg p = neg /\ Json.p_int p = i
               /\ Forall (fun c => is_digit c = true) (Json.p_frac p)
               /\ Forall (fun c => number_char c = true) (Json.p_exp p)).
    { intros i r1. pose proof (Hfrac r1) as H1.
      destruct (Json.scan_frac r1) as [fr r2]. pose proof (Hexp r2) as H2.
      destruct (Json.scan_exp r2) as [ex r3]. intros [= <- _]. cbn in *. auto. }
    destruct (N.eqb_spec c 48) as [-> | Hc].
    - intros H. apply Htail in H as (Hn & Hi & Hf & He).
      rewrite Hi. split; [exact Hn|]. split; [eauto|]. split; [repeat constructor|].
      now split.
    - destruct (is_digit c) eqn:Hd; [|discriminate].
      pose proof (span_digits_digits r0) as Hds.
      destruct (Json.span_digits r0) as [ds r']. cbn [fst] in Hds.
      intros H. apply Htail in H as (Hn & Hi & Hf & He).
      rewrite Hi. split; [exact Hn|]. split; [eauto|]. split; [now constructor|].
      now split. }
  intros Hs.
  assert (Hp : (exists c t, Json.p_int p = c :: t /\ is_digit c = true)
               /\ Forall (fun c => is_digit c = true) (Json.p_int p)
               /\ Forall (fun c => is_digit c = true) (Json.p_frac p)
               /\ Forall (fun c => number_char c = true) (Json.p_exp p)).
  { revert Hs. unfold Json.scan_number_parts. destruct s as [|c s].
    - intros H. exact (proj2 (Hbody false [] H)).
    - destruct (c =? 45)%N; intros H.
      + exact (proj2 (Hbody true s H)).
      + exact (proj2 (Hbody false (c :: s) H)). }
  destruct Hp as ((c & t & Hi & Hc) & Hint & Hfr & Hex). unfold Json.parts_text. split.
  - rewrite !Forall_app. split; [destruct (Json.p_neg p); repeat constructor|].
    split; [now apply Hdig|]. split; [|exact Hex].
    destruct (Json.p_frac p) as [|d ds]; [constructor|].
    constructor; [reflexivity | now apply Hdig].
  - rewrite Hi. destruct (Json.p_neg p); cbn [app]; eauto.
Qed.

Lemma json_number_chars (l : str) :
  json_number l ->
  Forall (fun c => printable c = true) l
  /\ exists c t, l = c :: t
       /\ (is_digit c = true \/ c = 45%N \/ c = 78%N \/ c = 73%N).
Proof.
  intros [Hl | [-> | [-> | ->]]].
  - unfold Json.scan_number in Hl.
    destruct (Json.scan_number_parts l) as [[p r]|] eqn:Hp; [|discriminate].
    injection Hl as Hl ->. apply scan_number_parts_chars in Hp as [Hc (c & t & Ht & Hh)].
    rewrite Hl in *. split.
    + eapply Forall_impl; [exact Hc|]. intros x Hx. unfold number_char, is_digit in Hx.
      unfold printable. rewrite !orb_true_iff, andb_true_iff, !N.leb_le, !N.eqb_eq in Hx.
      rewrite andb_true_iff, !N.leb_le. lia.
    + exists c, t. split; [exact Ht | tauto].
  - split; [repeat constructor|]. eexists _, _. split; [reflexivity|]. auto.
  - split; [repeat constructor|]. eexists _, _. split; [reflexivity|]. auto.
  - split; [repeat constructor|]. eexists _, _. split; [reflexivity|]. auto.
Qed.

(** The numbers the program writes. *)
Lemma json_number_float (z : Z) : json_number (float_repr z).
Proof. left. rewrite <- (app_nil_r (float_repr z)) at 1. now apply scan_number_float. Qed.

(** ** Values that [json] writes and reads back *)

Lemma json_induction (P : json -> Prop) :
  P JNull -> (forall b, P (JBool b)) -> (forall l, P (JNum l)) -> (forall s, P (JStr s)) ->
  (forall items, Forall P items -> P (JArr items)) ->
  (forall d, Forall (fun kv => P (snd kv)) d -> P (JObj d)) ->
  forall v, P v.
Proof.
  intros Hn Hb Hnum Hs Ha Ho.
  fix IH 1. intros [| b | l | s | items | d].
  - exact Hn.
  - apply Hb.
  - apply Hnum.
  - apply Hs.
  - apply Ha. induction items as [|x r IHr]; constructor; [apply IH | exact IHr].
  - apply Ho. induction d as [|[k x] r IHr]; constructor; [apply IH | exact IHr].
Qed.

Lemma wf_json_arr (items : list json) : wf_json (JArr items) <-> Forall wf_json items.
Proof.
  induction items as [|x r IH].
  - split; [constructor | easy].
  - split.
    + intros [Hx Hr]. constructor; [exact Hx | now apply IH].
    + intros H. inversion H; subst. split; [assumption | now apply IH].
Qed.

Lemma wf_json_obj (d : list (str * json)) :
  wf_json (JObj d)
  <-> distinct_keys d /\ Forall (fun kv => wf_str (fst kv) /\ wf_json (snd kv)) d.
Proof.
  cbn [wf_json]. apply and_iff_compat_l.
  induction d as [|[k x] r IH].
  - split; [constructor | easy].
  - split.
    + intros (Hk & Hx & Hr). constructor; [now split | now apply IH].
    + intros H. inversion H as [|? ? [Hk Hx] Hr]; subst. cbn in Hk, Hx.
      split; [assumption|]. split; [assumption | now apply IH].
Qed.

Lemma weight_arr (items : list json) : weight (JArr items) = S (weights items).
Proof. reflexivity. Qed.

Lemma weight_obj (d : list (str * json)) : weight (JObj d) = S (weights (map snd d)).
Proof.
  cbn [weight]. f_equal. induction d as [|[k x] r IH]; [reflexivity|].
  cbn [map snd weights fold_right]. f_equal. f_equal. exact IH.
Qed.

Lemma weight_pos (v : json) : 1 <= weight v.
Proof. destruct v; cbn [weight]; lia. Qed.

Lemma skip_ws_blank (b : str) (c : N) (r : str) :
  blank b -> Json.is_ws c = false -> Json.skip_ws (b ++ c :: r) = c :: r.
Proof.
  intros Hb Hc. induction Hb as [|x b Hx _ IH]; cbn [app].
  - now apply skip_ws_head.
  - unfold Json.skip_ws in *. cbn [drop_while]. now rewrite Hx.
Qed.

Lemma delimiter_blank (b : str) (c : N) (r : str) :
  blank b -> delimiter (c :: r) -> Json.is_ws c = false -> delimiter (b ++ c :: r).
Proof.
  intros Hb Hc _. destruct Hb as [|x b Hx _]; [exact Hc|]. cbn [app delimiter].
  unfold Json.is_ws in Hx. rewrite !orb_true_iff, !N.eqb_eq in Hx.
  unfold is_digit. rewrite andb_false_iff, !N.leb_gt. lia.
Qed.

(** The elements of a list, from the first one to the closing bracket. *)
Lemma parse_elements_join (pr : json -> str) (sep post : str) (items : list json) :
  blank sep -> blank post ->
  Forall (fun x => parses (pr x) x /\ value_head (pr x)) items ->
  items <> [] ->
  forall (acc : list json) (rest : str) (fuel : nat),
    weights items <= fuel ->
    Json.parse_elements fuel acc
      (join (44%N :: sep) (map pr items) ++ post ++ 93%N :: rest)
    = Some (JArr (rev acc ++ items), rest).
Proof.
  intros Hsep Hpost Hall. induction Hall as [|x r [Hx Hhead] Hr IH]; [easy|].
  intros _ acc rest fuel Hfuel. cbn [weights fold_right] in Hfuel.
  destruct fuel as [|f]; [lia|]. cbn [Json.parse_elements].
  destruct r as [|y r'].
  - cbn [map join]. rewrite Hx; [| cbn [weights fold_right] in Hfuel; lia |].
    + rewrite skip_ws_blank by (auto; reflexivity).
      cbn [N.eqb Pos.eqb]. cbn [rev]. reflexivity.
    + apply delimiter_blank; [exact Hpost | | reflexivity]. cbn. repeat split; discriminate.
  - change (map pr (x :: y :: r')) with (pr x :: map pr (y :: r')).
    change (join (44%N :: sep) (pr x :: map pr (y :: r')))
      with (pr x ++ (44%N :: sep) ++ join (44%N :: sep) (map pr (y :: r'))).
    rewrite <- !app_assoc. rewrite Hx; [| lia |].
    + cbn [app]. rewrite skip_ws_head by reflexivity. cbn [N.eqb Pos.eqb].
      inversion Hr as [|? ? [_ (c & t & Ht & Hc & _)] _]; subst.
      assert (Hskip : Json.skip_ws
                        (sep ++ join (44%N :: sep) (map pr (y :: r')) ++ post ++ 93%N :: rest)
                      = join (44%N :: sep) (map pr (y :: r')) ++ post ++ 93%N :: rest).
      { assert (Hj : exists t', join (44%N :: sep) (map pr (y :: r')) = c :: t').
        { cbn [map]. rewrite Ht. destruct (map pr r'); cbn [join app]; eauto. }
        destruct Hj as (t' & ->). cbn [app]. now apply skip_ws_blank. }
      rewrite Hskip, IH by (try discriminate; fold (weights (y :: r')) in Hfuel; lia).
      cbn [rev]. now rewrite <- app_assoc.
    + cbn. repeat split; discriminate.
Qed.

Lemma dict_get_app_None (a b : list (str * json)) (k : str) :
  dict_get a k = None -> dict_get b k = None -> dict_get (a ++ b) k = None.
Proof.
  intros Ha Hb. induction a as [|[k' v'] a IH]; cbn [app dict_get] in *; [exact Hb|].
  destruct (str_eqb k k'); [discriminate | now apply IH].
Qed.

(** The members of a mapping, from the first key to the closing brace. *)
Lemma parse_members_join (pr : json -> str) (sep post : str) (d : list (str * json)) :
  blank sep -> blank post ->
  Forall (fun kv => wf_str (fst kv) /\ parses (pr (snd kv)) (snd kv)
                    /\ value_head (pr (snd kv))) d ->
  d <> [] ->
  forall (acc : list (str * json)) (rest : str) (fuel : nat),
    distinct_keys d ->
    (forall k v, In (k, v) d -> dict_get acc k = None) ->
    weights (map snd d) <= fuel ->
    Json.parse_members fuel acc
      (join (44%N :: sep)
         (map (fun kv => Json.dumps_str (fst kv) ++ lit ": " ++ pr (snd kv)) d)
       ++ post ++ 125%N :: rest)
    = Some (JObj (acc ++ d), rest).
Proof.
  intros Hsep Hpost Hall. induction Hall as [|[k x] r (Hk & Hx & Hhead) Hr IH]; [easy|].
  intros _ acc rest fuel [Hfresh Hkeys] Hacc Hfuel. cbn [fst snd] in *.
  assert (Hfuel' : S (weight x) + weights (map snd r) <= fuel) by exact Hfuel.
  clear Hfuel. pose proof (weight_pos x) as Hpos.
  destruct fuel as [|[|f]]; [lia | lia |].
  destruct Hhead as (c & t & Ht & Hc & _).
  assert (Hset : dict_set acc k x = acc ++ [(k, x)])
    by (apply dict_set_fresh; eapply Hacc; now left).
  destruct r as [|[k' y] r'].
  - cbn [map join fst snd]. rewrite <- !app_assoc.
    rewrite (parse_member f acc k (pr x) (post ++ 125%N :: rest) x Hk).
    + rewrite skip_ws_blank by (auto; reflexivity). cbn [N.eqb Pos.eqb]. now rewrite Hset.
    + rewrite Ht. cbn [app]. now apply skip_ws_head.
    + apply Hx; [lia|]. apply delimiter_blank; [exact Hpost | | reflexivity].
      cbn. repeat split; discriminate.
  - change (map (fun kv => Json.dumps_str (fst kv) ++ lit ": " ++ pr (snd kv))
              ((k, x) :: (k', y) :: r'))
      with ((Json.dumps_str k ++ lit ": " ++ pr x)
              :: map (fun kv => Json.dumps_str (fst kv) ++ lit ": " ++ pr (snd kv))
                   ((k', y) :: r')).
    set (more := map (fun kv => Json.dumps_str (fst kv) ++ lit ": " ++ pr (snd kv))
                   ((k', y) :: r')) in *.
    assert (Hmore : exists t', join (44%N :: sep) more = 34%N :: t').
    { subst more. cbn [map fst]. unfold Json.dumps_str at 1. cbn [app].
      destruct (map _ r'); cbn [join app]; eauto. }
    destruct Hmore as (t' & Hmore).
    assert (Hjoin : join (44%N :: sep) ((Json.dumps_str k ++ lit ": " ++ pr x) :: more)
                    = (Json.dumps_str k ++ lit ": " ++ pr x)
                        ++ (44%N :: sep) ++ join (44%N :: sep) more).
    { subst more. reflexivity. }
    rewrite Hjoin, <- !app_assoc.
    rewrite (parse_member f acc k (pr x) _ x Hk).
    + cbn [app]. rewrite skip_ws_head by reflexivity. cbn [N.eqb Pos.eqb].
      rewrite Hmore. cbn [app]. rewrite skip_ws_blank by (auto; reflexivity).
      change (34%N :: t' ++ post ++ 125%N :: rest)
        with ((34%N :: t') ++ post ++ 125%N :: rest).
      rewrite <- Hmore, Hset, IH.
      * now rewrite <- app_assoc.
      * discriminate.
      * exact Hkeys.
      * intros k0 v0 Hin. apply dict_get_app_None; [eapply Hacc; right; exact Hin|].
        cbn [dict_get]. destruct (str_eqb k0 k) eqn:E; [|reflexivity].
        apply str_eqb_eq in E as ->. apply dict_get_In in Hin as [? Hin]. congruence.
      * lia.
    + rewrite Ht. cbn [app]. now apply skip_ws_head.
    + apply Hx; [lia|]. cbn. repeat split; discriminate.
Qed.

(** ** [json.loads] after [json.dumps] *)

Lemma blank_nl (level : nat) : blank (nl level).
Proof.
  unfold nl, blank. constructor; [reflexivity|].
  induction (2 * level) as [|n IH]; cbn [repeat]; constructor; [reflexivity | exact IH].
Qed.

Lemma dumps_indent_arr (level : nat) (x : json) (r : list json) :
  Json.dumps_indent level (JArr (x :: r))
  = 91%N :: nl (S level)
      ++ join (44%N :: nl (S level)) (map (Json.dumps_indent (S level)) (x :: r))
      ++ nl level ++ [93%N].
Proof. reflexivity. Qed.

Lemma dumps_indent_obj (level : nat) (kv : str * json) (r : list (str * json)) :
  Json.dumps_indent level (JObj (kv :: r))
  = 123%N :: nl (S level)
      ++ join (44%N :: nl (S level))
           (map (fun kv => Json.dumps_str (fst kv) ++ lit ": "
                             ++ Json.dumps_indent (S level) (snd kv)) (kv :: r))
      ++ nl level ++ [125%N].
Proof. reflexivity. Qed.

Lemma dumps_arr (items : list json) :
  Json.dumps (JArr items) = 91%N :: join (44%N :: [32%N]) (map Json.dumps items) ++ [93%N].
Proof. reflexivity. Qed.

Lemma dumps_obj (d : list (str * json)) :
  Json.dumps (JObj d)
  = 123%N :: join (44%N :: [32%N])
               (map (fun kv => Json.dumps_str (fst kv) ++ lit ": " ++ Json.dumps (snd kv)) d)
      ++ [125%N].
Proof. reflexivity. Qed.

(** Reading a number: the branch of [parse_value] for a text that starts
    with a digit or a minus sign. *)
Lemma parse_value_number (f : nat) (l rest : str) :
  Json.scan_number l = Some (l, []) -> delimiter rest ->
  Json.parse_value (S f) (l ++ rest) = Some (JNum l, rest).
Proof.
  intros Hl Hrest.
  assert (Hhead : exists c t, l = c :: t /\ (is_digit c = true \/ c = 45%N)).
  { unfold Json.scan_number in Hl.
    destruct (Json.scan_number_parts l) as [[p r]|] eqn:Hp; [|discriminate].
    injection Hl as Hl _. apply scan_number_parts_chars in Hp as [_ H]. now rewrite Hl in H. }
  destruct Hhead as (c & t & Hct & Hc).
  pose proof (scan_number_append l rest Hl Hrest) as Hscan.
  rewrite Hct in *. cbn [app] in *. cbn [Json.parse_value].
  assert (Hne : forall n : N, (n < 45 \/ 57 < n)%N -> (c =? n)%N = false /\ (n =? c)%N = false).
  { intros n Hn. rewrite !N.eqb_neq. unfold is_digit in Hc.
    rewrite andb_true_iff, !N.leb_le in Hc. lia. }
  destruct (Hne 34%N) as [-> _]; [lia|].
  destruct (Hne 123%N) as [-> _]; [lia|].
  destruct (Hne 91%N) as [-> _]; [lia|].
  assert (Hnull : starts_with (lit "null") (c :: t ++ rest) = false).
  { change (lit "null") with (110%N :: lit "ull"). cbn [starts_with].
    destruct (Hne 110%N) as [_ ->]; [lia | reflexivity]. }
  assert (Htrue : starts_with (lit "true") (c :: t ++ rest) = false).
  { change (lit "true") with (116%N :: lit "rue"). cbn [starts_with].
    destruct (Hne 116%N) as [_ ->]; [lia | reflexivity]. }
  assert (Hfalse : starts_with (lit "false") (c :: t ++ rest) = false).
  { change (lit "false") with (102%N :: lit "alse"). cbn [starts_with].
    destruct (Hne 102%N) as [_ ->]; [lia | reflexivity]. }
  now rewrite Hnull, Htrue, Hfalse, Hscan.
Qed.

Lemma head_join (sep : str) (c : N) (t : str) (texts : list str) :
  exists t', join sep ((c :: t) :: texts) = c :: t'.
Proof. destruct texts; cbn [join app]; eauto. Qed.

Lemma parse_value_bracket (f : nat) (s : str) :
  Json.parse_value (S f) (91%N :: s)
  = match Json.skip_ws s with
    | c' :: r' =>
        if (c' =? 93)%N then Some (JArr [], r') else Json.parse_elements f [] (c' :: r')
    | [] => None
    end.
Proof. reflexivity. Qed.

Lemma parse_value_brace (f : nat) (s : str) :
  Json.parse_value (S f) (123%N :: s)
  = match Json.skip_ws s with
    | c' :: r' =>
        if (c' =? 125)%N then Some (JObj [], r') else Json.parse_members f [] (c' :: r')
    | [] => None
    end.
Proof. reflexivity. Qed.

(** After an opening bracket: white space, then the first of the texts. *)
Lemma open_then_join (b sep post : str) (c : N) (t : str) (texts : list str) (close : N)
    (rest : str) (A : Type) (k : str -> A) (k0 : str -> A) (none : A) :
  blank b -> Json.is_ws c = false -> c <> close ->
  match Json.skip_ws ((b ++ join sep ((c :: t) :: texts) ++ post ++ [close]) ++ rest) with
  | c' :: r' => if (c' =? close)%N then k0 r' else k (c' :: r')
  | [] => none
  end
  = k (join sep ((c :: t) :: texts) ++ post ++ close :: rest).
Proof.
  intros Hb Hc Hne. destruct (head_join sep c t texts) as (t' & Hj). rewrite Hj.
  rewrite <- !app_assoc. cbn [app]. rewrite skip_ws_blank by assumption.
  apply N.eqb_neq in Hne. now rewrite Hne.
Qed.

(** Every value that [json.dumps] can write is read back by [json.loads],
    from the compact text and from the indented one. *)
Lemma parse_dumps (v : json) :
  wf_json v ->
  (forall level, parses (Json.dumps_indent level v) v
                 /\ value_head (Json.dumps_indent level v))
  /\ parses (Json.dumps v) v /\ value_head (Json.dumps v).
Proof.
  induction v as [| b | l | s | items IH | d IH] using json_induction; intros Hwf.
  - assert (H : parses (lit "null") JNull /\ value_head (lit "null")).
    { split.
      - intros rest [|f] Hf _; [cbn in Hf; lia | reflexivity].
      - eexists _, _. repeat split; try reflexivity; discriminate. }
    split; [intros level|]; exact H.
  - assert (H : parses (Json.dumps (JBool b)) (JBool b) /\ value_head (Json.dumps (JBool b))).
    { split.
      - intros rest [|f] Hf _; [cbn in Hf; lia | destruct b; reflexivity].
      - destruct b; eexists _, _; repeat split; try reflexivity; discriminate. }
    split; [intros level|]; exact H.
  - assert (H : parses l (JNum l) /\ value_head l).
    { cbn [wf_json] in Hwf. split.
      - intros rest [|f] Hf Hrest; [cbn in Hf; lia|].
        destruct Hwf as [Hl | [-> | [-> | ->]]]; [now apply parse_value_number | | |];
          reflexivity.
      - destruct (json_number_chars l Hwf) as (_ & c & t & -> & Hc).
        exists c, t. split; [reflexivity|].
        unfold Json.is_ws, is_digit in *.
        rewrite andb_true_iff, !N.leb_le in Hc.
        rewrite !orb_false_iff, !N.eqb_neq. lia. }
    split; [intros level|]; exact H.
  - assert (H : parses (Json.dumps_str s) (JStr s) /\ value_head (Json.dumps_str s)).
    { cbn [wf_json] in Hwf. split.
      - intros rest [|f] Hf _; [cbn in Hf; lia | now apply parse_value_str].
      - eexists _, _. repeat split; try reflexivity; discriminate. }
    split; [intros level|]; exact H.
  - apply wf_json_arr in Hwf.
    assert (Hitems : forall level,
               Forall (fun x => parses (Json.dumps_indent level x) x
                                /\ value_head (Json.dumps_indent level x)) items
               /\ Forall (fun x => parses (Json.dumps x) x /\ value_head (Json.dumps x)) items).
    { intros level. induction IH as [|x r Hx _ IHr]; [split; constructor|].
      inversion Hwf as [|? ? Hwx Hwr]; subst. destruct IHr as [Hr1 Hr2]; [assumption|].
      destruct (Hx Hwx) as [Hi Hc]. split; constructor; auto. }
    destruct items as [|x r].
    + assert (H : parses (lit "[]") (JArr []) /\ value_head (lit "[]")).
      { split.
        - intros rest [|f] Hf _; [cbn in Hf; lia | reflexivity].
        - eexists _, _. repeat split; try reflexivity; discriminate. }
      split; [intros level|]; exact H.
    + split; [intros level; split | split].
      * intros rest fuel Hfuel Hrest. rewrite weight_arr in Hfuel.
        destruct fuel as [|f]; [lia|]. rewrite dumps_indent_arr.
        destruct (Hitems (S level)) as [Hall _].
        inversion Hall as [|? ? [_ (c & t & Ht & Hc & H93 & _)] _]; subst.
        rewrite <- app_comm_cons, parse_value_bracket. cbn [map]. rewrite Ht.
        rewrite (open_then_join (nl (S level)) _ (nl level) c t _ 93%N rest _
                   (Json.parse_elements f [])) by (auto using blank_nl).
        rewrite <- Ht.
        apply (parse_elements_join (Json.dumps_indent (S level)) (nl (S level)) (nl level)
                 (x :: r) (blank_nl _) (blank_nl _) Hall ltac:(discriminate) [] rest f).
        lia.
      * eexists _, _. rewrite dumps_indent_arr.
        split; [reflexivity|]. repeat split; try reflexivity; discriminate.
      * intros rest fuel Hfuel Hrest. rewrite weight_arr in Hfuel.
        destruct fuel as [|f]; [lia|]. rewrite dumps_arr.
        destruct (Hitems 0) as [_ Hall].
        inversion Hall as [|? ? [_ (c & t & Ht & Hc & H93 & _)] _]; subst.
        rewrite <- app_comm_cons, parse_value_bracket. cbn [map]. rewrite Ht.
        pose proof (open_then_join [] (44%N :: [32%N]) [] c t (map Json.dumps r) 93%N rest _
                      (Json.parse_elements f []) (fun r' => Some (JArr [], r')) None
                      ltac:(constructor) Hc H93) as Hopen.
        refine (eq_trans Hopen _). rewrite <- Ht.
        apply (parse_elements_join Json.dumps [32%N] [] (x :: r)
                 ltac:(repeat constructor) ltac:(constructor) Hall ltac:(discriminate)
                 [] rest f).
        lia.
      * eexists _, _. rewrite dumps_arr.
        split; [reflexivity|]. repeat split; try reflexivity; discriminate.
  - apply wf_json_obj in Hwf as [Hkeys Hwf].
    assert (Hitems : forall level,
               Forall (fun kv => wf_str (fst kv)
                                 /\ parses (Json.dumps_indent level (snd kv)) (snd kv)
                                 /\ value_head (Json.dumps_indent level (snd kv))) d
               /\ Forall (fun kv => wf_str (fst kv)
                                    /\ parses (Json.dumps (snd kv)) (snd kv)
                                    /\ value_head (Json.dumps (snd kv))) d).
    { intros level. clear Hkeys. induction IH as [|kv r Hx _ IHr]; [split; constructor|].
      inversion Hwf as [|? ? [Hk Hv] Hr]; subst. destruct IHr as [Hr1 Hr2]; [assumption|].
      destruct (Hx Hv) as [Hi [Hcp Hch]]. split; constructor; auto. }
    destruct d as [|kv r].
    + assert (H : parses (lit "{}") (JObj []) /\ value_head (lit "{}")).
      { split.
        - intros rest [|f] Hf _; [cbn in Hf; lia | reflexivity].
        - eexists _, _. repeat split; try reflexivity; discriminate. }
      split; [intros level|]; exact H.
    + split; [intros level; split | split].
      * intros rest fuel Hfuel Hrest. rewrite weight_obj in Hfuel.
        destruct fuel as [|f]; [lia|]. rewrite dumps_indent_obj.
        destruct (Hitems (S level)) as [Hall _].
        rewrite <- app_comm_cons, parse_value_brace. cbn [map].
        unfold Json.dumps_str at 1. cbn [app].
        rewrite (open_then_join (nl (S level)) _ (nl level) 34%N _ _ 125%N rest _
                   (Json.parse_members f []))
          by (auto using blank_nl; try reflexivity; discriminate).
        apply (parse_members_join (Json.dumps_indent (S level)) (nl (S level)) (nl level)
                 (kv :: r) (blank_nl _) (blank_nl _) Hall ltac:(discriminate) [] rest f Hkeys).
        -- intros; reflexivity.
        -- lia.
      * eexists _, _. rewrite dumps_indent_obj.
        split; [reflexivity|]. repeat split; try reflexivity; discriminate.
      * intros rest fuel Hfuel Hrest. rewrite weight_obj in Hfuel.
        destruct fuel as [|f]; [lia|]. rewrite dumps_obj.
        destruct (Hitems 0) as [_ Hall].
        rewrite <- app_comm_cons, parse_value_brace. cbn [map].
        unfold Json.dumps_str at 1. cbn [app].
        match goal with
        | |- context [join ?sep ((34%N :: ?t) :: ?texts)] =>
            pose proof (open_then_join [] sep [] 34%N t texts 125%N rest _
                          (Json.parse_members f []) (fun r' => Some (JObj [], r')) None
                          ltac:(constructor) ltac:(reflexivity) ltac:(discriminate)) as Hopen
        end.
        refine (eq_trans Hopen _).
        apply (parse_members_join Json.dumps [32%N] [] (kv :: r)
                 ltac:(repeat constructor) ltac:(constructor) Hall ltac:(discriminate)
                 [] rest f Hkeys).
        -- intros; reflexivity.
        -- lia.
      * eexists _, _. rewrite dumps_obj.
        split; [reflexivity|]. repeat split; try reflexivity; discriminate.
Qed.

(** ** The saved text, loaded *)

Lemma length_join_weights (pr : json -> str) (sep : str) (items : list json) :
  sep <> [] -> items <> [] ->
  Forall (fun x => weight x <= length (pr x)) items ->
  weights items <= S (length (join sep (map pr items))).
Proof.
  intros Hsep Hne Hall. induction Hall as [|x r Hx Hr IH]; [easy|].
  destruct r as [|y r'].
  - cbn [map join weights fold_right]. lia.
  - change (join sep (map pr (x :: y :: r')))
      with (pr x ++ sep ++ join sep (map pr (y :: r'))).
    rewrite !length_app.
    assert (Hw : weights (x :: y :: r') = S (weight x) + weights (y :: r')) by reflexivity.
    rewrite Hw. specialize (IH ltac:(discriminate)).
    destruct sep; [easy|]. cbn [length]. lia.
Qed.

Lemma length_join_members (pr : json -> str) (sep : str) (d : list (str * json)) :
  sep <> [] -> d <> [] ->
  Forall (fun kv => weight (snd kv) <= length (pr (snd kv))) d ->
  weights (map snd d)
  <= S (length (join sep (map (fun kv => Json.dumps_str (fst kv) ++ lit ": " ++ pr (snd kv)) d))).
Proof.
  intros Hsep Hne Hall. induction Hall as [|[k x] r Hx Hr IH]; [easy|]. cbn [fst snd] in *.
  destruct r as [|[k' y] r'].
  - cbn [map join weights fold_right snd fst]. rewrite !length_app. lia.
  - change (join sep (map (fun kv => Json.dumps_str (fst kv) ++ lit ": " ++ pr (snd kv))
                        ((k, x) :: (k', y) :: r')))
      with ((Json.dumps_str k ++ lit ": " ++ pr x) ++ sep
              ++ join sep (map (fun kv => Json.dumps_str (fst kv) ++ lit ": " ++ pr (snd kv))
                             ((k', y) :: r'))).
    rewrite !length_app.
    assert (Hw : weights (map snd ((k, x) :: (k', y) :: r'))
                 = S (weight x) + weights (map snd ((k', y) :: r'))) by reflexivity.
    rewrite Hw. specialize (IH ltac:(discriminate)).
    destruct sep; [easy|]. cbn [length]. lia.
Qed.

Lemma value_head_length (t : str) : value_head t -> 1 <= length t.
Proof. intros (c & r & -> & _). cbn [length]. lia. Qed.

(** The fuel of [json.loads] is enough for the text of any value. *)
Lemma weight_le_length (v : json) :
  wf_json v ->
  (forall level, weight v <= length (Json.dumps_indent level v))
  /\ weight v <= length (Json.dumps v).
Proof.
  assert (Hscalar : forall v0, wf_json v0 ->
             weight v0 = 1 ->
             (forall level, weight v0 <= length (Json.dumps_indent level v0))
             /\ weight v0 <= length (Json.dumps v0)).
  { intros v0 Hwf Hw. destruct (parse_dumps v0 Hwf) as (Hi & _ & Hc). rewrite Hw. split.
    - intros level. apply value_head_length, Hi.
    - now apply value_head_length. }
  induction v as [| b | l | s | items IH | d IH] using json_induction; intros Hwf;
    try (apply Hscalar; [exact Hwf | reflexivity]).
  - assert (Hall : (forall level, Forall (fun x => weight x <= length (Json.dumps_indent level x))
                                         items)
                   /\ Forall (fun x => weight x <= length (Json.dumps x)) items).
    { clear Hscalar. apply wf_json_arr in Hwf.
      induction IH as [|y r' Hy _ IHr]; [split; [intros level|]; constructor|].
      inversion Hwf as [|? ? Hwy Hwr]; subst. destruct (IHr Hwr) as [H1 H2].
      destruct (Hy Hwy) as [H3 H4]. split; [intros level|]; constructor; auto. }
    destruct Hall as [Hi Hc].
    destruct items as [|x r]; [apply Hscalar; [exact Hwf | reflexivity]|].
    rewrite weight_arr. split.
    + intros level. rewrite dumps_indent_arr. cbn [length]. rewrite !length_app.
      pose proof (length_join_weights (Json.dumps_indent (S level)) (44%N :: nl (S level))
                    (x :: r) ltac:(discriminate) ltac:(discriminate) (Hi (S level))).
      cbn [length]. lia.
    + rewrite dumps_arr. cbn [length]. rewrite !length_app.
      pose proof (length_join_weights Json.dumps (44%N :: [32%N])
                    (x :: r) ltac:(discriminate) ltac:(discriminate) Hc).
      cbn [length]. lia.
  - assert (Hall : (forall level,
                       Forall (fun kv => weight (snd kv)
                                         <= length (Json.dumps_indent level (snd kv))) d)
                   /\ Forall (fun kv => weight (snd kv) <= length (Json.dumps (snd kv))) d).
    { clear Hscalar. apply wf_json_obj in Hwf as [_ Hwf].
      induction IH as [|y r' Hy _ IHr]; [split; [intros level|]; constructor|].
      inversion Hwf as [|? ? [_ Hwy] Hwr]; subst. destruct (IHr Hwr) as [H1 H2].
      destruct (Hy Hwy) as [H3 H4]. split; [intros level|]; constructor; auto. }
    destruct Hall as [Hi Hc].
    destruct d as [|kv r]; [apply Hscalar; [exact Hwf | reflexivity]|].
    rewrite weight_obj. split.
    + intros level. rewrite dumps_indent_obj. cbn [length]. rewrite !length_app.
      pose proof (length_join_members (Json.dumps_indent (S level)) (44%N :: nl (S level))
                    (kv :: r) ltac:(discriminate) ltac:(discriminate) (Hi (S level))).
      cbn [length]. lia.
    + rewrite dumps_obj. cbn [length]. rewrite !length_app.
      pose proof (length_join_members Json.dumps (44%N :: [32%N])
                    (kv :: r) ltac:(discriminate) ltac:(discriminate) Hc).
      cbn [length]. lia.
Qed.

Lemma loads_text (t : str) (v : json) :
  parses t v -> value_head t -> weight v <= length t -> Json.loads t = Ok v.
Proof.
  intros Hp (c & r & -> & Hc & _) Hw. unfold Json.loads.
  rewrite skip_ws_head by exact Hc.
  specialize (Hp [] (2 * length (c :: r) + 2) ltac:(lia) I).
  rewrite app_nil_r in Hp. now rewrite Hp.
Qed.


(** [json.loads(json.dumps(v, indent=2))] is [v]. *)
Lemma loads_dumps_indent (v : json) :
  wf_json v -> Json.loads (Json.dumps_indent 0 v) = Ok v.
Proof.
  intros Hwf. destruct (parse_dumps v Hwf) as (Hi & _). destruct (Hi 0) as [Hp Hh].
  apply loads_text; [exact Hp | exact Hh | apply weight_le_length, Hwf].
Qed.

Lemma Forall_join {P : N -> Prop} (sep : str) (texts : list str) :
  Forall P sep -> Forall (Forall P) texts -> Forall P (join sep texts).
Proof.
  intros Hsep Hall. induction Hall as [|t r Ht Hr IH]; [constructor|].
  destruct r as [|t' r']; [exact Ht|].
  change (join sep (t :: t' :: r')) with (t ++ sep ++ join sep (t' :: r')).
  rewrite !Forall_app. auto.
Qed.

Lemma printable_text_char (t : str) :
  Forall (fun c => printable c = true) t -> Forall (fun c => text_char c = true) t.
Proof.
  intros H. eapply Forall_impl; [exact H|]. intros c Hc. unfold text_char. now rewrite Hc.
Qed.

Lemma nl_text_char (level : nat) : Forall (fun c => text_char c = true) (nl level).
Proof.
  unfold nl. constructor; [reflexivity|].
  induction (2 * level) as [|n IH]; cbn [repeat]; constructor; [reflexivity | exact IH].
Qed.

(** The characters of the texts [json.dumps] writes. *)
Lemma dumps_chars (v : json) :
  wf_json v ->
  (forall level, Forall (fun c => text_char c = true) (Json.dumps_indent level v))
  /\ Forall (fun c => printable c = true) (Json.dumps v).
Proof.
  assert (Hscalar : forall v0,
             Forall (fun c => printable c = true) (Json.dumps v0) ->
             (forall level, Json.dumps_indent level v0 = Json.dumps v0) ->
             (forall level, Forall (fun c => text_char c = true) (Json.dumps_indent level v0))
             /\ Forall (fun c => printable c = true) (Json.dumps v0)).
  { intros v0 Hp Heq. split; [|exact Hp]. intros level. rewrite Heq.
    now apply printable_text_char. }
  induction v as [| b | l | s | items IH | d IH] using json_induction; intros Hwf.
  - apply Hscalar; [repeat constructor | reflexivity].
  - apply Hscalar; [destruct b; repeat constructor | reflexivity].
  - apply Hscalar; [apply json_number_chars, Hwf | reflexivity].
  - apply Hscalar; [apply dumps_str_printable | reflexivity].
  - apply wf_json_arr in Hwf.
    assert (Hall : (forall level,
                       Forall (Forall (fun c => text_char c = true))
                              (map (Json.dumps_indent level) items))
                   /\ Forall (Forall (fun c => printable c = true)) (map Json.dumps items)).
    { clear Hscalar. induction IH as [|y r' Hy _ IHr]; [split; [intros level|]; constructor|].
      inversion Hwf as [|? ? Hwy Hwr]; subst. destruct (IHr Hwr) as [H1 H2].
      destruct (Hy Hwy) as [H3 H4]. split; [intros level|]; cbn [map]; constructor; auto. }
    destruct Hall as [Hi Hc].
    destruct items as [|x r]; [apply Hscalar; [repeat constructor | reflexivity]|]. split.
    + intros level. rewrite dumps_indent_arr. constructor; [reflexivity|].
      rewrite !Forall_app. split; [apply nl_text_char|]. split.
      * apply Forall_join; [constructor; [reflexivity | apply nl_text_char] | apply Hi].
      * split; [apply nl_text_char | repeat constructor].
    + rewrite dumps_arr. constructor; [reflexivity|]. rewrite Forall_app. split.
      * apply Forall_join; [repeat constructor | exact Hc].
      * repeat constructor.
  - apply wf_json_obj in Hwf as [_ Hwf].
    assert (Hall : (forall level,
                       Forall (Forall (fun c => text_char c = true))
                              (map (fun kv => Json.dumps_str (fst kv) ++ lit ": "
                                                ++ Json.dumps_indent level (snd kv)) d))
                   /\ Forall (Forall (fun c => printable c = true))
                             (map (fun kv => Json.dumps_str (fst kv) ++ lit ": "
                                               ++ Json.dumps (snd kv)) d)).
    { clear Hscalar. induction IH as [|y r' Hy _ IHr]; [split; [intros level|]; constructor|].
      inversion Hwf as [|? ? [_ Hwy] Hwr]; subst. destruct (IHr Hwr) as [H1 H2].
      destruct (Hy Hwy) as [H3 H4]. split; [intros level|]; cbn [map]; constructor; auto.
      - rewrite !Forall_app. split; [apply printable_text_char, dumps_str_printable|].
        split; [repeat constructor | apply H3].
      - rewrite !Forall_app. split; [apply dumps_str_printable|].
        split; [repeat constructor | exact H4]. }
    destruct Hall as [Hi Hc].
    destruct d as [|kv r]; [apply Hscalar; [repeat constructor | reflexivity]|]. split.
    + intros level. rewrite dumps_indent_obj. constructor; [reflexivity|].
      rewrite !Forall_app. split; [apply nl_text_char|]. split.
      * apply Forall_join; [constructor; [reflexivity | apply nl_text_char] | apply Hi].
      * split; [apply nl_text_char | repeat constructor].
    + rewrite dumps_obj. constructor; [reflexivity|]. rewrite Forall_app. split.
      * apply Forall_join; [repeat constructor | exact Hc].
      * repeat constructor.
Qed.

(** A text of printable characters and line feeds is written to a file and
    read back as it is. *)
Lemma read_text_written (t : str) :
  Forall (fun c => text_char c = true) t -> read_text (Utf8.encode t) = Ok t.
Proof.
  intros Ht.
  assert (Hc : Forall (fun c => (c < 128)%N /\ c <> 13%N) t).
  { eapply Forall_impl; [exact Ht|]. intros c Hc. unfold text_char, printable in Hc.
    rewrite orb_true_iff, andb_true_iff, !N.leb_le, N.eqb_eq in Hc. lia. }
  unfold read_text, decode_utf8.
  rewrite encode_ascii, decode_ascii
    by (eapply Forall_impl; [exact Hc | intros c [H _]; exact H]).
  cbn [rbind]. f_equal. apply universal_newlines_no_cr.
  eapply Forall_impl; [exact Hc | intros c [_ H]; exact H].
Qed.

(** What is saved with [json.dumps(v, indent=2)] is loaded as [v]. *)
Lemma load_saved (v : json) :
  wf_json v ->
  (text <- read_text (Utf8.encode (Json.dumps_indent 0 v));; Json.loads text)%result = Ok v.
Proof.
  intros Hwf. rewrite read_text_written by apply dumps_chars, Hwf.
  cbn [rbind]. now apply loads_dumps_indent.
Qed.

(** ** What is saved is loaded *)

Lemma json_number_nat (n : N) : json_number (nat_repr n).
Proof.
  left. unfold nat_repr, Json.scan_number, Json.scan_number_parts.
  destruct (first_digit_cases (N.to_uint n) (to_uint_canonical n))
    as [-> | (c & r & -> & Hc & H48 & H45)].
  - reflexivity.
  - apply N.eqb_neq in H48, H45. rewrite H45, H48, Hc.
    assert (Hspan : Json.span_digits (uint_chars r) = (uint_chars r, [])).
    { rewrite <- (app_nil_r (uint_chars r)) at 1.
      apply span_digits_app; [apply uint_chars_digits | exact I]. }
    rewrite Hspan. cbn [Json.scan_frac Json.scan_exp Json.parts_text Json.p_neg Json.p_int
                          Json.p_frac Json.p_exp app].
    now rewrite app_nil_r.
Qed.

Lemma hex_digit_scalar (c : N) : is_hex_digit c = true -> Utf8.scalar c = true.
Proof.
  unfold is_hex_digit, Utf8.scalar, Utf8.is_surrogate.
  rewrite orb_true_iff, !andb_true_iff, !N.leb_le, N.ltb_lt, negb_true_iff, andb_false_iff,
    !N.leb_gt. lia.
Qed.

Lemma key_of_wf (diff model : str) : wf_str (key_of diff model).
Proof.
  unfold key_of, wf_str. apply Forall_take.
  destruct (hexdigest_is_hex (Utf8.encode (model ++ lit ":" ++ firstn 500 diff))) as [_ H].
  eapply Forall_impl; [exact H | apply hex_digit_scalar].
Qed.

Lemma Forall_dict_set (P : str * json -> Prop) (d : list (str * json)) (k : str) (v : json) :
  Forall P d -> P (k, v) -> (forall k', str_eqb k k' = true -> P (k, v) -> P (k', v)) ->
  Forall P (dict_set d k v).
Proof.
  intros Hd Hkv Heq. induction Hd as [|[k' v'] r Hx Hr IH]; cbn [dict_set].
  - now constructor.
  - destruct (str_eqb k k') eqn:E; constructor; auto.
Qed.

Lemma wf_json_dict_set (d : list (str * json)) (k : str) (v : json) :
  wf_json (JObj d) -> wf_str k -> wf_json v -> wf_json (JObj (dict_set d k v)).
Proof.
  rewrite !wf_json_obj. intros [Hkeys Hall] Hk Hv. split; [now apply distinct_keys_set|].
  apply Forall_dict_set; [exact Hall | now split |].
  intros k' E _. apply str_eqb_eq in E as <-. now split.
Qed.

Lemma wf_json_filter (p : str * json -> bool) (d : list (str * json)) :
  wf_json (JObj d) -> wf_json (JObj (List.filter p d)).
Proof.
  rewrite !wf_json_obj. intros [Hkeys Hall].
  split; [now apply distinct_keys_filter | now apply Forall_filter_keep].
Qed.

(** The record [put] writes is a value that [json] writes and reads back. *)
Lemma wf_json_record (model : str) (now : Z) (n : N) :
  wf_str model ->
  wf_json (JObj [(lit "model", JStr model);
                 (lit "timestamp", JNum (float_repr now));
                 (lit "diff_size", JNum (nat_repr n))]).
Proof.
  intros Hm. apply wf_json_obj. split.
  - cbn. repeat split; reflexivity.
  - constructor; [split; [apply wf_str_forallb; reflexivity | exact Hm]|].
    constructor; [split; [apply wf_str_forallb; reflexivity | apply json_number_float]|].
    constructor; [split; [apply wf_str_forallb; reflexivity | apply json_number_nat]|].
    constructor.
Qed.

(** Loading what [_save_metadata] wrote. *)
Lemma load_saved_metadata (self : ModelCache.t) (fs : cache_fs) :
  wf_json (ModelCache.metadata self) ->
  ModelCache.__init__ (ModelCache._save_metadata self fs) = self.
Proof.
  intros Hwf. unfold ModelCache.__init__, ModelCache._load_metadata, ModelCache._save_metadata.
  cbn [metadata_file]. rewrite load_saved by exact Hwf. now destruct self.
Qed.

(** X9.  The metadata survives the process: after a [put], or a
    [clear_old_cache] for a span of days within the whole numbers that a
    double holds, the call returns and a new [ModelCache] on the same
    directory loads exactly the metadata of the instance that wrote it.
    The metadata is a mapping of values that [json] can write, and stays
    one. *)
Theorem X9_metadata_is_persisted (self : ModelCache.t) (fs : cache_fs)
    (d : list (str * json)) :
  ModelCache.metadata self = JObj d -> wf_json (JObj d) ->
  (forall t_fs now diff model text,
      wf_str model -> wf_str diff -> wf_str text ->
      exists self',
        fst (ModelCache.save_message self fs t_fs now diff model text) = Ok self'
        /\ ModelCache.__init__ (snd (ModelCache.save_message self fs t_fs now diff model text))
           = self'
        /\ exists d', ModelCache.metadata self' = JObj d' /\ wf_json (JObj d'))
  /\ (forall now days,
        (Z.abs (days * 86400) < 2 ^ 53)%Z ->
        Forall (fun kv => testable (snd kv)) d ->
        exists self',
          fst (ModelCache.clear_old_cache self fs now days) = Ok self'
          /\ ModelCache.__init__ (snd (ModelCache.clear_old_cache self fs now days)) = self'
          /\ exists d', ModelCache.metadata self' = JObj d' /\ wf_json (JObj d')).
Proof.
  intros Hmeta Hwf. split.
  - intros t_fs now diff model text Hm Hd Ht.
    unfold ModelCache.save_message.
    rewrite get_cache_key_wf, write_text_wf, Hmeta by auto using wf_str_take.
    cbn [py_setitem fst snd].
    assert (Hnew : wf_json (JObj (dict_set d (key_of diff model)
                      (JObj [(lit "model", JStr model);
                             (lit "timestamp", JNum (float_repr now));
                             (lit "diff_size", JNum (nat_repr (N.of_nat (length diff))))])))).
    { apply wf_json_dict_set; [exact Hwf | apply key_of_wf | now apply wf_json_record]. }
    eexists. split; [reflexivity|]. split.
    + now apply load_saved_metadata.
    + eexists. split; [reflexivity | exact Hnew].
  - intros now days Hdays Hok. pose proof Hwf as Hwf'.
    apply wf_json_obj in Hwf' as [Hkeys _].
    destruct (cutoff_time_defined now days Hdays) as [cutoff Hc].
    rewrite (clear_old_cache_result self fs now days cutoff d Hc Hmeta Hkeys Hok).
    cbn [fst snd].
    assert (Hnew : wf_json (JObj (List.filter (keeps cutoff) d)))
      by now apply wf_json_filter.
    eexists. split; [reflexivity|]. split.
    + unfold ModelCache.__init__, ModelCache._load_metadata. cbn [metadata_file].
      now rewrite load_saved.
    + eexists. split; [reflexivity | exact Hnew].
Qed.

Lemma X9_metadata_is_persisted_witness :
  let fs0 := CacheFs ∅ ∅ None in
  let r1 := ModelCache.save_message (ModelCache.__init__ fs0) fs0 100 100
              (lit "some diff") (lit "gpt2") (lit "fix: typo") in
  (exists self1,
      fst r1 = Ok self1 /\ ModelCache.__init__ (snd r1) = self1
      /\ ModelCache.metadata self1
         = JObj [(lit "cc94e7af913e40fc",
                  JObj [(lit "model", JStr (lit "gpt2"));
                        (lit "timestamp", JNum (lit "100.0"));
                        (lit "diff_size", JNum (lit "9"))])])
  /\ (exists self2,
        fst (ModelCache.clear_old_cache (ModelCache.__init__ fs0) fs0 1000000 7) = Ok self2
        /\ ModelCache.__init__
             (snd (ModelCache.clear_old_cache (ModelCache.__init__ fs0) fs0 1000000 7))
           = self2).
Proof.
  intros fs0 r1.
  destruct (X9_metadata_is_persisted (ModelCache.__init__ fs0) fs0 []) as [Hput Hclear].
  - reflexivity.
  - split; exact I.
  - split.
    2:{ destruct (Hclear 1000000%Z 7%Z) as (self2 & Hs & Hload & _);
          [vm_compute; reflexivity | constructor | eauto]. }
    destruct (Hput 100%Z 100%Z (lit "some diff") (lit "gpt2") (lit "fix: typo"))
      as (self1 & Hs & Hload & _).
    + apply wf_str_forallb. reflexivity.
    + apply wf_str_forallb. reflexivity.
    + apply wf_str_forallb. reflexivity.
    + exists self1. split; [exact Hs|]. split; [exact Hload|].
      fold r1 in Hs. assert (Hv : fst r1 = Ok (ModelCache.Make
               (JObj [(lit "cc94e7af913e40fc",
                       JObj [(lit "model", JStr (lit "gpt2"));
                             (lit "timestamp", JNum (lit "100.0"));
                             (lit "diff_size", JNum (lit "9"))])])))
        by (vm_compute; reflexivity).
      rewrite Hs in Hv. injection Hv as ->. reflexivity.
Defined.

Lemma replace_char_app (old : N) (new a b : str) :
  replace_char old new (a ++ b) = replace_char old new a ++ replace_char old new b.
Proof. unfold replace_char. apply flat_map_app. Qed.

(** X10.  Model info round trip.  What [save_model_info] stores for a model
    name, [get_model_info] returns for that name; other info files are not
    affected; and since a slash in the name is written as two dashes, two
    names that differ only in that share one info file. *)
Theorem X10_model_info_round_trip (fs : cache_fs) (name : str) (info : json) :
  wf_json info ->
  let fs' := ModelCache.save_model_info fs name info in
  ModelCache.get_model_info fs' name = Some info
  /\ (forall other,
        ModelCache.info_file other <> ModelCache.info_file name ->
        ModelCache.get_model_info fs' other = ModelCache.get_model_info fs other)
  /\ (forall a b, name = a ++ lit "--" ++ b ->
        ModelCache.get_model_info fs' (a ++ lit "/" ++ b) = Some info)
  /\ outputs fs' = outputs fs /\ metadata_file fs' = metadata_file fs.
Proof.
  intros Hwf fs'.
  assert (Hsame : forall other, ModelCache.info_file other = ModelCache.info_file name ->
                                ModelCache.get_model_info fs' other = Some info).
  { intros other Hfile. unfold ModelCache.get_model_info, fs', ModelCache.save_model_info.
    cbn [models]. rewrite Hfile, lookup_insert_eq. now rewrite load_saved. }
  split; [now apply Hsame|]. split; [|split; [|split; reflexivity]].
  - intros other Hne. unfold ModelCache.get_model_info, fs', ModelCache.save_model_info.
    cbn [models]. now rewrite lookup_insert_ne by congruence.
  - intros a b ->. apply Hsame. unfold ModelCache.info_file.
    now rewrite !replace_char_app.
Qed.

Lemma X10_model_info_round_trip_witness :
  let info := JObj [(lit "loaded_at", JNum (lit "100.0"));
                    (lit "config", JObj [(lit "model", JStr (lit "org--model"));
                                         (lit "temperature", JNum (lit "0.1"));
                                         (lit "use_fast", JBool false)])] in
  let fs' := ModelCache.save_model_info (CacheFs ∅ ∅ None) (lit "org--model") info in
  ModelCache.get_model_info fs' (lit "org--model") = Some info
  /\ ModelCache.get_model_info fs' (lit "org/model") = Some info.
Proof.
  intros info fs'.
  destruct (X10_model_info_round_trip (CacheFs ∅ ∅ None) (lit "org--model") info)
    as (Hget & _ & Hshare & _).
  - assert (Hlit : forall s, forallb Utf8.scalar s = true -> wf_str s)
      by (intros s; apply wf_str_forallb).
    apply wf_json_obj. split; [cbn; repeat split; reflexivity|].
    constructor; [split; [now apply Hlit | left; vm_compute; reflexivity]|].
    constructor; [|constructor]. split; [now apply Hlit|].
    apply wf_json_obj. split; [cbn; repeat split; reflexivity|].
    constructor; [split; now apply Hlit|].
    constructor; [split; [now apply Hlit | left; vm_compute; reflexivity]|].
    constructor; [split; [now apply Hlit | exact I]|]. constructor.
  - split; [exact Hget|]. apply (Hshare (lit "org") (lit "model")). reflexivity.
Defined.

(** ** C2: clearing entries older than a number of days *)

(** C2, counterexample.  One day after time 100, at 86500, [clear_old_cache(1)]
    keeps the blob whose age is exactly [1 * 24h]; the blob without a record
    is still on disk while the metadata has no record of it; and for a
    number of days beyond the range of a [float] the call raises
    [OverflowError] and deletes nothing. *)
Lemma C2_clear_counterexample :
  ~ deletes_from_age example_self example_fs 86500 1
  /\ ~ records_match_blobs example_self example_fs 86500 1
  /\ ModelCache.clear_old_cache example_self example_fs 86500 (10 ^ 400)
     = (raise "OverflowError" "int too large to convert to float", example_fs).
Proof.
  split; [|split].
  - intros H.
    destruct (H (ModelCache.cache_file example_key) (File (lit "fix: typo") 100)) as [Hdel _].
    + vm_compute. reflexivity.
    + vm_compute. reflexivity.
    + assert (Hage : (1 * 86400 <= 86500 - mtime (File (lit "fix: typo") 100))%Z)
        by (simpl; lia).
      apply Hdel in Hage. vm_compute in Hage. discriminate.
  - intros (self' & d' & Hres & Hmeta & _ & Hblobs).
    assert (Hself : fst (ModelCache.clear_old_cache example_self example_fs 86500 1)
                    = Ok example_self) by (vm_compute; reflexivity).
    rewrite Hself in Hres. injection Hres as <-. injection Hmeta as <-.
    destruct (Hblobs (lit "0123456789abcdef.txt") (File (lit "chore: bump") 5000))
      as (key & Hname & Hhas).
    + vm_compute. reflexivity.
    + vm_compute. reflexivity.
    + change (lit "0123456789abcdef.txt") with (ModelCache.cache_file (lit "0123456789abcdef"))
        in Hname.
      apply cache_file_inj in Hname. subst key. vm_compute in Hhas. discriminate.
  - unfold ModelCache.clear_old_cache. rewrite cutoff_time_overflow; [reflexivity|].
    vm_compute. discriminate.
Qed.

(** C2, as the code has it.  For a clock reading and a span of days that
    doubles hold exactly, [clear_old_cache(days)] deletes exactly the blobs
    whose age is greater than [days * 24h] (a blob aged exactly [days * 24h]
    stays, and so does any file that is not a blob); from a metadata mapping
    of records that can be tested it keeps, in order, exactly the records
    with [timestamp >= cutoff], compared as doubles, and persists that
    mapping, which a new [ModelCache] loads; and when records and blobs
    corresponded one to one before the call, each record on the same side of
    the cutoff as the modification time of its blob, the metadata afterwards
    holds exactly the records of the blobs that remain. *)
Theorem C2_clear_old_cache (self : ModelCache.t) (fs : cache_fs) (now days : Z)
    (d : list (str * json)) :
  let cutoff := (now - days * 86400)%Z in
  let kept := List.filter (keeps (Float.of_Z cutoff)) d in
  let r := ModelCache.clear_old_cache self fs now days in
  exact_clock now days ->
  ModelCache.metadata self = JObj d ->
  distinct_keys d ->
  Forall (fun kv => testable (snd kv)) d ->
  (forall name : str,
      outputs (snd r) !! name
      = match outputs fs !! name with
        | Some f =>
            if ends_with (lit ".txt") name && (days * 86400 <? now - mtime f)%Z
            then None else Some f
        | None => None
        end)
  /\ fst r = Ok (ModelCache.Make (JObj kept))
  /\ (wf_json (JObj d) -> ModelCache.__init__ (snd r) = ModelCache.Make (JObj kept))
  /\ (paired cutoff d (outputs fs) ->
      records_match_blobs self fs now days /\ paired cutoff kept (outputs (snd r))).
Proof.
  intros cutoff kept r Hclock Hmeta Hkeys Hok.
  assert (Hblobs : forall name : str,
             outputs (snd r) !! name
             = match outputs fs !! name with
               | Some f =>
                   if ends_with (lit ".txt") name && (days * 86400 <? now - mtime f)%Z
                   then None else Some f
               | None => None
               end).
  { intros name. subst r. now apply clear_old_cache_blobs. }
  assert (Hres : r = (Ok (ModelCache.Make (JObj kept)),
                      CacheFs (ModelCache.unlink_old (Float.of_Z cutoff) (outputs fs))
                              (models fs)
                              (Some (Utf8.encode (Json.dumps_indent 0 (JObj kept)))))).
  { subst r. apply clear_old_cache_result; try assumption. now apply cutoff_time_exact. }
  split; [exact Hblobs|]. split; [now rewrite Hres|]. split.
  { intros Hwf. rewrite Hres. cbn [snd].
    unfold ModelCache.__init__, ModelCache._load_metadata. cbn [metadata_file].
    now rewrite load_saved by now apply wf_json_filter. }
  intros [Hrec Hblob].
  assert (Hgone : forall f, (cutoff <=? mtime f)%Z = true ->
                            (days * 86400 <? now - mtime f)%Z = false).
  { intros f Hle. apply Z.leb_le in Hle. apply Z.ltb_ge. subst cutoff. lia. }
  assert (Hkept : forall name f key info,
             outputs (snd r) !! name = Some f -> ends_with (lit ".txt") name = true ->
             name = ModelCache.cache_file key -> dict_get d key = Some info ->
             dict_get kept key = Some info).
  { intros name f key info Hf Htxt -> Hget. rewrite Hblobs in Hf.
    destruct (Hrec key info Hget) as (f1 & Hf1 & Hside). rewrite Hf1, Htxt in Hf.
    cbn [andb] in Hf.
    destruct (Z.ltb_spec (days * 86400) (now - mtime f1)) as [|Hyoung]; [discriminate|].
    subst kept. rewrite dict_get_filter, Hget by assumption. rewrite Hside.
    assert ((cutoff <=? mtime f1)%Z = true) as -> by (apply Z.leb_le; subst cutoff; lia).
    reflexivity. }
  assert (Hstays : forall key info,
             dict_get kept key = Some info ->
             dict_get d key = Some info
             /\ exists f, outputs fs !! ModelCache.cache_file key = Some f
                          /\ outputs (snd r) !! ModelCache.cache_file key = Some f
                          /\ keeps (Float.of_Z cutoff) (key, info) = (cutoff <=? mtime f)%Z).
  { intros key info. subst kept. rewrite dict_get_filter by assumption.
    destruct (dict_get d key) as [info'|] eqn:Hget; [|discriminate].
    destruct (keeps (Float.of_Z cutoff) (key, info')) eqn:Hkeep; [|discriminate].
    intros [= <-]. split; [reflexivity|].
    destruct (Hrec key info' Hget) as (f & Hf & Hside). exists f.
    split; [exact Hf|]. split; [|congruence].
    rewrite Hblobs, Hf, (Hgone f) by congruence. now rewrite andb_false_r. }
  assert (Hsource : forall name f,
             outputs (snd r) !! name = Some f -> outputs fs !! name = Some f).
  { intros name f. rewrite Hblobs. destruct (outputs fs !! name) as [f0|]; [|discriminate].
    destruct (_ && _); [discriminate | easy]. }
  split.
  - exists (ModelCache.Make (JObj kept)), kept. fold r.
    split; [now rewrite Hres|]. split; [reflexivity|]. split.
    + intros key. unfold dict_has.
      destruct (dict_get kept key) as [info|] eqn:Hget; [|discriminate]. intros _.
      destruct (Hstays key info Hget) as (_ & f & _ & Hf & _). eauto.
    + intros name f Hf Htxt.
      destruct (Hblob name f (Hsource name f Hf) Htxt) as (key & info & Hname & Hget).
      exists key. split; [exact Hname|]. unfold dict_has.
      now rewrite (Hkept name f key info Hf Htxt Hname Hget).
  - split.
    + intros key info Hget. destruct (Hstays key info Hget) as (_ & f & _ & Hf & Hside). eauto.
    + intros name f Hf Htxt.
      destruct (Hblob name f (Hsource name f Hf) Htxt) as (key & info & Hname & Hget).
      exists key, info. split; [exact Hname|]. exact (Hkept name f key info Hf Htxt Hname Hget).
Qed.

(** Two blobs stored by [put], 1000 seconds apart, each recorded a second
    after its file was written, and cleared one day after the second was
    written: the first goes with its record, the second stays with its
    record. *)
Lemma C2_clear_old_cache_witness :
  let fs0 := CacheFs ∅ ∅ None in
  let s1 := ModelCache.save_message (ModelCache.__init__ fs0) fs0 100 101
              (lit "some diff") (lit "gpt2") (lit "fix: typo") in
  let self1 := match fst s1 with Ok s => s | Raise _ => ModelCache.__init__ fs0 end in
  let s2 := ModelCache.save_message self1 (snd s1) 1100 1101
              (lit "other diff") (lit "gpt2") (lit "feat: parser") in
  let self2 := match fst s2 with Ok s => s | Raise _ => self1 end in
  let r := ModelCache.clear_old_cache self2 (snd s2) (86400 + 1100) 1 in
  outputs (snd r) !! ModelCache.cache_file example_key = None
  /\ outputs (snd r)
       !! ModelCache.cache_file (key_of (lit "other diff") (lit "gpt2"))
     = Some (File (lit "feat: parser") 1100)
  /\ records_match_blobs self2 (snd s2) (86400 + 1100) 1
  /\ (exists self', fst r = Ok self' /\ ModelCache.__init__ (snd r) = self').
Proof.
  intros fs0 s1 self1 s2 self2 r.
  destruct (save_message_paired (ModelCache.__init__ fs0) fs0 100 101 1100
              (lit "some diff") (lit "gpt2") (lit "fix: typo") [])
    as (self1' & d1 & Hs1 & Hm1 & Hk1 & Hpair1).
  { apply wf_str_forallb. reflexivity. }
  { apply wf_str_forallb. reflexivity. }
  { apply wf_str_forallb. reflexivity. }
  { vm_compute. reflexivity. }
  { reflexivity. }
  { reflexivity. }
  { split; [discriminate|]. intros name f Hf.
    change (outputs fs0) with (∅ : gmap str file) in Hf.
    rewrite lookup_empty in Hf. discriminate. }
  fold s1 in Hs1, Hpair1.
  assert (Hself1 : self1 = self1') by (subst self1; now rewrite Hs1).
  destruct (save_message_paired self1 (snd s1) 1100 1101 1100
              (lit "other diff") (lit "gpt2") (lit "feat: parser") d1)
    as (self2' & d2 & Hs2 & Hm2 & Hk2 & Hpair2).
  { apply wf_str_forallb. reflexivity. }
  { apply wf_str_forallb. reflexivity. }
  { apply wf_str_forallb. reflexivity. }
  { vm_compute. reflexivity. }
  { reflexivity. }
  { now rewrite Hself1. }
  { exact Hpair1. }
  fold s2 in Hs2, Hpair2.
  assert (Hself2 : self2 = self2') by (subst self2; now rewrite Hs2).
  assert (Hd2 : JObj d2 = ModelCache.metadata self2) by now rewrite Hself2.
  destruct (C2_clear_old_cache self2 (snd s2) (86400 + 1100) 1 d2)
    as (Hblobs & Hres & Hload & Hmatch).
  - split; vm_compute; reflexivity.
  - now rewrite Hself2.
  - apply Hk2, Hk1. exact I.
  - vm_compute in Hd2. injection Hd2 as ->.
    repeat constructor; cbn [snd]; eapply testable_intro with (cutoff := Float.of_Z 0);
      vm_compute; reflexivity.
  - fold r in Hblobs, Hres, Hload. split; [|split; [|split]].
    + rewrite Hblobs. vm_compute. reflexivity.
    + rewrite Hblobs. vm_compute. reflexivity.
    + apply Hmatch. exact Hpair2.
    + eexists. split; [exact Hres|]. apply Hload.
      apply wf_json_obj. split; [apply Hk2, Hk1; exact I|].
      vm_compute in Hd2. injection Hd2 as ->.
      assert (Hlit : forall s, forallb Utf8.scalar s = true -> wf_str s)
        by (intros s; apply wf_str_forallb).
      assert (Hnum : forall l, Json.scan_number l = Some (l, []) -> json_number l)
        by (intros l E; left; exact E).
      repeat constructor; cbn [fst snd];
        try (apply Hlit; vm_compute; reflexivity);
        try (apply Hnum; vm_compute; reflexivity).
Defined.

(** ** The serve loop and the signals *)

Lemma accept_loop_flag_off (self : ModelServer.t) (sigs : list ModelServer.event)
    (c : conn) (t_start t_end : Z) (rest : list ModelServer.event) :
  ModelServer.running self = false ->
  Forall (fun ev => ev = ModelServer.Signal) sigs ->
  ModelServer.stopped
    (ModelServer.accept_loop self (sigs ++ ModelServer.Connect c t_start t_end :: rest)) = true
  /\ ModelServer.handled
       (ModelServer.accept_loop self (sigs ++ ModelServer.Connect c t_start t_end :: rest))
     = [outcome self (ModelServer.Connect c t_start t_end)]
  /\ ModelServer.stopped (ModelServer.accept_loop self sigs) = false
  /\ ModelServer.handled (ModelServer.accept_loop self sigs) = [].
Proof.
  intros Hoff Hsigs. revert self Hoff.
  induction Hsigs as [|ev sigs -> _ IH]; intros self Hoff.
  - cbn [app ModelServer.accept_loop outcome].
    destruct (ModelServer._handle_request self t_start t_end c) as [res c'].
    rewrite Hoff. now repeat split.
  - cbn [app ModelServer.accept_loop ModelServer.stopped ModelServer.handled].
    apply (IH (ModelServer._shutdown self)). reflexivity.
Qed.

(** X11.  A termination signal does not end the serve loop by itself: the
    daemon, blocked in [accept], goes on waiting, handles the next connection
    like any other, and only then leaves the loop; whatever arrives later is
    not served.  While no connection arrives, the daemon stays. *)
Theorem X11_signal_stops_after_the_next_connection (self : ModelServer.t)
    (pre sigs : list ModelServer.event) (c : conn) (t_start t_end : Z)
    (rest : list ModelServer.event) :
  ModelServer.running self = true ->
  Forall (fun ev => ev <> ModelServer.Signal) pre ->
  Forall (fun ev => ev = ModelServer.Signal) sigs ->
  let last := ModelServer.Connect c t_start t_end in
  let waiting := ModelServer.accept_loop self (pre ++ ModelServer.Signal :: sigs) in
  let run := ModelServer.accept_loop self (pre ++ ModelServer.Signal :: sigs ++ last :: rest) in
  ModelServer.stopped waiting = false
  /\ ModelServer.handled waiting = map (outcome self) pre
  /\ ModelServer.stopped run = true
  /\ ModelServer.handled run = map (outcome self) (pre ++ [last]).
Proof.
  intros Hrun Hpre Hsigs last waiting run. subst waiting run.
  induction Hpre as [|ev pre Hne _ IH].
  - cbn [app map ModelServer.accept_loop ModelServer.stopped ModelServer.handled].
    destruct (accept_loop_flag_off (ModelServer._shutdown self) sigs c t_start t_end rest
                eq_refl Hsigs) as (H1 & H2 & H3 & H4).
    fold last in H1, H2. now rewrite H1, H2, H3, H4.
  - destruct ev as [|c0 t0 t1]; [congruence|].
    cbn [app map ModelServer.accept_loop outcome].
    destruct (ModelServer._handle_request self t0 t1 c0) as [res c']. cbn [snd].
    rewrite Hrun. cbn [ModelServer.stopped ModelServer.handled].
    destruct IH as (H1 & H2 & H3 & H4). now rewrite H1, H2, H3, H4.
Qed.

Lemma X11_signal_stops_after_the_next_connection_witness :
  let self := ModelServer.Make (fun _ => Ok (lit "msg")) true in
  let c := Conn [request_bytes (lit "X")] [] false in
  let events := [ModelServer.Connect c 0 1; ModelServer.Signal; ModelServer.Connect c 2 4;
                 ModelServer.Connect c 5 9] in
  ModelServer.stopped (ModelServer.accept_loop self events) = true
  /\ map sent (ModelServer.handled (ModelServer.accept_loop self events))
     = [[message_response (lit "msg") 1]; [message_response (lit "msg") 2]].
Proof.
  intros self c events.
  destruct (X11_signal_stops_after_the_next_connection self [ModelServer.Connect c 0 1] [] c 2 4
              [ModelServer.Connect c 5 9]) as (_ & _ & Hs & Hh).
  - reflexivity.
  - repeat constructor; discriminate.
  - constructor.
  - split; [exact Hs|].
    change (ModelServer.handled (ModelServer.accept_loop self events)
            = map (outcome self) ([ModelServer.Connect c 0 1] ++ [ModelServer.Connect c 2 4]))
      in Hh.
    rewrite Hh. vm_compute. reflexivity.
Defined.

(** ** A failure of the engine, end to end *)




(** ** Any request *)








(** ** The supervisor: stale and damaged PID files *)

Lemma signalled_probe (h : host) (b : bytes) :
  match signalled h b with
  | Ok pid =>
      probe h b = Ok tt /\ exists text, read_text b = Ok text /\ py_int text = Some pid
  | Raise e => probe h b = Raise e
  end.
Proof.
  unfold signalled, probe, int_of.
  destruct (read_text b) as [text|e]; cbn [rbind]; [|reflexivity].
  destruct (py_int text) as [pid|] eqn:Hint; cbn [rbind]; [|reflexivity].
  destruct (os_kill h pid) as [[]|e]; cbn [rbind]; [|reflexivity].
  split; [reflexivity|]. exists text. now split.
Qed.

Lemma stale_raises (h : host) (b : bytes) :
  stale h b ->
  exists e, signalled h b = Raise e /\ probe h b = Raise e /\ is_os_or_value_error e = true.
Proof.
  intros Hstale. unfold signalled, probe, int_of.
  destruct (read_text b) as [text|e] eqn:Hread; cbn [rbind].
  - destruct (py_int text) as [pid|] eqn:Hint; cbn [rbind].
    + destruct (Hstale text pid Hread Hint) as [[Hlo Hhi] Hout].
      rewrite os_kill_in_range by lia. unfold process_exists.
      assert ((pid =? 0)%Z = false) as -> by (apply Z.eqb_neq; lia).
      rewrite bool_decide_eq_false_2 by exact Hout. cbn [rbind].
      eexists. repeat split.
    + eexists. repeat split.
  - exists e. repeat split. revert Hread. unfold read_text, decode_utf8.
    destruct (Utf8.decode b); [discriminate|]. now intros [= <-].
Qed.

Lemma start_forks (new_pid : positive) (h : host) :
  (forall b, pid_file h = Some b -> stale h b) ->
  start_server_daemon new_pid h = (Ok tt, spawned new_pid h).
Proof.
  intros Hstale. unfold start_server_daemon.
  destruct (pid_file h) as [b|] eqn:Hf; [|reflexivity].
  destruct (stale_raises h b (Hstale b eq_refl)) as (e & _ & -> & ->). reflexivity.
Qed.

Lemma signalled_spawned (p : positive) (h : host) :
  (Z.pos p <= 2147483647)%Z ->
  signalled (spawned p h) (Utf8.encode (int_repr (Z.pos p))) = Ok (Z.pos p).
Proof.
  intros Hmax. destruct (pid_file_round_trip (Z.pos p) Hmax) as (text & Hread & Hint).
  unfold signalled, int_of. rewrite Hread. cbn [rbind].
  rewrite Hint. cbn [rbind]. rewrite os_kill_in_range by lia.
  change (Z.pos p =? 0)%Z with false. cbv iota. unfold process_exists.
  rewrite bool_decide_eq_true_2; [reflexivity|].
  unfold spawned. cbn [processes]. apply elem_of_union_l, elem_of_singleton. reflexivity.
Qed.

(** X14.  [start] where no server is alive (no PID file, or one that is
    damaged or holds the positive pid of a process that is gone), then
    [stop]: [status] in between reports the forked process; [stop] sends it [SIGTERM], removes
    the PID file and the socket file and reports "Server stopped"; after
    that [status] and a second [stop] report "Server not running" and signal
    nothing. *)
Theorem X14_start_then_stop (p : positive) (h : host) :
  (forall b, pid_file h = Some b -> stale h b) ->
  (Z.pos p <= 2147483647)%Z ->
  let h1 := snd (start_server_daemon p h) in
  let h2 := stop_server_daemon h1 in
  status h1
  = (Ok tt, print (lit "Server running (PID: " ++ int_repr (Z.pos p) ++ lit ")") h1)
  /\ h2 = Host None ({[Z.pos p]} ∪ processes h) ({[Z.pos p]} ∪ terminated h) false
               (console h ++ [lit "Server started (PID: " ++ int_repr (Z.pos p) ++ lit ")";
                              lit "Server stopped"])
  /\ status h2 = (Ok tt, print (lit "Server not running") h2)
  /\ stop_server_daemon h2 = print (lit "Server not running") h2.
Proof.
  intros Hstale Hmax h1 h2. subst h2 h1. rewrite start_forks by exact Hstale. cbn [snd].
  pose proof (signalled_spawned p h Hmax) as Hsig.
  assert (Hstop : stop_server_daemon (spawned p h)
                  = Host None ({[Z.pos p]} ∪ processes h) ({[Z.pos p]} ∪ terminated h) false
                         (console h ++ [lit "Server started (PID: " ++ int_repr (Z.pos p)
                                          ++ lit ")"; lit "Server stopped"])).
  { unfold stop_server_daemon. change (pid_file (spawned p h))
      with (Some (Utf8.encode (int_repr (Z.pos p)))). cbv beta iota.
    fold (signalled (spawned p h) (Utf8.encode (int_repr (Z.pos p)))). rewrite Hsig.
    change (Z.pos p =? 0)%Z with false. cbv iota.
    unfold print, spawned. cbn [pid_file processes terminated socket_file console].
    now rewrite <- app_assoc. }
  split; [|split; [exact Hstop|]].
  - unfold status. change (pid_file (spawned p h))
      with (Some (Utf8.encode (int_repr (Z.pos p)))). cbv beta iota.
    fold (signalled (spawned p h) (Utf8.encode (int_repr (Z.pos p)))). now rewrite Hsig.
  - rewrite Hstop. split; reflexivity.
Qed.

Lemma X14_start_then_stop_witness :
  let h := Host None ∅ ∅ true [] in
  let h2 := stop_server_daemon (snd (start_server_daemon 4242 h)) in
  terminated h2 = {[4242%Z]} ∪ ∅
  /\ pid_file h2 = None
  /\ console h2 = [lit "Server started (PID: 4242)"; lit "Server stopped"].
Proof.
  intros h h2.
  destruct (X14_start_then_stop 4242 h) as (_ & Hstop & _).
  - intros b Hb. discriminate.
  - lia.
  - subst h2. rewrite Hstop. split; [reflexivity|]. split; [reflexivity|].
    vm_compute. reflexivity.
Defined.

(** X15.  A PID file that names no live process, because it holds the
    positive pid of a process that is gone or its content is damaged, is
    replaced by [start], which forks a new daemon.  [stop] does not clean it up: it signals nothing, leaves the
    PID file and the socket file where they are and only reports an error,
    every time it is called. *)
Theorem X15_stale_pid_file (p : positive) (h : host) (b : bytes) :
  pid_file h = Some b -> stale h b ->
  start_server_daemon p h = (Ok tt, spawned p h)
  /\ exists line,
       stop_server_daemon h = print (lit "Error stopping server: " ++ line) h
       /\ stop_server_daemon (stop_server_daemon h)
          = print (lit "Error stopping server: " ++ line) (stop_server_daemon h)
       /\ pid_file (stop_server_daemon h) = Some b
       /\ terminated (stop_server_daemon h) = terminated h
       /\ socket_file (stop_server_daemon h) = socket_file h.
Proof.
  intros Hf Hstale. split.
  - apply start_forks. intros b' Hb'. rewrite Hf in Hb'. injection Hb' as <-. exact Hstale.
  - destruct (stale_raises h b Hstale) as (e & Hsig & _ & _). exists (exn_str e).
    assert (Hstop : forall h0, pid_file h0 = Some b -> processes h0 = processes h ->
                      stop_server_daemon h0
                      = print (lit "Error stopping server: " ++ exn_str e) h0).
    { intros h0 Hf0 Hp0. unfold stop_server_daemon. rewrite Hf0.
      assert (Hsame : signalled h0 b = signalled h b).
      { unfold signalled, os_kill, process_exists. now rewrite Hp0. }
      fold (signalled h0 b). now rewrite Hsame, Hsig. }
    rewrite (Hstop h Hf eq_refl). split; [reflexivity|]. split.
    + apply Hstop; [exact Hf | reflexivity].
    + now repeat split.
Qed.

Lemma X15_stale_pid_file_witness :
  let h := Host (Some (lit "4242")) ∅ ∅ true [] in
  pid_file (snd (start_server_daemon 4300 h)) = Some (lit "4300")
  /\ pid_file (stop_server_daemon h) = Some (lit "4242")
  /\ socket_file (stop_server_daemon h) = true.
Proof.
  intros h.
  destruct (X15_stale_pid_file 4300 h (lit "4242")) as (Hstart & line & _ & _ & Hf & _ & Hs).
  - reflexivity.
  - intros text pid Hread Hint. vm_compute in Hread. injection Hread as <-.
    vm_compute in Hint. injection Hint as <-. split; [lia|]. apply not_elem_of_empty.
  - rewrite Hstart. split; [vm_compute; reflexivity|]. split; [exact Hf | exact Hs].
Defined.

(** X16.  A PID file whose number does not fit a C [int] blocks the
    supervisor: [start] fails with [OverflowError], which its handler for a
    stale file does not catch, and forks nothing; [stop] reports the same
    error; [status] fails with it.  None of them changes the file, so it
    stays that way until the file is removed by other means. *)
Theorem X16_pid_out_of_range (p : positive) (h : host) (b : bytes) (text : str) (pid : Z) :
  pid_file h = Some b -> read_text b = Ok text -> py_int text = Some pid ->
  (pid < -2147483648 \/ 2147483647 < pid)%Z ->
  exists e,
    exn_class e = "OverflowError"%string
    /\ start_server_daemon p h = (Raise e, h)
    /\ stop_server_daemon h = print (lit "Error stopping server: " ++ exn_str e) h
    /\ status h = (Raise e, h).
Proof.
  intros Hf Hread Hint Hrange.
  assert (He : exists e, signalled h b = Raise e /\ probe h b = Raise e
                         /\ exn_class e = "OverflowError"%string).
  { destruct (os_kill_out_of_range h pid Hrange) as (line & Hkill).
    unfold signalled, probe, int_of. rewrite Hread. cbn [rbind]. rewrite Hint.
    cbn [rbind]. rewrite Hkill. eexists. split; [reflexivity|]. split; reflexivity. }
  destruct He as (e & Hsig & Hprobe & Hcls). exists e. split; [exact Hcls|].
  assert (Hnot : is_os_or_value_error e = false /\ is_os_error e = false).
  { destruct e as [cls v]. cbn [exn_class] in Hcls. subst cls. split; reflexivity. }
  destruct Hnot as [Hnot1 Hnot2]. split; [|split].
  - unfold start_server_daemon. now rewrite Hf, Hprobe, Hnot1.
  - unfold stop_server_daemon. rewrite Hf. fold (signalled h b). now rewrite Hsig.
  - unfold status. rewrite Hf. fold (signalled h b). now rewrite Hsig, Hnot2.
Qed.

Lemma X16_pid_out_of_range_witness :
  let h := Host (Some (lit "2147483648")) ∅ ∅ false [] in
  exists e, exn_class e = "OverflowError"%string
            /\ start_server_daemon 4242 h = (Raise e, h) /\ status h = (Raise e, h).
Proof.
  intros h.
  destruct (X16_pid_out_of_range 4242 h (lit "2147483648") (lit "2147483648") 2147483648)
    as (e & Hcls & Hstart & _ & Hstatus).
  - reflexivity.
  - vm_compute. reflexivity.
  - vm_compute. reflexivity.
  - lia.
  - exists e. split; [exact Hcls|]. split; [exact Hstart | exact Hstatus].
Defined.

(** Two runs that end with different lines on the terminal differ. *)
Lemma last_line_differs (A : Type) (r r' : A * host) (h : host) (a b : str) :
  console (snd r) = console h ++ [a] -> console (snd r') = console h ++ [b] ->
  nth 7 a 0%N <> nth 7 b 0%N -> r <> r'.
Proof.
  intros Ha Hb Hne Heq. subst r'. rewrite Ha in Hb. apply app_inv_head in Hb.
  injection Hb as Hb. apply Hne. now rewrite Hb.
Qed.

(** X17.  [status] reports a running server exactly when [start] would
    report "already running", and it never changes anything but the
    terminal.  The two differ on a PID file that [int] does not read as a
    number: [start] takes it for stale and forks, [status] fails with the
    [ValueError]. *)
Theorem X17_status_agrees_with_start (p : positive) (h : host) :
  ((exists pid, status h
                = (Ok tt, print (lit "Server running (PID: " ++ int_repr pid ++ lit ")") h))
   <-> start_server_daemon p h = (Ok tt, print (lit "Server already running") h))
  /\ pid_file (snd (status h)) = pid_file h
  /\ processes (snd (status h)) = processes h
  /\ terminated (snd (status h)) = terminated h
  /\ socket_file (snd (status h)) = socket_file h
  /\ (forall b text,
        pid_file h = Some b -> read_text b = Ok text -> py_int text = None ->
        (exists e, exn_class e = "ValueError"%string /\ status h = (Raise e, h))
        /\ start_server_daemon p h = (Ok tt, spawned p h)).
Proof.
  assert (Hsnd : snd (status h) = h \/ exists line, snd (status h) = print line h).
  { unfold status. destruct (pid_file h) as [b|]; [|right; eauto].
    destruct (_ : result Z) as [pid|e]; [right; eauto|].
    destruct (is_os_error e); [right; eauto | left; reflexivity]. }
  split; [|split; [|split; [|split; [|split]]]].
  - unfold status, start_server_daemon. destruct (pid_file h) as [b|] eqn:Hf.
    + fold (signalled h b). pose proof (signalled_probe h b) as Hsp.
      destruct (signalled h b) as [pid|e].
      * destruct Hsp as (-> & _). split; [reflexivity | eauto].
      * rewrite Hsp. split.
        -- intros [pid Hs]. destruct (is_os_error e); [|discriminate]. exfalso. revert Hs.
           apply (last_line_differs _ _ _ h (lit "Server not running (stale PID file)")
                    (lit "Server running (PID: " ++ int_repr pid ++ lit ")"));
             [reflexivity | reflexivity | vm_compute; discriminate].
        -- destruct (is_os_or_value_error e); [|discriminate]. intros Hs. exfalso. revert Hs.
           apply (last_line_differs _ _ _ h
                    (lit "Server started (PID: " ++ int_repr (Z.pos p) ++ lit ")")
                    (lit "Server already running"));
             [reflexivity | reflexivity | vm_compute; discriminate].
    + split.
      * intros [pid Hs]. exfalso. revert Hs.
        apply (last_line_differs _ _ _ h (lit "Server not running")
                 (lit "Server running (PID: " ++ int_repr pid ++ lit ")"));
          [reflexivity | reflexivity | vm_compute; discriminate].
      * intros Hs. apply (f_equal (fun r => pid_file (snd r))) in Hs.
        cbn [snd print pid_file] in Hs. rewrite Hf in Hs. discriminate.
  - destruct Hsnd as [-> | [line ->]]; reflexivity.
  - destruct Hsnd as [-> | [line ->]]; reflexivity.
  - destruct Hsnd as [-> | [line ->]]; reflexivity.
  - destruct Hsnd as [-> | [line ->]]; reflexivity.
  - intros b text Hf Hread Hint. split.
    + eexists. split; [|unfold status, int_of; rewrite Hf, Hread; cbn [rbind];
                         rewrite Hint; cbn [rbind]; reflexivity]. reflexivity.
    + apply start_forks. intros b' Hb' text' pid'. rewrite Hf in Hb'. injection Hb' as <-.
      rewrite Hread. intros [= <-]. rewrite Hint. discriminate.
Qed.

Lemma X17_status_agrees_with_start_witness :
  let h := Host (Some (lit "abc")) ∅ ∅ false [] in
  fst (start_server_daemon 4242 h) = Ok tt
  /\ exists e, exn_class e = "ValueError"%string /\ status h = (Raise e, h).
Proof.
  intros h. destruct (X17_status_agrees_with_start 4242 h) as (_ & _ & _ & _ & _ & H).
  destruct (H (lit "abc") (lit "abc")) as [Hstatus Hstart].
  - reflexivity.
  - vm_compute. reflexivity.
  - vm_compute. reflexivity.
  - split; [now rewrite Hstart | exact Hstatus].
Defined.

(** ** Clearing everything *)

Lemma delete_fold_lookup (names : list str) (d : gmap str file) (name : str) :
  fold_left (fun d name => delete name d) names d !! name
  = if bool_decide (name ∈ names) then None else d !! name.
Proof.
  revert d. induction names as [|a names IH]; intros d; cbn [fold_left].
  - reflexivity.
  - rewrite IH. destruct (decide (name = a)) as [-> | Hne].
    + rewrite lookup_delete_eq. rewrite (bool_decide_eq_true_2 (a ∈ a :: names)) by left.
      now destruct (bool_decide (a ∈ names)).
    + rewrite lookup_delete_ne by congruence.
      assert (Hin : bool_decide (name ∈ a :: names) = bool_decide (name ∈ names)).
      { apply bool_decide_ext. rewrite elem_of_cons. tauto. }
      now rewrite Hin.
Qed.

(** X18.  [clear --all] always succeeds, whatever state the metadata file is
    in: afterwards [outputs/] holds no [.txt] file and keeps its other files,
    [models/] is untouched, no lookup finds a message, and a cache built
    from the directory starts from the empty mapping. *)
Theorem X18_clear_all (days now : Z) (fs : cache_fs) :
  let r := CacheCli.clear true days now fs in
  fst r = Ok [lit "All cache cleared"]
  /\ (forall name,
        outputs (snd r) !! name
        = if ends_with (lit ".txt") name then None else outputs fs !! name)
  /\ models (snd r) = models fs
  /\ ModelCache.__init__ (snd r) = ModelCache.Make (JObj [])
  /\ (forall now' diff model key,
        ModelCache.get_cache_key diff model = Ok key ->
        ModelCache.get_cached_message (snd r) now' diff model = Ok None).
Proof.
  intros r. subst r. unfold CacheCli.clear. cbn [fst snd].
  assert (Hlookup : forall name,
             fold_left (fun d name => delete name d) (ModelCache.glob_txt (outputs fs))
               (outputs fs) !! name
             = if ends_with (lit ".txt") name then None else outputs fs !! name).
  { intros name. rewrite delete_fold_lookup.
    destruct (ends_with (lit ".txt") name) eqn:Htxt.
    - destruct (outputs fs !! name) as [f|] eqn:Hf.
      + rewrite bool_decide_eq_true_2; [reflexivity|]. apply elem_of_glob_txt. eauto.
      + now destruct (bool_decide _).
    - rewrite bool_decide_eq_false_2; [reflexivity|].
      rewrite elem_of_glob_txt. intros [? _]. congruence. }
  split; [reflexivity|]. split; [exact Hlookup|]. split; [reflexivity|]. split.
  - vm_compute. reflexivity.
  - intros now' diff model key Hkey. unfold ModelCache.get_cached_message.
    rewrite Hkey. cbn [rbind ModelCache._save_metadata outputs].
    now rewrite Hlookup, cache_file_txt.
Qed.

Lemma X18_clear_all_witness :
  let damaged := CacheFs (outputs example_fs) ∅ (Some (lit "[1, 2")) in
  let r := CacheCli.clear true 7 6000 damaged in
  ModelCache.get_cached_message (snd r) 200 (lit "some diff") (lit "gpt2") = Ok None
  /\ outputs (snd r) !! lit "0123456789abcdef.txt" = None.
Proof.
  intros damaged r.
  destruct (X18_clear_all 7 6000 damaged) as (_ & Hout & _ & _ & Hget). fold r in Hout, Hget.
  split.
  - apply (Hget 200%Z (lit "some diff") (lit "gpt2") example_key). vm_compute. reflexivity.
  - rewrite Hout. reflexivity.
Defined.
